(** * deploy-cli: a shallow embedding of the deployment orchestrator

    The development follows the JavaScript sources:

    - [lib/ssh.js]     the [SSHConnection] class (a wrapper around node-ssh);
    - [lib/config.js]  [ConfigManager.loadConfig], the profile lookup;
    - [lib/utils.js]   [validateEnvironment], the git probes, [getDeployInfo],
                       [showLogs];
    - [lib/deploy.js]  [deployProject] and the seven deployment stages;
    - [bin/deploy-cli] the [deploy], [config] and [logs] command actions.

    Asynchronous functions are run to completion one after the other (every
    call in the modelled code is awaited), so a computation is a function
    from a state to a result, a new state and the events it produced.
    Everything outside the program (the local shell, the file system, the
    operator at the prompt, the clock, the remote host behind node-ssh) is an
    oracle over an abstract world [W]: the theorems hold for every oracle.

    Presentation is kept as events: a [console.log] or [console.error] call
    with the text it prints (several arguments joined by a space, [chalk]
    colours left out), and the calls of an [ora] spinner with their text. *)

From Stdlib Require Import String Ascii List ZArith Bool Arith Lia DecimalString.
Import ListNotations.
Open Scope string_scope.

Set Implicit Arguments.

(** ** JavaScript values *)

(** The errors the program throws or receives: [new Error(msg)], and the
    engine's own [TypeError] and [SyntaxError]. *)
Inductive JsError : Type :=
| Error (msg : string)
| TypeError (msg : string)
| SyntaxError (msg : string).

(** [error.message] *)
Definition message (e : JsError) : string :=
  match e with
  | Error m => m
  | TypeError m => m
  | SyntaxError m => m
  end.

(** The outcome of a call: a value, or a thrown error (a rejected promise). *)
Inductive JsResult (A : Type) : Type :=
| Ok (a : A)
| Throw (e : JsError).
Arguments Ok {A} a.
Arguments Throw {A} e.

Definition is_ok {A} (r : JsResult A) : bool :=
  match r with Ok _ => true | Throw _ => false end.

(** A property that holds a string or is [undefined]. *)
Definition JsStr : Type := option string.

(** Truthiness of such a property: [undefined] and the empty string are falsy. *)
Definition truthy (s : JsStr) : bool :=
  match s with
  | Some s => negb (String.eqb s EmptyString)
  | None => false
  end.

(** A property inside a template literal. *)
Definition tmpl (s : JsStr) : string :=
  match s with
  | Some s => s
  | None => "undefined"
  end.

(** [a || b] on two such properties. *)
Definition js_or (a b : JsStr) : JsStr := if truthy a then a else b.

(** The double quote character, as a string. *)
Definition dquote : string := String (ascii_of_nat 34) EmptyString.

(** The line feed character, as a string. *)
Definition nl : string := String (ascii_of_nat 10) EmptyString.

(** [String(n)] for a non-negative integer. *)
Definition nat_to_string (n : nat) : string :=
  NilEmpty.string_of_uint (Nat.to_uint n).

(** [a.includes(b)]: [b] occurs in [a] as a contiguous substring. *)
Fixpoint includes (a b : string) : bool :=
  String.prefix b a ||
  match a with
  | EmptyString => false
  | String _ a' => includes a' b
  end.

(** [s.replace(/[:.]/g, '-')] *)
Fixpoint replace_colon_dot (s : string) : string :=
  match s with
  | EmptyString => EmptyString
  | String c s' =>
      String (if (Ascii.eqb c ":" || Ascii.eqb c ".")%char then "-"%char else c)
             (replace_colon_dot s')
  end.

(** White space removed by [String.prototype.trim], on the ASCII range: tab,
    line feed, vertical tab, form feed, carriage return and space. *)
Definition is_space (c : ascii) : bool :=
  let n := nat_of_ascii c in
  ((9 <=? n)%nat && (n <=? 13)%nat) || (n =? 32)%nat.

Fixpoint trim_start (s : string) : string :=
  match s with
  | EmptyString => EmptyString
  | String c s' => if is_space c then trim_start s' else s
  end.

(** Removes trailing white space: a character is dropped when it is white
    space and everything after it has been dropped. *)
Fixpoint trim_end (s : string) : string :=
  match s with
  | EmptyString => EmptyString
  | String c s' =>
      match trim_end s' with
      | EmptyString => if is_space c then EmptyString else String c EmptyString
      | t => String c t
      end
  end.

(** [s.trim()] *)
Definition trim (s : string) : string := trim_end (trim_start s).

(** [array.join(sep)] on an array of strings. *)
Fixpoint join (sep : string) (l : list string) : string :=
  match l with
  | [] => EmptyString
  | [x] => x
  | x :: l' => x ++ sep ++ join sep l'
  end.

(** ** The server profile (an entry of servers.yml) *)

(** An entry of [config.files]. *)
Record FileSpec : Type := {
  file_local : JsStr;
  file_remote : JsStr
}.

(** The properties of a profile that the deployment reads.  A property
    absent from the YAML entry is [undefined] ([None]). *)
Record ServerConfig : Type := {
  host : JsStr;
  port : option Z;
  username : JsStr;
  password : JsStr;
  privateKey : JsStr;
  passphrase : JsStr;
  deployPath : JsStr;
  backupPath : JsStr;
  uploadType : JsStr;
  localPath : JsStr;
  files : option (list FileSpec);
  buildCommand : JsStr;
  installCommand : JsStr;
  buildCommandRemote : JsStr;
  restartCommand : JsStr;
  verifyCommand : JsStr;
  url : JsStr;
  environment : JsStr
}.

(** The [servers] mapping of servers.yml, in the order [Object.keys]
    enumerates it. *)
Definition Servers : Type := list (string * ServerConfig).

(** The parsed document: [servers] is [undefined] when the document has no
    such key. *)
Record ServersDoc : Type := {
  servers : option Servers
}.

(** The object node-ssh's [execCommand] resolves to; [code] is [null] when
    the remote process was ended by a signal. *)
Record ExecResult : Type := {
  code : option Z;
  stdout : string;
  stderr : string
}.

(** A JSON value found under a key of an object; a nested object or array is
    kept as its text. *)
Inductive JsVal : Type :=
| VNull
| VBool (b : bool)
| VNum (n : Z)
| VStr (s : string)
| VNested (text : string).

(** What [JSON.parse] returns, as far as [getDeployInfo] looks into it:
    [null], an object with its keys, or anything else (a boolean, number,
    string or array, on which reading a named property gives [undefined]). *)
Inductive Json : Type :=
| JNull
| JOther
| JObject (fields : list (string * JsVal)).

(** ** Observable events *)

(** The calls of an [ora] spinner. *)
Inductive SpinKind : Type :=
| SpinStart     (* ora(text).start() *)
| SpinText      (* spinner.text = text *)
| SpinSucceed
| SpinFail
| SpinWarn.

(** What a run does that can be observed from outside, in order.  A session
    is named by the index of its [SSHConnection] object. *)
Inductive Event : Type :=
| EvConsoleLog (text : string)
| EvConsoleError (text : string)
| EvSpinner (k : SpinKind) (text : string)
| EvSetTimeout (ms : Z)
| EvExecSync (cmd : string) (res : JsResult string)
| EvPathExists (path : string) (res : bool)
| EvReadFile (path : string)
| EvPrompt (name : string) (answer : bool)
| EvNewSSHConnection (sid : nat)
| EvSshConnect (sid : nat) (res : JsResult unit)
| EvExecCommand (sid : nat) (cmd : string) (cwd : JsStr) (res : JsResult ExecResult)
| EvPutFile (sid : nat) (localPath remotePath : string) (res : JsResult unit)
| EvPutFiles (sid : nat) (transfers : list (string * string)) (res : JsResult unit)
| EvPutDirectory (sid : nat) (localDir remoteDir : JsStr) (res : JsResult unit)
| EvRequestExec (sid : nat) (cmd : string) (res : JsResult unit)
| EvDisconnect (sid : nat)     (* SSHConnection.disconnect is entered *)
| EvDispose (sid : nat).       (* node-ssh's dispose: the connection is closed *)

(** ** The world outside the program *)

(** Every answer of the environment, as a function of the current world.
    [x_yamlLoad] and [x_jsonParse] are the parsers ([yaml.load] returns a
    falsy document as [None]). *)
Record Externals (W : Type) : Type := {
  x_serversFile : string;
  x_execSync : string -> W -> JsResult string * W;
  x_pathExists : string -> W -> bool * W;
  x_readFile : string -> W -> JsResult string * W;
  x_yamlLoad : string -> JsResult (option ServersDoc);
  x_jsonParse : string -> JsResult Json;
  x_prompt : string -> W -> bool * W;
  x_toISOString : W -> string * W;
  x_toLocaleString : W -> string * W;
  x_sshConnect : nat -> ServerConfig -> W -> JsResult unit * W;
  x_execCommand : nat -> string -> JsStr -> W -> JsResult ExecResult * W;
  x_putFile : nat -> string -> string -> W -> JsResult unit * W;
  x_putFiles : nat -> list (string * string) -> W -> JsResult unit * W;
  x_putDirectory : nat -> JsStr -> JsStr -> W -> JsResult unit * W;
  x_requestExec : nat -> string -> W -> JsResult unit * W;
  x_dispose : nat -> W -> W
}.

(** ** Program state *)

(** The fields of an [SSHConnection] object ([this.ssh], the node-ssh client,
    is the session behind the object's index). *)
Record SSHConnection : Type := {
  ssh_config : ServerConfig;
  connected : bool
}.

(** The state of a run: the world, the [SSHConnection] objects allocated so
    far, and the local variable [ssh] of [executeDeployment]. *)
Record State (W : Type) : Type := {
  world : W;
  sessions : list SSHConnection;
  ssh_var : option nat
}.

(** ** Computations *)

Definition M (W A : Type) : Type := State W -> JsResult A * State W * list Event.

Section Monad.
Context {W : Type}.

Definition ret {A} (a : A) : M W A := fun st => (Ok a, st, []).

Definition throw {A} (e : JsError) : M W A := fun st => (Throw e, st, []).

Definition bind {A B} (m : M W A) (f : A -> M W B) : M W B :=
  fun st =>
    match m st with
    | (Ok a, st1, ev1) =>
        match f a st1 with
        | (r, st2, ev2) => (r, st2, (ev1 ++ ev2)%list)
        end
    | (Throw e, st1, ev1) => (Throw e, st1, ev1)
    end.

(** [try { m } catch (error) { handler error }] *)
Definition try_catch {A} (m : M W A) (handler : JsError -> M W A) : M W A :=
  fun st =>
    match m st with
    | (Ok a, st1, ev1) => (Ok a, st1, ev1)
    | (Throw e, st1, ev1) =>
        match handler e st1 with
        | (r, st2, ev2) => (r, st2, (ev1 ++ ev2)%list)
        end
    end.

(** [try { m } finally { fin }]: [fin] runs on both exits; an error of
    [fin] replaces the outcome of [m]. *)
Definition try_finally {A} (m : M W A) (fin : M W unit) : M W A :=
  fun st =>
    match m st with
    | (r, st1, ev1) =>
        match fin st1 with
        | (Ok _, st2, ev2) => (r, st2, (ev1 ++ ev2)%list)
        | (Throw e, st2, ev2) => (Throw e, st2, (ev1 ++ ev2)%list)
        end
    end.

Definition emit (e : Event) : M W unit := fun st => (Ok tt, st, [e]).

(** A call into the world: the answer is logged by [ev]. *)
Definition extern {A} (f : W -> A * W) (ev : A -> Event) : M W A :=
  fun st =>
    match f (world st) with
    | (a, w') =>
        (Ok a, {| world := w'; sessions := sessions st; ssh_var := ssh_var st |},
         [ev a])
    end.

(** A call into the world that may throw. *)
Definition extern_try {A} (f : W -> JsResult A * W) (ev : JsResult A -> Event)
  : M W A :=
  fun st =>
    match f (world st) with
    | (r, w') =>
        (r, {| world := w'; sessions := sessions st; ssh_var := ssh_var st |},
         [ev r])
    end.

(** A call into the world that leaves no trace, such as reading the clock. *)
Definition consult {A} (f : W -> A * W) : M W A :=
  fun st =>
    match f (world st) with
    | (a, w') =>
        (Ok a, {| world := w'; sessions := sessions st; ssh_var := ssh_var st |}, [])
    end.

Definition get_ssh_var : M W (option nat) := fun st => (Ok (ssh_var st), st, []).

Definition set_ssh_var (v : option nat) : M W unit :=
  fun st =>
    (Ok tt, {| world := world st; sessions := sessions st; ssh_var := v |}, []).

(** [if (c) { m }] *)
Definition when (c : bool) (m : M W unit) : M W unit :=
  if c then m else ret tt.

(** [await new Promise(resolve => setTimeout(resolve, ms))] *)
Definition sleep (ms : Z) : M W unit := emit (EvSetTimeout ms).

(** [for (const x of l) { body x }] *)
Fixpoint for_of {A} (l : list A) (body : A -> M W unit) : M W unit :=
  match l with
  | [] => ret tt
  | x :: l' => bind (body x) (fun _ => for_of l' body)
  end.
End Monad.

Notation "x <- m ;; k" := (bind m (fun x => k))
  (at level 61, m at next level, right associativity).
Notation "m ;; k" := (bind m (fun _ => k))
  (at level 61, right associativity).

(** The three components of a finished run. *)
Definition result_of {W A} (o : JsResult A * State W * list Event) : JsResult A :=
  fst (fst o).
Definition state_of {W A} (o : JsResult A * State W * list Event) : State W :=
  snd (fst o).
Definition events_of {W A} (o : JsResult A * State W * list Event) : list Event :=
  snd o.

(** ** lib/ssh.js: the SSHConnection class *)

(** [l] with the element at index [i] replaced by [f] of it. *)
Fixpoint update_nth {A} (i : nat) (f : A -> A) (l : list A) : list A :=
  match l, i with
  | [], _ => []
  | x :: l', O => f x :: l'
  | x :: l', S i' => x :: update_nth i' f l'
  end.

Module SSH.
Section SSH.
Context {W : Type} (X : Externals W).

(** [new SSHConnection(config)]: a fresh object, not connected. *)
Definition new (config : ServerConfig) : M W nat :=
  fun st =>
    let sid := length (sessions st) in
    (Ok sid,
     {| world := world st;
        sessions := (sessions st ++ [{| ssh_config := config; connected := false |}])%list;
        ssh_var := ssh_var st |},
     [EvNewSSHConnection sid]).

(** Reading [this]: the object behind a reference.  A reference returned
    by [new] always has its object; the other case is there for totality. *)
Definition this (sid : nat) : M W SSHConnection :=
  fun st =>
    match nth_error (sessions st) sid with
    | Some o => (Ok o, st, [])
    | None => (Throw (TypeError "Cannot read properties of undefined"), st, [])
    end.

(** [this.connected = b] *)
Definition set_connected (sid : nat) (b : bool) : M W unit :=
  fun st =>
    (Ok tt,
     {| world := world st;
        sessions :=
          update_nth sid
            (fun o => {| ssh_config := ssh_config o; connected := b |})
            (sessions st);
        ssh_var := ssh_var st |},
     []).

Definition not_connected : JsError := Error "SSH未连接".

(** [async connect()] *)
Definition connect (sid : nat) : M W unit :=
  o <- this sid ;;
  emit (EvSpinner SpinStart ("连接服务器 " ++ tmpl (host (ssh_config o)) ++ "...")) ;;
  try_catch
    (extern_try (x_sshConnect X sid (ssh_config o)) (EvSshConnect sid) ;;
     set_connected sid true ;;
     emit (EvSpinner SpinSucceed ("已连接到服务器 " ++ tmpl (host (ssh_config o)))))
    (fun error =>
       emit (EvSpinner SpinFail "服务器连接失败") ;;
       throw (Error ("SSH连接失败: " ++ message error))).

(** [async exec(command, options = {})]; [cwd] is [options.cwd]. *)
Definition exec (sid : nat) (command : string) (cwd : JsStr) : M W string :=
  o <- this sid ;;
  if negb (connected o) then throw not_connected
  else
    try_catch
      (emit (EvConsoleLog ("执行命令: " ++ command)) ;;
       result <- extern_try
                   (x_execCommand X sid command (js_or cwd (deployPath (ssh_config o))))
                   (EvExecCommand sid command (js_or cwd (deployPath (ssh_config o)))) ;;
       match code result with
       | Some 0%Z =>
           when (negb (String.eqb (stdout result) EmptyString))
                (emit (EvConsoleLog (stdout result))) ;;
           ret (stdout result)
       | _ => throw (Error ("命令执行失败: " ++ stderr result))
       end)
      (fun error => throw (Error ("远程命令执行失败: " ++ message error))).

(** [async uploadFile(localPath, remotePath)] *)
Definition uploadFile (sid : nat) (localPath remotePath : string) : M W unit :=
  o <- this sid ;;
  if negb (connected o) then throw not_connected
  else
    try_catch
      (extern_try (x_putFile X sid localPath remotePath)
                  (EvPutFile sid localPath remotePath) ;;
       emit (EvConsoleLog ("✓ 上传文件: " ++ localPath ++ " -> " ++ remotePath)))
      (fun error => throw (Error ("文件上传失败: " ++ message error))).

(** [{ local: file.local, remote: `${remoteDir}/${file.remote || file.local}` }];
    an [undefined] [file.local] is handed to node-ssh as the text it prints as. *)
Definition transfer_of (remoteDir : JsStr) (file : FileSpec) : string * string :=
  (tmpl (file_local file),
   tmpl remoteDir ++ "/" ++ tmpl (js_or (file_remote file) (file_local file))).

(** [async uploadFiles(files, remoteDir)]; [files.map] on [undefined] is a
    TypeError, thrown outside the method's own try block. *)
Definition uploadFiles (sid : nat) (fs : option (list FileSpec)) (remoteDir : JsStr)
  : M W unit :=
  o <- this sid ;;
  if negb (connected o) then throw not_connected
  else
    match fs with
    | None => throw (TypeError "Cannot read properties of undefined (reading 'map')")
    | Some fl =>
        let transfers := map (transfer_of remoteDir) fl in
        try_catch
          (extern_try (x_putFiles X sid transfers) (EvPutFiles sid transfers) ;;
           emit (EvConsoleLog ("✓ 上传 " ++ nat_to_string (length fl) ++ " 个文件完成")))
          (fun error => throw (Error ("批量文件上传失败: " ++ message error)))
    end.

(** [async uploadDirectory(localDir, remoteDir)]; the [validate] and [tick]
    callbacks run inside node-ssh's [putDirectory]. *)
Definition uploadDirectory (sid : nat) (localDir remoteDir : JsStr) : M W unit :=
  o <- this sid ;;
  if negb (connected o) then throw not_connected
  else
    try_catch
      (extern_try (x_putDirectory X sid localDir remoteDir)
                  (EvPutDirectory sid localDir remoteDir) ;;
       emit (EvConsoleLog ("✓ 目录上传完成: " ++ tmpl localDir ++ " -> " ++ tmpl remoteDir)))
      (fun error => throw (Error ("目录上传失败: " ++ message error))).

(** [async fileExists(remotePath)]: never throws. *)
Definition fileExists (sid : nat) (remotePath : string) : M W bool :=
  try_catch
    (result <- exec sid ("test -f " ++ dquote ++ remotePath ++ dquote
                         ++ " && echo " ++ dquote ++ "exists" ++ dquote
                         ++ " || echo " ++ dquote ++ "not_exists" ++ dquote) None ;;
     ret (String.eqb (trim result) "exists"))
    (fun _ => ret false).

(** [async disconnect()] *)
Definition disconnect (sid : nat) : M W unit :=
  emit (EvDisconnect sid) ;;
  o <- this sid ;;
  when (connected o)
    (extern (fun w => (tt, x_dispose X sid w)) (fun _ => EvDispose sid) ;;
     set_connected sid false ;;
     emit (EvConsoleLog "SSH连接已断开")).
End SSH.
End SSH.

(** A pure call that may throw, inside a computation. *)
Definition lift {W A} (r : JsResult A) : M W A :=
  match r with
  | Ok a => ret a
  | Throw e => throw e
  end.

(** ** lib/config.js: ConfigManager.loadConfig *)

Module Config.
Section Config.
Context {W : Type} (X : Externals W).

(** [servers.servers[name]] *)
Fixpoint servers_get (name : string) (l : Servers) : option ServerConfig :=
  match l with
  | [] => None
  | (k, c) :: l' => if String.eqb k name then Some c else servers_get name l'
  end.

(** [x === env] for a property [x] and a string [env]. *)
Definition strict_eq (x : JsStr) (env : string) : bool :=
  match x with
  | Some s => String.eqb s env
  | None => false
  end.

(** The callback of [find]:
    [name => name.includes(env) || servers.servers[name].environment === env].
    [name] is a key of the mapping, so its entry exists. *)
Definition matches (env : string) (l : Servers) (name : string) : bool :=
  includes name env ||
  match servers_get name l with
  | Some c => strict_eq (environment c) env
  | None => false
  end.

(** [Object.keys(servers.servers)] *)
Definition keys (l : Servers) : list string := map fst l.

Definition not_found (env : string) : JsError :=
  Error ("未找到 " ++ env ++ " 环境的服务器配置").

(** [async loadConfig(env)]; the value returned is [servers.servers[serverName]]. *)
Definition loadConfig (env : string) : M W (option ServerConfig) :=
  ex <- extern (x_pathExists X (x_serversFile X)) (EvPathExists (x_serversFile X)) ;;
  if negb ex then throw (Error "配置文件不存在，请先运行 deploy-cli config --init")
  else
    content <- extern_try (x_readFile X (x_serversFile X))
                          (fun _ => EvReadFile (x_serversFile X)) ;;
    doc <- lift (x_yamlLoad X content) ;;
    let servers_ :=
      match doc with
      | Some d => d
      | None => {| servers := Some [] |}
      end in
    match servers servers_ with
    | None => throw (TypeError "Cannot convert undefined or null to object")
    | Some l =>
        let serverName : JsStr := find (matches env l) (keys l) in
        if negb (truthy serverName) then throw (not_found env)
        else ret (servers_get (tmpl serverName) l)
    end.
End Config.
End Config.

(** ** lib/utils.js *)

(** [s.split('\n')] *)
Fixpoint split_lines (s : string) : list string :=
  match s with
  | EmptyString => [EmptyString]
  | String c s' =>
      if Ascii.eqb c (ascii_of_nat 10) then EmptyString :: split_lines s'
      else
        match split_lines s' with
        | [] => [String c EmptyString]
        | l :: ls => String c l :: ls
        end
  end.

(** The object [getGitStatus] returns.  [ahead] and [behind] hold the text
    handed to [parseInt], which never throws; no caller reads them. *)
Record GitStatus : Type := {
  hasUncommittedChanges : bool;
  ahead : string;
  behind : string;
  status : list string
}.

(** The object [getDeployInfo] builds: [{}] with, at most, the two
    properties it assigns.  [None] is an absent or [undefined] property. *)
Record DeployInfo : Type := {
  lastDeploy : option JsVal;
  currentVersion : option JsVal
}.

Definition empty_info : DeployInfo :=
  {| lastDeploy := None; currentVersion := None |}.

(** [json.name] on a parsed document: a TypeError on [null]. *)
Definition get_prop (j : Json) (name : string) : JsResult (option JsVal) :=
  match j with
  | JNull => Throw (TypeError ("Cannot read properties of null (reading '" ++ name ++ "')"))
  | JOther => Ok None
  | JObject fields =>
      Ok (match find (fun kv => String.eqb (fst kv) name) fields with
          | Some kv => Some (snd kv)
          | None => None
          end)
  end.

(** Truthiness of a property value. *)
Definition val_truthy (v : option JsVal) : bool :=
  match v with
  | None => false
  | Some VNull => false
  | Some (VBool b) => b
  | Some (VNum n) => negb (Z.eqb n 0)
  | Some (VStr s) => negb (String.eqb s EmptyString)
  | Some (VNested _) => true
  end.

(** A decimal integer as [String(n)] prints it. *)
Definition Z_to_string (n : Z) : string :=
  match n with
  | Z0 => "0"
  | Zpos p => nat_to_string (Pos.to_nat p)
  | Zneg p => "-" ++ nat_to_string (Pos.to_nat p)
  end.

(** A truthy property value inside a template literal. *)
Definition val_text (v : JsVal) : string :=
  match v with
  | VNull => "null"
  | VBool true => "true"
  | VBool false => "false"
  | VNum n => Z_to_string n
  | VStr s => s
  | VNested t => t
  end.

(** [`${v || '未知'}`] *)
Definition or_unknown (v : option JsVal) : string :=
  match v with
  | Some x => if val_truthy v then val_text x else "未知"
  | None => "未知"
  end.

Module Utils.
Section Utils.
Context {W : Type} (X : Externals W).

(** [execSync(cmd, ...)]: the command's output, or an error when it exits
    with a non-zero status. *)
Definition execSync (cmd : string) : M W string :=
  extern_try (x_execSync X cmd) (EvExecSync cmd).

Definition validEnvs : list string := ["development"; "staging"; "production"].

(** [async validateEnvironment(env)] *)
Definition validateEnvironment (env : string) : M W bool :=
  if negb (existsb (String.eqb env) validEnvs) then
    throw (Error ("无效的环境: " ++ env ++ "。有效环境: " ++ join ", " validEnvs))
  else
    try_catch
      (execSync "git rev-parse --git-dir" ;; ret tt)
      (fun _ => throw (Error "当前目录不是Git仓库")) ;;
    ret true.

(** [getCurrentBranch()] *)
Definition getCurrentBranch : M W string :=
  try_catch
    (out <- execSync "git branch --show-current" ;; ret (trim out))
    (fun _ => throw (Error "获取当前分支失败")).

(** [getGitStatus()] *)
Definition getGitStatus : M W GitStatus :=
  try_catch
    (st <- execSync "git status --porcelain" ;;
     a <- execSync ("git rev-list --count @{u}..HEAD 2>/dev/null || echo "
                    ++ dquote ++ "0" ++ dquote) ;;
     b <- execSync ("git rev-list --count HEAD..@{u} 2>/dev/null || echo "
                    ++ dquote ++ "0" ++ dquote) ;;
     ret {| hasUncommittedChanges := negb (String.eqb (trim st) EmptyString);
            ahead := trim a;
            behind := trim b;
            status :=
              filter (fun line => negb (String.eqb (trim line) EmptyString))
                     (split_lines st) |})
    (fun _ => throw (Error "获取Git状态失败")).

(** [async getDeployInfo(ssh, config)].  [deployInfo] is declared [const]:
    the assignment [deployInfo = JSON.parse(content)] first evaluates
    [JSON.parse(content)] and then throws a TypeError, and the [catch]
    around it swallows both errors. *)
Definition getDeployInfo (ssh : nat) (config : ServerConfig) : M W DeployInfo :=
  try_catch
    (let deployInfo := empty_info in
     let deployMarkFile := tmpl (deployPath config) ++ "/.deploy-info" in
     ex <- SSH.fileExists X ssh deployMarkFile ;;
     when ex
       (content <- SSH.exec X ssh ("cat " ++ deployMarkFile) None ;;
        try_catch
          (_ <- lift (x_jsonParse X content) ;;
           throw (TypeError "Assignment to constant variable."))
          (fun _ => ret tt)) ;;
     deployInfo <-
       try_catch
         (lastModified <- SSH.exec X ssh ("stat -c %y " ++ tmpl (deployPath config)) None ;;
          ret {| lastDeploy := Some (VStr (trim lastModified));
                 currentVersion := currentVersion deployInfo |})
         (fun _ => ret deployInfo) ;;
     deployInfo <-
       try_catch
         (let packagePath := tmpl (deployPath config) ++ "/package.json" in
          ex <- SSH.fileExists X ssh packagePath ;;
          if ex then
            packageContent <- SSH.exec X ssh ("cat " ++ packagePath) None ;;
            packageJson <- lift (x_jsonParse X packageContent) ;;
            version <- lift (get_prop packageJson "version") ;;
            ret {| lastDeploy := lastDeploy deployInfo; currentVersion := version |}
          else ret deployInfo)
         (fun _ => ret deployInfo) ;;
     ret deployInfo)
    (fun _ => ret empty_info).

(** The lines of [showStatus] that print what [getDeployInfo] returned. *)
Definition showStatus_deployInfo (config : ServerConfig) (deployInfo : DeployInfo)
  : M W unit :=
  emit (EvConsoleLog (nl ++ "📁 部署信息:")) ;;
  emit (EvConsoleLog ("   部署路径: " ++ tmpl (deployPath config))) ;;
  emit (EvConsoleLog ("   最后部署: " ++ or_unknown (lastDeploy deployInfo))) ;;
  emit (EvConsoleLog ("   当前版本: " ++ or_unknown (currentVersion deployInfo))).

(** The options of the [logs] command. *)
Record LogOptions : Type := {
  log_env : string;
  log_lines : JsStr;
  log_follow : option bool
}.

(** The loop of [showLogs] over [logPaths]: the command for the first path
    that exists, the empty string when there is none. *)
Fixpoint find_log (ssh : nat) (follow : bool) (lines : string) (logPaths : list string)
  : M W string :=
  match logPaths with
  | [] => ret EmptyString
  | logPath :: rest =>
      ex <- SSH.fileExists X ssh logPath ;;
      if ex then
        emit (EvConsoleLog ("📄 日志文件: " ++ logPath ++ nl)) ;;
        ret (if follow then "tail -f -n " ++ lines ++ " " ++ logPath
             else "tail -n " ++ lines ++ " " ++ logPath)
      else find_log ssh follow lines rest
  end.
End Utils.
End Utils.

Module Logs.
Section Logs.
Context {W : Type} (X : Externals W).

(** [async showLogs(options)], with [{ env, lines = 50, follow = false }].
    In follow mode the stream's handlers run after [showLogs] has returned;
    they are not part of this computation. *)
Definition showLogs (options : Utils.LogOptions) : M W unit :=
  let env := Utils.log_env options in
  let lines := match Utils.log_lines options with Some l => l | None => "50" end in
  let follow := match Utils.log_follow options with Some b => b | None => false end in
  emit (EvConsoleLog (nl ++ "📝 " ++ env ++ " 环境日志 (最近" ++ lines ++ "行)" ++ nl)) ;;
  try_catch
    (config <- Config.loadConfig X env ;;
     match config with
     | None => throw (TypeError "Cannot read properties of undefined (reading 'host')")
     | Some config =>
         ssh <- SSH.new config ;;
         SSH.connect X ssh ;;
         logCommand <-
           Utils.find_log X ssh follow lines
             [tmpl (deployPath config) ++ "/logs/app.log";
              tmpl (deployPath config) ++ "/app.log";
              "/var/log/nginx/access.log";
              "/var/log/nginx/error.log"] ;;
         if String.eqb logCommand EmptyString then
           emit (EvConsoleLog "未找到日志文件") ;;
           SSH.disconnect X ssh
         else if follow then
           emit (EvConsoleLog ("实时跟踪日志 (按 Ctrl+C 退出):" ++ nl)) ;;
           extern_try (x_requestExec X ssh logCommand) (EvRequestExec ssh logCommand)
         else
           logs <- SSH.exec X ssh logCommand None ;;
           emit (EvConsoleLog logs) ;;
           SSH.disconnect X ssh
     end)
    (fun error => emit (EvConsoleError ("获取日志失败: " ++ message error))).
End Logs.
End Logs.

(** ** lib/deploy.js *)

Module Deploy.
Section Deploy.
Context {W : Type} (X : Externals W).

(** The options of [deployProject]; an option left out is [undefined]. *)
Record Options : Type := {
  opt_env : string;
  opt_branch : JsStr;
  opt_force : option bool;
  opt_dryRun : option bool
}.

(** [async checkGitStatus(targetBranch, force)] *)
Definition checkGitStatus (targetBranch : string) (force : bool) : M W unit :=
  emit (EvSpinner SpinStart "检查Git状态...") ;;
  try_catch
    (currentBranch <- Utils.getCurrentBranch X ;;
     gitStatus <- Utils.getGitStatus X ;;
     when (hasUncommittedChanges gitStatus && negb force)
       (emit (EvSpinner SpinFail "发现未提交的更改") ;;
        shouldContinue <- extern (x_prompt X "shouldContinue") (EvPrompt "shouldContinue") ;;
        if negb shouldContinue then throw (Error "部署已取消") else ret tt) ;;
     when (negb (String.eqb currentBranch targetBranch))
       (emit (EvSpinner SpinText ("切换到分支 " ++ targetBranch ++ "...")) ;;
        Utils.execSync X ("git checkout " ++ targetBranch) ;;
        ret tt) ;;
     emit (EvSpinner SpinText "拉取最新代码...") ;;
     Utils.execSync X ("git pull origin " ++ targetBranch) ;;
     emit (EvSpinner SpinSucceed ("Git状态检查完成 (分支: " ++ targetBranch ++ ")")))
    (fun error =>
       emit (EvSpinner SpinFail "Git状态检查失败") ;;
       throw error).

(** [async confirmDeployment(env, branch, config)] *)
Definition confirmDeployment (env branch : string) (config : ServerConfig) : M W unit :=
  emit (EvConsoleLog (nl ++ "📋 部署信息确认:")) ;;
  emit (EvConsoleLog ("  环境: " ++ env)) ;;
  emit (EvConsoleLog ("  分支: " ++ branch)) ;;
  emit (EvConsoleLog ("  服务器: " ++ tmpl (host config))) ;;
  emit (EvConsoleLog ("  部署路径: " ++ tmpl (deployPath config))) ;;
  confirmed <- extern (x_prompt X "confirmed") (EvPrompt "confirmed") ;;
  if negb confirmed then throw (Error "部署已取消") else ret tt.

Definition steps : list string :=
  ["构建项目"; "连接服务器"; "备份当前版本"; "上传新版本"; "安装依赖"; "重启服务";
   "验证部署结果"].

(** [async simulateDeployment(config, branch)] *)
Definition simulateDeployment (config : ServerConfig) (branch : string) : M W unit :=
  for_of steps
    (fun step =>
       emit (EvSpinner SpinStart ("模拟: " ++ step ++ "...")) ;;
       sleep 1000 ;;
       emit (EvSpinner SpinSucceed ("模拟: " ++ step ++ " 完成"))) ;;
  emit (EvConsoleLog (nl ++ "✅ 模拟部署完成，所有步骤验证通过")).

(** [async buildProject(config)] *)
Definition buildProject (config : ServerConfig) : M W unit :=
  emit (EvSpinner SpinStart "构建项目...") ;;
  try_catch
    (when (truthy (buildCommand config))
       (Utils.execSync X (tmpl (buildCommand config)) ;; ret tt) ;;
     emit (EvSpinner SpinSucceed "项目构建完成"))
    (fun error =>
       emit (EvSpinner SpinFail "项目构建失败") ;;
       throw error).

(** The two remote commands of the backup stage. *)
Definition backup_mkdir (config : ServerConfig) : string :=
  "mkdir -p " ++ tmpl (backupPath config).

Definition backup_cp (config : ServerConfig) (backupPath_ : string) : string :=
  "cp -r " ++ tmpl (deployPath config) ++ " " ++ backupPath_.

(** [async backupCurrentVersion(ssh, config)] *)
Definition backupCurrentVersion (ssh : nat) (config : ServerConfig) : M W unit :=
  emit (EvSpinner SpinStart "备份当前版本...") ;;
  try_catch
    (now <- consult (x_toISOString X) ;;
     let timestamp := replace_colon_dot now in
     let backupPath_ := tmpl (backupPath config) ++ "/backup-" ++ timestamp in
     SSH.exec X ssh (backup_mkdir config) None ;;
     SSH.exec X ssh (backup_cp config backupPath_) None ;;
     emit (EvSpinner SpinSucceed ("当前版本已备份到: " ++ backupPath_)))
    (fun error =>
       emit (EvSpinner SpinFail "备份失败") ;;
       throw error).

(** [async uploadFiles(ssh, config)] *)
Definition uploadFiles (ssh : nat) (config : ServerConfig) : M W unit :=
  emit (EvSpinner SpinStart "上传文件...") ;;
  try_catch
    (SSH.exec X ssh ("mkdir -p " ++ tmpl (deployPath config)) None ;;
     (if Config.strict_eq (uploadType config) "rsync" then
        SSH.uploadDirectory X ssh (localPath config) (deployPath config)
      else
        SSH.uploadFiles X ssh (files config) (deployPath config)) ;;
     emit (EvSpinner SpinSucceed "文件上传完成"))
    (fun error =>
       emit (EvSpinner SpinFail "文件上传失败") ;;
       throw error).

(** [async installAndBuild(ssh, config)] *)
Definition installAndBuild (ssh : nat) (config : ServerConfig) : M W unit :=
  emit (EvSpinner SpinStart "安装依赖...") ;;
  try_catch
    (SSH.exec X ssh ("cd " ++ tmpl (deployPath config)) None ;;
     when (truthy (installCommand config))
       (SSH.exec X ssh ("cd " ++ tmpl (deployPath config) ++ " && "
                        ++ tmpl (installCommand config)) None ;;
        ret tt) ;;
     when (truthy (buildCommandRemote config))
       (emit (EvSpinner SpinText "执行远程构建...") ;;
        SSH.exec X ssh ("cd " ++ tmpl (deployPath config) ++ " && "
                        ++ tmpl (buildCommandRemote config)) None ;;
        ret tt) ;;
     emit (EvSpinner SpinSucceed "依赖安装和构建完成"))
    (fun error =>
       emit (EvSpinner SpinFail "依赖安装失败") ;;
       throw error).

(** [async restartService(ssh, config)] *)
Definition restartService (ssh : nat) (config : ServerConfig) : M W unit :=
  if negb (truthy (restartCommand config)) then ret tt
  else
    emit (EvSpinner SpinStart "重启服务...") ;;
    try_catch
      (SSH.exec X ssh (tmpl (restartCommand config)) None ;;
       sleep 3000 ;;
       emit (EvSpinner SpinSucceed "服务重启完成"))
      (fun error =>
         emit (EvSpinner SpinFail "服务重启失败") ;;
         throw error).

Definition verify_warning : string := "部署验证失败，但部署可能已完成".

(** [async verifyDeployment(ssh, config)]: the [catch] does not rethrow. *)
Definition verifyDeployment (ssh : nat) (config : ServerConfig) : M W unit :=
  emit (EvSpinner SpinStart "验证部署结果...") ;;
  try_catch
    (when (truthy (verifyCommand config))
       (result <- SSH.exec X ssh (tmpl (verifyCommand config)) None ;;
        emit (EvConsoleLog ("验证结果: " ++ result))) ;;
     emit (EvSpinner SpinSucceed "部署验证通过"))
    (fun error =>
       emit (EvSpinner SpinWarn verify_warning) ;;
       emit (EvConsoleLog ("验证错误: " ++ message error))).

(** [async executeDeployment(config, branch, env)]; [let ssh;] is the
    state's [ssh_var], read by the [finally] block. *)
Definition executeDeployment (config : ServerConfig) (branch env : string) : M W unit :=
  set_ssh_var None ;;
  try_finally
    (buildProject config ;;
     ssh <- SSH.new config ;;
     set_ssh_var (Some ssh) ;;
     SSH.connect X ssh ;;
     backupCurrentVersion ssh config ;;
     uploadFiles ssh config ;;
     installAndBuild ssh config ;;
     restartService ssh config ;;
     verifyDeployment ssh config)
    (ssh <- get_ssh_var ;;
     match ssh with
     | Some ssh => SSH.disconnect X ssh
     | None => ret tt
     end).

(** [async deployProject(options)], with
    [{ env, branch = 'main', force = false, dryRun = false }]. *)
Definition deployProject (options : Options) : M W unit :=
  let env := opt_env options in
  let branch := match opt_branch options with Some b => b | None => "main" end in
  let force := match opt_force options with Some b => b | None => false end in
  let dryRun := match opt_dryRun options with Some b => b | None => false end in
  emit (EvConsoleLog (nl ++ "🚀 开始部署到 " ++ env ++ " 环境" ++ nl)) ;;
  emit (EvSpinner SpinStart "验证部署环境...") ;;
  try_catch
    (Utils.validateEnvironment X env ;;
     emit (EvSpinner SpinSucceed "环境验证通过"))
    (fun error =>
       emit (EvSpinner SpinFail "环境验证失败") ;;
       throw error) ;;
  config <- Config.loadConfig X env ;;
  match config with
  | None => throw (Error ("未找到 " ++ env ++ " 环境的配置"))
  | Some config =>
      checkGitStatus branch force ;;
      when (negb force && negb dryRun) (confirmDeployment env branch config) ;;
      if dryRun then
        emit (EvConsoleLog (nl ++ "🧪 模拟部署模式，不会实际执行部署操作" ++ nl)) ;;
        simulateDeployment config branch
      else
        executeDeployment config branch env ;;
        emit (EvConsoleLog (nl ++ "🎉 部署完成！" ++ nl)) ;;
        emit (EvConsoleLog "📝 部署信息:") ;;
        emit (EvConsoleLog ("  环境: " ++ env)) ;;
        emit (EvConsoleLog ("  分支: " ++ branch)) ;;
        now <- consult (x_toLocaleString X) ;;
        emit (EvConsoleLog ("  时间: " ++ now)) ;;
        when (truthy (url config))
          (emit (EvConsoleLog (nl ++ "🌐 访问地址: " ++ tmpl (url config))))
  end.
End Deploy.
End Deploy.

(** ** bin/deploy-cli: the command actions *)

Module Cli.
Section Cli.
Context {W : Type} (X : Externals W).

(** What an action leaves behind: [Some c] when it called
    [process.exit(c)], [None] when it returned. *)
Definition Exit : Type := option Z.

(** The action of the [deploy] command. *)
Definition deploy_action (options : Deploy.Options) : M W Exit :=
  try_catch
    (Deploy.deployProject X options ;; ret None)
    (fun error =>
       emit (EvConsoleError ("❌ 部署失败: " ++ message error)) ;;
       ret (Some 1%Z)).

(** The methods of [configManager] the [config] command calls; the wizard
    behind them is not modelled. *)
Record ConfigManager : Type := {
  cm_addServer : string -> M W unit;
  cm_listConfigs : M W unit;
  cm_removeServer : string -> M W unit;
  cm_initConfig : M W unit
}.

(** The options of the [config] command. *)
Record ConfigOptions : Type := {
  opt_addServer : JsStr;
  opt_list : option bool;
  opt_remove : JsStr;
  opt_init : option bool
}.

Definition flag (b : option bool) : bool :=
  match b with Some b => b | None => false end.

(** The operation the [config] command selects. *)
Definition config_dispatch (configManager : ConfigManager) (options : ConfigOptions)
  : M W unit :=
  if truthy (opt_addServer options) then
    cm_addServer configManager (tmpl (opt_addServer options))
  else if flag (opt_list options) then cm_listConfigs configManager
  else if truthy (opt_remove options) then
    cm_removeServer configManager (tmpl (opt_remove options))
  else if flag (opt_init options) then cm_initConfig configManager
  else emit (EvConsoleLog "请指定配置操作，使用 --help 查看帮助").

(** The action of the [config] command. *)
Definition config_action (configManager : ConfigManager) (options : ConfigOptions)
  : M W Exit :=
  try_catch
    (config_dispatch configManager options ;; ret None)
    (fun error =>
       emit (EvConsoleError ("❌ 配置操作失败: " ++ message error)) ;;
       ret (Some 1%Z)).

(** The action of the [logs] command: its [catch] only prints. *)
Definition logs_action (options : Utils.LogOptions) : M W Exit :=
  try_catch
    (Logs.showLogs X options ;; ret None)
    (fun error =>
       emit (EvConsoleError ("❌ 获取日志失败: " ++ message error)) ;;
       ret None).
End Cli.

(** The status the process ends with: the argument of [process.exit], 0
    when the action returned and the process ran out of work, 1 when an
    error escaped the action. *)
Definition exit_status (r : JsResult Exit) : Z :=
  match r with
  | Ok (Some c) => c
  | Ok None => 0%Z
  | Throw _ => 1%Z
  end.
End Cli.

(** ** Reading a trace *)

(** The kind of an event; a spinner event keeps what it shows. *)
Inductive Kind : Type :=
| KConsole
| KSpinner (k : SpinKind) (text : string)
| KTimer
| KLocalShell
| KFile
| KPrompt
| KNew
| KConnect
| KExec
| KUpload
| KStream
| KDisconnect
| KDispose.

Definition kind_of (e : Event) : Kind :=
  match e with
  | EvConsoleLog _ => KConsole
  | EvConsoleError _ => KConsole
  | EvSpinner k t => KSpinner k t
  | EvSetTimeout _ => KTimer
  | EvExecSync _ _ => KLocalShell
  | EvPathExists _ _ => KFile
  | EvReadFile _ => KFile
  | EvPrompt _ _ => KPrompt
  | EvNewSSHConnection _ => KNew
  | EvSshConnect _ _ => KConnect
  | EvExecCommand _ _ _ _ => KExec
  | EvPutFile _ _ _ _ => KUpload
  | EvPutFiles _ _ _ => KUpload
  | EvPutDirectory _ _ _ _ => KUpload
  | EvRequestExec _ _ _ => KStream
  | EvDisconnect _ => KDisconnect
  | EvDispose _ => KDispose
  end.

(** An event of a remote session: constructing it, connecting, running a
    command, transferring files, closing it. *)
Definition is_remote (k : Kind) : bool :=
  match k with
  | KNew | KConnect | KExec | KUpload | KStream | KDisconnect | KDispose => true
  | _ => false
  end.

Definition is_upload (k : Kind) : bool :=
  match k with
  | KUpload => true
  | _ => false
  end.

(** A profile lookup reads the servers file. *)
Definition is_lookup (k : Kind) : bool :=
  match k with
  | KFile => true
  | _ => false
  end.

(** [disconnect] entered on session [sid]. *)
Definition is_disconnect (sid : nat) (e : Event) : bool :=
  match e with
  | EvDisconnect s => Nat.eqb s sid
  | _ => false
  end.

(** The connection of session [sid] closed. *)
Definition is_dispose (sid : nat) (e : Event) : bool :=
  match e with
  | EvDispose s => Nat.eqb s sid
  | _ => false
  end.

Definition count (p : Event -> bool) (evs : list Event) : nat :=
  length (filter p evs).

(** The remote commands of a trace, in order, with what came back. *)
Fixpoint execs (evs : list Event) : list (string * JsResult ExecResult) :=
  match evs with
  | [] => []
  | EvExecCommand _ cmd _ res :: evs' => (cmd, res) :: execs evs'
  | _ :: evs' => execs evs'
  end.

(** A remote command succeeded: it came back with exit status 0. *)
Definition exec_ok (res : JsResult ExecResult) : bool :=
  match res with
  | Ok r => match code r with Some 0%Z => true | _ => false end
  | Throw _ => false
  end.

(** The message of the error [SSHConnection.exec] throws for a command that
    did not succeed. *)
Definition exec_error (res : JsResult ExecResult) : JsError :=
  match res with
  | Ok r => Error ("远程命令执行失败: " ++ "命令执行失败: " ++ stderr r)
  | Throw e => Error ("远程命令执行失败: " ++ message e)
  end.

(** What [SSHConnection.exec] returns for an answer of the remote host. *)
Definition exec_out (res : JsResult ExecResult) : JsResult string :=
  match res with
  | Ok r => if exec_ok res then Ok (stdout r) else Throw (exec_error res)
  | Throw _ => Throw (exec_error res)
  end.

(** What [SSHConnection.exec] leaves in the trace on a connected session. *)
Definition exec_events (sid : nat) (cmd : string) (cwd : JsStr)
  (res : JsResult ExecResult) : list Event :=
  EvConsoleLog ("执行命令: " ++ cmd) :: EvExecCommand sid cmd cwd res ::
  match res with
  | Ok r =>
      if exec_ok res && negb (String.eqb (stdout r) EmptyString)
      then [EvConsoleLog (stdout r)] else []
  | Throw _ => []
  end.

(** [m] leaves the session objects and the variable [ssh] as they are, and
    produces only events whose kind is allowed. *)
Definition keeps {W A} (allowed : Kind -> bool) (m : M W A) : Prop :=
  forall st,
    sessions (state_of (m st)) = sessions st /\
    ssh_var (state_of (m st)) = ssh_var st /\
    forallb (fun e => allowed (kind_of e)) (events_of (m st)) = true.

(** Progress reports: console output, timers, and the spinner calls that do
    not signal a failure. *)
Definition reports_ok (allowed : Kind -> bool) : Prop :=
  allowed KConsole = true /\ allowed KTimer = true /\
  (forall t, allowed (KSpinner SpinStart t) = true) /\
  (forall t, allowed (KSpinner SpinText t) = true) /\
  (forall t, allowed (KSpinner SpinSucceed t) = true).

(** Everything but the events of a remote session. *)
Definition local_only (k : Kind) : bool := negb (is_remote k).

(** Everything but opening and closing a session. *)
Definition no_lifecycle (k : Kind) : bool :=
  match k with
  | KNew | KConnect | KDisconnect | KDispose => false
  | _ => true
  end.

(** Everything but remote commands and transfers. *)
Definition no_command (k : Kind) : bool :=
  match k with
  | KExec | KUpload => false
  | _ => true
  end.

(** Everything but a given spinner call. *)
Definition no_spinner (k0 : SpinKind) (t0 : string) (k : Kind) : bool :=
  match k with
  | KSpinner k1 t1 =>
      negb (match k0, k1 with
            | SpinStart, SpinStart | SpinText, SpinText | SpinSucceed, SpinSucceed
            | SpinFail, SpinFail | SpinWarn, SpinWarn => String.eqb t0 t1
            | _, _ => false
            end)
  | _ => true
  end.

Definition install_failed : Event := EvSpinner SpinFail "依赖安装失败".
Definition verify_warned : Event := EvSpinner SpinWarn Deploy.verify_warning.

(** ** Concrete worlds *)

(** A world without memory, told how the local shell, the servers file, the
    remote host and the operator answer. *)
Record Scenario : Type := {
  sc_exists : bool;
  sc_doc : JsResult (option ServersDoc);
  sc_json : string -> JsResult Json;
  sc_local : string -> JsResult string;
  sc_connect : JsResult unit;
  sc_remote : string -> JsResult ExecResult;
  sc_answer : bool
}.

Definition world_of (s : Scenario) : Externals unit :=
  {| x_serversFile := "/home/deployer/.deploy-cli/servers.yml";
     x_execSync := fun cmd w => (sc_local s cmd, w);
     x_pathExists := fun _ w => (sc_exists s, w);
     x_readFile := fun _ w => (Ok "servers: ...", w);
     x_yamlLoad := fun _ => sc_doc s;
     x_jsonParse := sc_json s;
     x_prompt := fun _ w => (sc_answer s, w);
     x_toISOString := fun w => ("2024-05-01T10:20:30.456Z", w);
     x_toLocaleString := fun w => ("5/1/2024, 10:20:30 AM", w);
     x_sshConnect := fun _ _ w => (sc_connect s, w);
     x_execCommand := fun _ cmd _ w => (sc_remote s cmd, w);
     x_putFile := fun _ _ _ w => (Ok tt, w);
     x_putFiles := fun _ _ w => (Ok tt, w);
     x_putDirectory := fun _ _ _ w => (Ok tt, w);
     x_requestExec := fun _ _ w => (Ok tt, w);
     x_dispose := fun _ w => w |}.

Definition start : State unit :=
  {| world := tt; sessions := []; ssh_var := None |}.

(** A Node.js profile as [addServer] stores it, with an [environment]. *)
Definition app_config : ServerConfig :=
  {| host := Some "10.0.0.5"; port := Some 22%Z; username := Some "deployer";
     password := None; privateKey := Some "-----BEGIN KEY-----"; passphrase := None;
     deployPath := Some "/var/www/app"; backupPath := Some "/var/backups/deploy";
     uploadType := Some "rsync"; localPath := Some "dist"; files := None;
     buildCommand := Some "npm run build";
     installCommand := Some "npm install --production";
     buildCommandRemote := Some EmptyString;
     restartCommand := Some "pm2 restart app";
     verifyCommand := Some "curl -f http://localhost:3000/health || exit 1";
     url := Some "https://app.example.com"; environment := Some "staging" |}.

(** A static site: nothing to install or build on the host. *)
Definition static_config : ServerConfig :=
  {| host := Some "10.0.0.6"; port := Some 22%Z; username := Some "deployer";
     password := None; privateKey := None; passphrase := None;
     deployPath := Some "/var/www/html"; backupPath := Some "/var/backups/deploy";
     uploadType := Some "rsync"; localPath := Some "public"; files := None;
     buildCommand := Some EmptyString;
     installCommand := Some EmptyString;
     buildCommandRemote := Some EmptyString;
     restartCommand := Some EmptyString;
     verifyCommand := Some EmptyString;
     url := None; environment := None |}.

Definition exit_with (c : Z) (err : string) : JsResult ExecResult :=
  Ok {| code := Some c; stdout := EmptyString; stderr := err |}.

(** Everything answers and succeeds; the git probes report a clean tree on
    [main]. *)
Definition calm : Scenario :=
  {| sc_exists := true;
     sc_doc := Ok (Some {| servers := Some [("staging-server", app_config)] |});
     sc_json := fun _ => Throw (SyntaxError "Unexpected token");
     sc_local := fun cmd =>
       if String.eqb cmd "git branch --show-current" then Ok ("main" ++ nl)
       else Ok EmptyString;
     sc_connect := Ok tt;
     sc_remote := fun _ => exit_with 0 EmptyString;
     sc_answer := true |}.

(** As [calm], but the remote commands for which [bad] holds exit with
    status 1. *)
Definition failing (bad : string -> bool) : Scenario :=
  {| sc_exists := true;
     sc_doc := sc_doc calm;
     sc_json := sc_json calm;
     sc_local := sc_local calm;
     sc_connect := Ok tt;
     sc_remote := fun cmd => if bad cmd then exit_with 1 "denied" else exit_with 0 EmptyString;
     sc_answer := true |}.

Definition staging_options : Deploy.Options :=
  {| Deploy.opt_env := "staging"; Deploy.opt_branch := None;
     Deploy.opt_force := Some true; Deploy.opt_dryRun := None |}.

(** A state with one session object that was never connected. *)
Definition idle : State unit :=
  {| world := tt;
     sessions := [{| ssh_config := app_config; connected := false |}];
     ssh_var := None |}.

(** What the simulation of one step leaves in the trace. *)
Definition simulated (step : string) : list Event :=
  [EvSpinner SpinStart ("模拟: " ++ step ++ "...");
   EvSetTimeout 1000;
   EvSpinner SpinSucceed ("模拟: " ++ step ++ " 完成")].

(** The trace of a whole simulation: the seven stages in order, then the
    closing line. *)
Definition simulated_trace : list Event :=
  (simulated "构建项目" ++ simulated "连接服务器" ++ simulated "备份当前版本" ++
   simulated "上传新版本" ++ simulated "安装依赖" ++ simulated "重启服务" ++
   simulated "验证部署结果" ++
   [EvConsoleLog (nl ++ "✅ 模拟部署完成，所有步骤验证通过")])%list.

Definition dry_run_options : Deploy.Options :=
  {| Deploy.opt_env := "staging"; Deploy.opt_branch := Some "main";
     Deploy.opt_force := None; Deploy.opt_dryRun := Some true |}.

Definition prod_options : Deploy.Options :=
  {| Deploy.opt_env := "prod"; Deploy.opt_branch := None;
     Deploy.opt_force := None; Deploy.opt_dryRun := None |}.

(** A run of [m] that succeeds ends with the events [tail]. *)
Definition finishes_with {W A} (tail : list Event) (m : M W A) : Prop :=
  forall st, is_ok (result_of (m st)) = true ->
             exists pre, events_of (m st) = (pre ++ tail)%list.

(** The stages of [executeDeployment] that run inside the session, from the
    backup to the verification. *)
Definition stages {W} (X : Externals W) (ssh : nat) (config : ServerConfig) : M W unit :=
  Deploy.backupCurrentVersion X ssh config ;;
  Deploy.uploadFiles X ssh config ;;
  Deploy.installAndBuild X ssh config ;;
  Deploy.restartService X ssh config ;;
  Deploy.verifyDeployment X ssh config.

(** The session object [new SSHConnection(config)] creates, and the same
    object once connected. *)
Definition fresh_session (config : ServerConfig) : SSHConnection :=
  {| ssh_config := config; connected := false |}.

Definition open_session (config : ServerConfig) : SSHConnection :=
  {| ssh_config := config; connected := true |}.

(** The state in which [executeDeployment] builds: [ssh] is [undefined]. *)
Definition entering {W} (st : State W) : State W :=
  {| world := world st; sessions := sessions st; ssh_var := None |}.

(** The events of a connection attempt on a fresh session. *)
Definition connect_events (sid : nat) (config : ServerConfig) (res : JsResult unit)
  : list Event :=
  [EvNewSSHConnection sid;
   EvSpinner SpinStart ("连接服务器 " ++ tmpl (host config) ++ "...");
   EvSshConnect sid res;
   match res with
   | Ok _ => EvSpinner SpinSucceed ("已连接到服务器 " ++ tmpl (host config))
   | Throw _ => EvSpinner SpinFail "服务器连接失败"
   end].

(** The events of [disconnect] on a connected session. *)
Definition release_events (sid : nat) : list Event :=
  [EvDisconnect sid; EvDispose sid; EvConsoleLog "SSH连接已断开"].

(** The path of a backup taken at the instant whose ISO text is [now]. *)
Definition backup_path (config : ServerConfig) (now : string) : string :=
  tmpl (backupPath config) ++ "/backup-" ++ replace_colon_dot now.

(** The part of a run in [evs] took the backup: its first two remote
    commands are the mkdir of [backupPath] and the copy of [deployPath] into a
    stamped backup path, and both succeeded. *)
Definition backup_done (config : ServerConfig) (evs : list Event) : Prop :=
  exists now r1 r2 rest,
    execs evs =
      (Deploy.backup_mkdir config, r1)
      :: (Deploy.backup_cp config (backup_path config now), r2) :: rest /\
    exec_ok r1 = true /\ exec_ok r2 = true.

(** The remote copy of the backup stage is refused. *)
Definition backup_breaks : Scenario := failing (String.prefix "cp -r").

(** In a run of [m] from a state where [pre] holds, the event [mk] in the
    trace tells that the result satisfies [R]. *)
Definition marks {W A} (pre : State W -> Prop) (mk : Event)
  (R : JsResult A -> Prop) (m : M W A) : Prop :=
  forall st, pre st -> In mk (events_of (m st)) -> R (result_of (m st)).

(** A precondition that only looks at the session objects. *)
Definition on_sessions {W} (pre : State W -> Prop) : Prop :=
  forall st st', sessions st' = sessions st -> pre st -> pre st'.

(** The session [sid] is the connected session of [config]. *)
Definition session_open {W} (sid : nat) (config : ServerConfig) (st : State W) : Prop :=
  nth_error (sessions st) sid = Some (open_session config).

(** The run failed with the error of a remote command that did not succeed. *)
Definition remote_failure {A} (r : JsResult A) : Prop :=
  exists res, exec_ok res = false /\ r = Throw (exec_error res).

(** The remote commands of the install stage, in order: the change of
    directory, then the install and the remote build commands of the profile,
    each only when it is not empty. *)
Definition install_commands (config : ServerConfig) : list string :=
  let cd := "cd " ++ tmpl (deployPath config) in
  let install := cd ++ " && " ++ tmpl (installCommand config) in
  let build := cd ++ " && " ++ tmpl (buildCommandRemote config) in
  List.app [cd]
    (List.app (if truthy (installCommand config) then [install] else [])
              (if truthy (buildCommandRemote config) then [build] else [])).

(** Every remote command of a trace succeeded. *)
Definition all_ok (evs : list Event) : bool :=
  forallb (fun cr => exec_ok (snd cr)) (execs evs).

(** The verify command of the profile is refused. *)
Definition verify_breaks : Scenario := failing (String.prefix "curl").

(** The remote install command is refused. *)
Definition install_breaks : Scenario :=
  failing (fun cmd => includes cmd "npm install").

(** The change of directory is refused. *)
Definition cd_breaks : Scenario := failing (String.prefix "cd ").

(** A state with one connected session of [config]. *)
Definition online (config : ServerConfig) : State unit :=
  {| world := tt; sessions := [open_session config]; ssh_var := None |}.

(** The content of a marker file. *)
Definition marker_text : string :=
  "{" ++ dquote ++ "lastDeploy" ++ dquote ++ ": " ++ dquote ++ "2024-04-30T08:00:00Z"
  ++ dquote ++ ", " ++ dquote ++ "currentVersion" ++ dquote ++ ": " ++ dquote
  ++ "1.4.2" ++ dquote ++ "}".

Definition marker_json : Json :=
  JObject [("lastDeploy", VStr "2024-04-30T08:00:00Z");
           ("currentVersion", VStr "1.4.2")].

(** A host on which the marker file of the deployment exists and holds
    [marker_text], the deployed tree has no package.json, and [stat] is not
    available. *)
Definition marked_host : Scenario :=
  {| sc_exists := true;
     sc_doc := sc_doc calm;
     sc_json := fun s =>
       if String.eqb s marker_text then Ok marker_json
       else Throw (SyntaxError "Unexpected token");
     sc_local := sc_local calm;
     sc_connect := Ok tt;
     sc_remote := fun cmd =>
       if String.prefix "test -f " cmd then
         if includes cmd ".deploy-info"
         then Ok {| code := Some 0%Z; stdout := "exists" ++ nl; stderr := EmptyString |}
         else Ok {| code := Some 0%Z; stdout := "not_exists" ++ nl; stderr := EmptyString |}
       else if String.prefix "cat " cmd then
         Ok {| code := Some 0%Z; stdout := marker_text; stderr := EmptyString |}
       else exit_with 127 "stat: command not found";
     sc_answer := true |}.

(** A servers file whose only entry has the empty name and is declared for
    staging. *)
Definition unnamed_staging : Scenario :=
  {| sc_exists := true;
     sc_doc := Ok (Some {| servers := Some [(EmptyString, app_config)] |});
     sc_json := sc_json calm;
     sc_local := sc_local calm;
     sc_connect := Ok tt;
     sc_remote := sc_remote calm;
     sc_answer := true |}.

(** No servers file yet. *)
Definition unconfigured : Scenario :=
  {| sc_exists := false;
     sc_doc := Ok None;
     sc_json := sc_json calm;
     sc_local := sc_local calm;
     sc_connect := Ok tt;
     sc_remote := sc_remote calm;
     sc_answer := true |}.

Definition staging_logs : Utils.LogOptions :=
  {| Utils.log_env := "staging"; Utils.log_lines := Some "50";
     Utils.log_follow := None |}.

(** * The rest of the code *)

(** ** lib/ssh.js: the other methods of the class *)

Module Remote.
Section Remote.
Context {W : Type} (X : Externals W).



End Remote.
End Remote.

(** ** lib/utils.js: formatTime *)

Module Format.

End Format.

(** ** JavaScript objects used as mappings *)

(** The properties every plain object inherits from [Object.prototype]; all
    of them are truthy. *)
Definition object_prototype_names : list string :=
  ["constructor"; "__defineGetter__"; "__defineSetter__"; "hasOwnProperty";
   "__lookupGetter__"; "__lookupSetter__"; "isPrototypeOf"; "propertyIsEnumerable";
   "toString"; "valueOf"; "__proto__"; "toLocaleString"].

Definition inherited (name : string) : bool :=
  existsb (String.eqb name) object_prototype_names.

Definition is_digit (c : ascii) : bool :=
  let n := nat_of_ascii c in ((48 <=? n)%nat && (n <=? 57)%nat).

(** The number a string of digits writes. *)
Fixpoint digits_value (acc : N) (s : string) : N :=
  match s with
  | EmptyString => acc
  | String c s' => digits_value (acc * 10 + N.of_nat (nat_of_ascii c - 48))%N s'
  end.

Fixpoint all_digits (s : string) : bool :=
  match s with
  | EmptyString => true
  | String c s' => is_digit c && all_digits s'
  end.

(** A property name that is an array index: the decimal writing, without
    leading zero, of an integer below 2^32 - 1.  Such keys are enumerated
    first, in increasing order. *)
Definition is_index (name : string) : bool :=
  match name with
  | EmptyString => false
  | String c rest =>
      all_digits name
      && (negb (Ascii.eqb c "0") || String.eqb rest EmptyString)
      && (String.length name <=? 10)%nat
      && (digits_value 0 name <? 4294967295)%N
  end.

(** [name in obj], for own properties. *)
Definition has_key (name : string) (l : Servers) : bool :=
  existsb (fun kv => String.eqb (fst kv) name) l.

(** Assigning to a key the object has: the key keeps its place. *)
Fixpoint servers_replace (name : string) (c : ServerConfig) (l : Servers) : Servers :=
  match l with
  | [] => []
  | (k, c') :: l' =>
      if String.eqb k name then (k, c) :: l' else (k, c') :: servers_replace name c l'
  end.

(** Adding an index key: it goes before the first key that is not an index
    or is a greater one. *)
Fixpoint servers_insert_index (name : string) (c : ServerConfig) (l : Servers) : Servers :=
  match l with
  | [] => [(name, c)]
  | (k, c') :: l' =>
      if is_index k && (digits_value 0 k <? digits_value 0 name)%N
      then (k, c') :: servers_insert_index name c l'
      else (name, c) :: (k, c') :: l'
  end.

(** [obj[name] = c] on a mapping of profiles: an own key is overwritten in
    place; otherwise ["__proto__"] sets the prototype and adds no key, an
    index goes among the indices, and any other name is added last. *)
Definition servers_set (name : string) (c : ServerConfig) (l : Servers) : Servers :=
  if has_key name l then servers_replace name c l
  else if String.eqb name "__proto__" then l
  else if is_index name then servers_insert_index name c l
  else (l ++ [(name, c)])%list.

(** [delete obj[name]] *)
Definition servers_delete (name : string) (l : Servers) : Servers :=
  filter (fun kv => negb (String.eqb (fst kv) name)) l.

(** Truthiness of [obj[name]]: an own entry (a profile object), or a
    property inherited from [Object.prototype]. *)
Definition property_truthy (name : string) (l : Servers) : bool :=
  has_key name l || inherited name.

(** ** lib/config.js: the methods that write *)

(** What the configuration manager needs from outside beyond [Externals]:
    its paths, the writing half of the file system, [yaml.dump], and the
    text an operator types at a prompt.  [f_defaultConfigYaml] is
    [yaml.dump(defaultConfig, { indent: 2 })], a fixed text. *)
Record FileOps (W : Type) : Type := {
  f_configDir : string;
  f_configFile : string;
  f_ensureDir : string -> W -> JsResult unit * W;
  f_writeFile : string -> string -> W -> JsResult unit * W;
  f_yamlDump : ServersDoc -> JsResult string;
  f_defaultConfigYaml : JsResult string;
  f_promptText : string -> W -> string * W
}.

(** A call into the world that may throw and leaves no trace: what it did
    is read off the world. *)
Definition perform {W A} (f : W -> JsResult A * W) : M W A :=
  fun st =>
    match f (world st) with
    | (r, w') => (r, {| world := w'; sessions := sessions st; ssh_var := ssh_var st |}, [])
    end.

(** The default commands of a project type. *)
Record ProjectCommands : Type := {
  pc_buildCommand : string;
  pc_installCommand : string;
  pc_buildCommandRemote : string;
  pc_restartCommand : string;
  pc_verifyCommand : string
}.

(** What [commands[projectType] || commands['Node.js']] evaluates to: an
    entry of the table, or, for the name of a property of
    [Object.prototype], that inherited member. *)
Inductive Looked : Type :=
| Commands (c : ProjectCommands)
| ObjectMember (name : string).

Module Manager.
Section Manager.
Context {W : Type} (X : Externals W) (F : FileOps W).

Definition node_commands : ProjectCommands :=
  {| pc_buildCommand := "npm run build";
     pc_installCommand := "npm install --production";
     pc_buildCommandRemote := EmptyString;
     pc_restartCommand := "pm2 restart app";
     pc_verifyCommand := "curl -f http://localhost:3000/health || exit 1" |}.

(** The table of [getProjectCommands]. *)
Definition commands : list (string * ProjectCommands) :=
  [("Node.js", node_commands);
   ("React/Vue SPA",
    {| pc_buildCommand := "npm run build";
       pc_installCommand := "npm install";
       pc_buildCommandRemote := "npm run build";
       pc_restartCommand := "sudo systemctl reload nginx";
       pc_verifyCommand := "curl -f http://localhost/ || exit 1" |});
   ("Static HTML",
    {| pc_buildCommand := EmptyString;
       pc_installCommand := EmptyString;
       pc_buildCommandRemote := EmptyString;
       pc_restartCommand := "sudo systemctl reload nginx";
       pc_verifyCommand := "curl -f http://localhost/ || exit 1" |});
   ("PHP",
    {| pc_buildCommand := EmptyString;
       pc_installCommand := "composer install --no-dev";
       pc_buildCommandRemote := EmptyString;
       pc_restartCommand := "sudo systemctl reload php-fpm && sudo systemctl reload nginx";
       pc_verifyCommand := "curl -f http://localhost/ || exit 1" |});
   ("Python",
    {| pc_buildCommand := EmptyString;
       pc_installCommand := "pip install -r requirements.txt";
       pc_buildCommandRemote := EmptyString;
       pc_restartCommand := "sudo systemctl restart gunicorn";
       pc_verifyCommand := "curl -f http://localhost:8000/health || exit 1" |})].

(** [getProjectCommands(projectType)] *)
Definition getProjectCommands (projectType : string) : Looked :=
  match find (fun kv => String.eqb (fst kv) projectType) commands with
  | Some kv => Commands (snd kv)
  | None =>
      if inherited projectType then ObjectMember projectType
      else Commands node_commands
  end.

(** [async readPrivateKey(keyPath)]: the content of the file, or [undefined]. *)
Definition readPrivateKey (keyPath : string) : M W JsStr :=
  try_catch
    (ex <- extern (x_pathExists X keyPath) (EvPathExists keyPath) ;;
     if ex then
       content <- extern_try (x_readFile X keyPath) (fun _ => EvReadFile keyPath) ;;
       ret (Some content)
     else
       emit (EvConsoleLog ("⚠ 私钥文件不存在: " ++ keyPath)) ;;
       ret None)
    (fun error =>
       emit (EvConsoleLog ("⚠ 读取私钥文件失败: " ++ message error)) ;;
       ret None).

(** [yaml.load(content) || { servers: {} }] *)
Definition or_empty (doc : option ServersDoc) : ServersDoc :=
  match doc with
  | Some d => d
  | None => {| servers := Some [] |}
  end.

(** [async saveServerConfig(serverName, config)] *)
Definition saveServerConfig (serverName : string) (config : ServerConfig) : M W unit :=
  ex <- extern (x_pathExists X (x_serversFile X)) (EvPathExists (x_serversFile X)) ;;
  servers_ <-
    (if ex then
       content <- extern_try (x_readFile X (x_serversFile X))
                             (fun _ => EvReadFile (x_serversFile X)) ;;
       doc <- lift (x_yamlLoad X content) ;;
       ret (or_empty doc)
     else ret {| servers := Some [] |}) ;;
  match servers servers_ with
  | None =>
      throw (TypeError ("Cannot set properties of undefined (setting '"
                        ++ serverName ++ "')"))
  | Some l =>
      text <- lift (f_yamlDump F {| servers := Some (servers_set serverName config l) |}) ;;
      perform (f_writeFile F (x_serversFile X) text)
  end.

(** [async removeServer(serverName)] *)
Definition removeServer (serverName : string) : M W unit :=
  ex <- extern (x_pathExists X (x_serversFile X)) (EvPathExists (x_serversFile X)) ;;
  if negb ex then emit (EvConsoleLog "未找到服务器配置文件")
  else
    content <- extern_try (x_readFile X (x_serversFile X))
                          (fun _ => EvReadFile (x_serversFile X)) ;;
    doc <- lift (x_yamlLoad X content) ;;
    match servers (or_empty doc) with
    | None =>
        throw (TypeError ("Cannot read properties of undefined (reading '"
                          ++ serverName ++ "')"))
    | Some l =>
        if negb (property_truthy serverName l) then
          emit (EvConsoleLog ("服务器 " ++ serverName ++ " 不存在"))
        else
          confirmed <- extern (x_prompt X "confirmed") (EvPrompt "confirmed") ;;
          when confirmed
            (text <- lift (f_yamlDump F {| servers := Some (servers_delete serverName l) |}) ;;
             perform (f_writeFile F (x_serversFile X) text) ;;
             emit (EvConsoleLog ("✓ 服务器配置 " ++ serverName ++ " 已删除")))
    end.

(** [async initConfig()].  [addServer] is the wizard of the same class,
    entered only when the operator asks for it. *)
Definition initConfig (addServer : M W unit) : M W unit :=
  emit (EvConsoleLog ("🔧 初始化部署配置..." ++ nl)) ;;
  perform (f_ensureDir F (f_configDir F)) ;;
  configText <- lift (f_defaultConfigYaml F) ;;
  perform (f_writeFile F (f_configFile F) configText) ;;
  serversText <- lift (f_yamlDump F {| servers := Some [] |}) ;;
  perform (f_writeFile F (x_serversFile X) serversText) ;;
  emit (EvConsoleLog "✓ 配置文件初始化完成") ;;
  emit (EvConsoleLog ("配置目录: " ++ f_configDir F)) ;;
  addFirstServer <- extern (x_prompt X "addFirstServer") (EvPrompt "addFirstServer") ;;
  when addFirstServer addServer.
End Manager.
End Manager.

(** ** bin/deploy-cli: the quick command *)

Module Quick.
Section Quick.
Context {W : Type} (X : Externals W) (F : FileOps W).

(** The action of the [quick] command: three questions, then the
    deployment with the two answers as its only options.  Nothing catches
    what [deployProject] throws. *)
Definition quick_action : M W unit :=
  env <- consult (f_promptText F "env") ;;
  branch <- consult (f_promptText F "branch") ;;
  confirm <- extern (x_prompt X "confirm") (EvPrompt "confirm") ;;
  if confirm then
    Deploy.deployProject X
      {| Deploy.opt_env := env; Deploy.opt_branch := Some branch;
         Deploy.opt_force := None; Deploy.opt_dryRun := None |}
  else emit (EvConsoleLog "部署已取消").
End Quick.
End Quick.

(** ** An in-memory disk *)

(** Files by path, and the answers the operator will give, in order:
    confirmations and typed texts. *)
Record Disk : Type := {
  disk_files : list (string * string);
  disk_answers : list bool;
  disk_texts : list string
}.

Fixpoint disk_read (path : string) (files : list (string * string)) : option string :=
  match files with
  | [] => None
  | (p, c) :: rest => if String.eqb p path then Some c else disk_read path rest
  end.

Fixpoint disk_write (path content : string) (files : list (string * string))
  : list (string * string) :=
  match files with
  | [] => [(path, content)]
  | (p, c) :: rest =>
      if String.eqb p path then (p, content) :: rest
      else (p, c) :: disk_write path content rest
  end.

Definition disk_servers_file : string := "/home/deployer/.deploy-cli/servers.yml".

(** The world of a disk: reads and writes go to [disk_files], prompts take
    the next answer (a missing answer is a refusal, an empty text), the
    YAML codec is [load] and [dump]; nothing else fails. *)
Definition disk_externals (load : string -> JsResult (option ServersDoc))
  : Externals Disk :=
  {| x_serversFile := disk_servers_file;
     x_execSync := fun _ w => (Ok EmptyString, w);
     x_pathExists := fun p w =>
       (match disk_read p (disk_files w) with Some _ => true | None => false end, w);
     x_readFile := fun p w =>
       (match disk_read p (disk_files w) with
        | Some c => Ok c
        | None => Throw (Error ("ENOENT: no such file or directory, open '" ++ p ++ "'"))
        end, w);
     x_yamlLoad := load;
     x_jsonParse := fun _ => Throw (SyntaxError "Unexpected token");
     x_prompt := fun _ w =>
       match disk_answers w with
       | a :: rest =>
           (a, {| disk_files := disk_files w; disk_answers := rest;
                  disk_texts := disk_texts w |})
       | [] => (false, w)
       end;
     x_toISOString := fun w => ("2024-05-01T10:20:30.456Z", w);
     x_toLocaleString := fun w => ("5/1/2024, 10:20:30 AM", w);
     x_sshConnect := fun _ _ w => (Ok tt, w);
     x_execCommand := fun _ _ _ w =>
       (Ok {| code := Some 0%Z; stdout := EmptyString; stderr := EmptyString |}, w);
     x_putFile := fun _ _ _ w => (Ok tt, w);
     x_putFiles := fun _ _ w => (Ok tt, w);
     x_putDirectory := fun _ _ _ w => (Ok tt, w);
     x_requestExec := fun _ _ w => (Ok tt, w);
     x_dispose := fun _ w => w |}.

Definition disk_fileops (dump : ServersDoc -> JsResult string) : FileOps Disk :=
  {| f_configDir := "/home/deployer/.deploy-cli";
     f_configFile := "/home/deployer/.deploy-cli/config.yml";
     f_ensureDir := fun _ w => (Ok tt, w);
     f_writeFile := fun p c w =>
       (Ok tt, {| disk_files := disk_write p c (disk_files w);
                  disk_answers := disk_answers w; disk_texts := disk_texts w |});
     f_yamlDump := dump;
     f_defaultConfigYaml := Ok "version: 1.0.0";
     f_promptText := fun _ w =>
       match disk_texts w with
       | t :: rest =>
           (t, {| disk_files := disk_files w; disk_answers := disk_answers w;
                  disk_texts := rest |})
       | [] => (EmptyString, w)
       end |}.

(** A state on a disk, with no session. *)
Definition on_disk (d : Disk) : State Disk :=
  {| world := d; sessions := []; ssh_var := None |}.

(** [m], then [k]: two calls one after the other. *)
Definition and_then {W A B} (m : M W A) (k : M W B) : M W B := m ;; k.

(** ** Reading a trace, event by event *)

(** Every event of every run of [m] satisfies [P]. *)
Definition only {W A} (P : Event -> bool) (m : M W A) : Prop :=
  forall st, forallb P (events_of (m st)) = true.

(** After the first event for which [trigger] holds, every event satisfies
    [rest]. *)
Fixpoint halts (trigger rest : Event -> bool) (evs : list Event) : bool :=
  match evs with
  | [] => true
  | e :: tl => if trigger e then forallb rest tl else halts trigger rest tl
  end.

(** [m] stops at a trigger: its traces satisfy [halts], and a run whose
    trace holds a trigger throws an error for which [R] holds. *)
Definition stops_at {W A} (trigger rest : Event -> bool) (R : JsError -> Prop)
  (m : M W A) : Prop :=
  forall st,
    halts trigger rest (events_of (m st)) = true /\
    (existsb trigger (events_of (m st)) = true ->
     exists e, result_of (m st) = Throw e /\ R e).

(** The traces of [m] satisfy [halts]; a run may return normally after a
    trigger. *)
Definition winds_down {W A} (trigger rest : Event -> bool) (m : M W A) : Prop :=
  forall st, halts trigger rest (events_of (m st)) = true.

(** No event for which [bad] holds comes before the first one for which
    [gate] holds. *)
Fixpoint gated (gate bad : Event -> bool) (evs : list Event) : bool :=
  match evs with
  | [] => true
  | e :: tl => if gate e then true else negb (bad e) && gated gate bad tl
  end.

(** [m] passes the gate: nothing bad comes before it, and a run that
    returns normally went through it. *)
Definition passes {W A} (gate bad : Event -> bool) (m : M W A) : Prop :=
  forall st,
    gated gate bad (events_of (m st)) = true /\
    (is_ok (result_of (m st)) = true -> existsb gate (events_of (m st)) = true).

(** A call of the remote host that did not succeed: a refused connection, a
    command that threw or exited with a non-zero status, a transfer or a
    stream that threw. *)
Definition failed (e : Event) : bool :=
  match e with
  | EvSshConnect _ res => negb (is_ok res)
  | EvExecCommand _ _ _ res => negb (exec_ok res)
  | EvPutFile _ _ _ res => negb (is_ok res)
  | EvPutFiles _ _ res => negb (is_ok res)
  | EvPutDirectory _ _ _ res => negb (is_ok res)
  | EvRequestExec _ _ res => negb (is_ok res)
  | _ => false
  end.

(** Anything but a call that opens a session, runs a command on the host or
    sends it files. *)
Definition winding_down (e : Event) : bool :=
  match kind_of e with
  | KNew | KConnect | KExec | KUpload | KStream => false
  | _ => true
  end.

(** The operator answered no. *)
Definition declined (e : Event) : bool :=
  match e with
  | EvPrompt _ answer => negb answer
  | _ => false
  end.

(** Output on the console or the spinner. *)
Definition is_report (e : Event) : bool :=
  match kind_of e with
  | KConsole | KSpinner _ _ => true
  | _ => false
  end.

Definition is_prompt (e : Event) : bool :=
  match e with
  | EvPrompt _ _ => true
  | _ => false
  end.

(** [git pull origin <branch>] ran and succeeded. *)
Definition pulled (branch : string) (e : Event) : bool :=
  match e with
  | EvExecSync cmd (Ok _) => String.eqb cmd ("git pull origin " ++ branch)
  | _ => false
  end.

Definition remote_event (e : Event) : bool := is_remote (kind_of e).

Definition cancelled (e : JsError) : Prop := e = Error "部署已取消".

(** The kinds of events of a real deployment: everything but prompts, reads
    of the local file system and streams. *)
Definition deploy_kinds (k : Kind) : bool :=
  match k with
  | KPrompt | KFile | KStream => false
  | _ => true
  end.

(** An operator who answers no to every question. *)
Definition hesitant : Scenario :=
  {| sc_exists := true;
     sc_doc := sc_doc calm;
     sc_json := sc_json calm;
     sc_local := sc_local calm;
     sc_connect := Ok tt;
     sc_remote := sc_remote calm;
     sc_answer := false |}.

(** A deployment to staging that asks for confirmation. *)
Definition asking_options : Deploy.Options :=
  {| Deploy.opt_env := "staging"; Deploy.opt_branch := Some "main";
     Deploy.opt_force := None; Deploy.opt_dryRun := None |}.

Definition is_console_error (e : Event) : bool :=
  match e with
  | EvConsoleError _ => true
  | _ => false
  end.

(** Neither the opening or closing of a session nor an error line. *)
Definition uneventful (e : Event) : bool :=
  no_lifecycle (kind_of e) && negb (is_console_error e).

(** The part of [showLogs] that runs inside the session when the log is
    not followed: the search for a log file, the command that prints it,
    the release. *)
Definition print_log {W} (X : Externals W) (ssh : nat) (config : ServerConfig)
  (lines : string) : M W unit :=
  logCommand <-
    Utils.find_log X ssh false lines
      [tmpl (deployPath config) ++ "/logs/app.log";
       tmpl (deployPath config) ++ "/app.log";
       "/var/log/nginx/access.log";
       "/var/log/nginx/error.log"] ;;
  if String.eqb logCommand EmptyString then
    emit (EvConsoleLog "未找到日志文件") ;;
    SSH.disconnect X ssh
  else
    logs <- SSH.exec X ssh logCommand None ;;
    emit (EvConsoleLog logs) ;;
    SSH.disconnect X ssh.

(** A host on which every probed file exists and the log command is
    refused. *)
Definition tail_breaks : Scenario :=
  {| sc_exists := true;
     sc_doc := sc_doc calm;
     sc_json := sc_json calm;
     sc_local := sc_local calm;
     sc_connect := Ok tt;
     sc_remote := fun cmd =>
       if String.prefix "tail" cmd then exit_with 1 "denied"
       else Ok {| code := Some 0%Z; stdout := "exists" ++ nl; stderr := EmptyString |};
     sc_answer := true |}.

(** The servers file of the disk [d] holds the mapping [l]: it parses to a
    document whose [servers] is [l], or it is absent or empty and [l] is
    empty. *)
Definition stored (load : string -> JsResult (option ServersDoc)) (d : Disk)
  (l : Servers) : Prop :=
  match disk_read disk_servers_file (disk_files d) with
  | Some text =>
      match load text with
      | Ok doc => servers (Manager.or_empty doc) = Some l
      | Throw _ => False
      end
  | None => l = []
  end.

(** The disk [d] after [text] was written to the servers file. *)
Definition rewritten (text : string) (d : Disk) : Disk :=
  {| disk_files := disk_write disk_servers_file text (disk_files d);
     disk_answers := disk_answers d;
     disk_texts := disk_texts d |}.

(** What the operator answers next; no answer is a refusal. *)
Definition next_answer (d : Disk) : bool :=
  match disk_answers d with
  | a :: _ => a
  | [] => false
  end.

(** A codec given by a table of the documents it knows. *)
Definition table_load (table : list (string * Servers)) (text : string)
  : JsResult (option ServersDoc) :=
  match find (fun kv => String.eqb (fst kv) text) table with
  | Some kv => Ok (Some {| servers := Some (snd kv) |})
  | None => Throw (Error "bad indentation of a mapping entry")
  end.

Definition const_dump (text : string) (doc : ServersDoc) : JsResult string := Ok text.

(** A disk with one server configured, and the operator's answers. *)
Definition one_server (answers : list bool) : Disk :=
  {| disk_files := [(disk_servers_file, "servers: static-site")];
     disk_answers := answers;
     disk_texts := [] |}.

Definition known_documents : list (string * Servers) :=
  [("servers: static-site", [("static-site", static_config)]);
   ("servers: static-site, staging-server",
    [("static-site", static_config); ("staging-server", app_config)]);
   ("servers: {}", [])].

(** The operator answered yes to the question [name]. *)
Definition accepted (name : string) (e : Event) : bool :=
  match e with
  | EvPrompt n true => String.eqb n name
  | _ => false
  end.

(** The local build command fails. *)
Definition build_breaks : Scenario :=
  {| sc_exists := true;
     sc_doc := sc_doc calm;
     sc_json := sc_json calm;
     sc_local := fun cmd =>
       if String.eqb cmd "npm run build" then Throw (Error "Command failed: npm run build")
       else sc_local calm cmd;
     sc_connect := Ok tt;
     sc_remote := sc_remote calm;
     sc_answer := true |}.

(** The host refuses the connection. *)
Definition refused : Scenario :=
  {| sc_exists := true;
     sc_doc := sc_doc calm;
     sc_json := sc_json calm;
     sc_local := sc_local calm;
     sc_connect := Throw (Error "connect ECONNREFUSED 10.0.0.5:22");
     sc_remote := sc_remote calm;
     sc_answer := true |}.




(** Console output, or a remote command that only reads: a test for a
    file, [cat] or [stat]. *)
Definition reads_only (e : Event) : bool :=
  match e with
  | EvConsoleLog _ => true
  | EvExecCommand _ cmd _ _ =>
      String.prefix "test -f " cmd || String.prefix "cat " cmd
      || String.prefix "stat -c %y " cmd
  | _ => false
  end.

(** * Properties *)

(** ** Lists, strings and counting *)

Lemma count_app p l1 l2 : count p (l1 ++ l2)%list = count p l1 + count p l2.
Proof.
  unfold count. rewrite filter_app, length_app. reflexivity.
Qed.

Lemma count_none p l :
  forallb (fun e => negb (p e)) l = true -> count p l = 0.
Proof.
  unfold count. induction l as [|e l IH]; simpl; [reflexivity|].
  intros H. apply andb_true_iff in H as [He Hl].
  destruct (p e); [discriminate|]. auto.
Qed.

Lemma execs_app l1 l2 : execs (l1 ++ l2)%list = (execs l1 ++ execs l2)%list.
Proof.
  induction l1 as [|e l1 IH]; simpl; [reflexivity|].
  destruct e; simpl; rewrite ?IH; reflexivity.
Qed.

Lemma execs_none l :
  forallb (fun e => no_command (kind_of e)) l = true -> execs l = [].
Proof.
  induction l as [|e l IH]; simpl; [reflexivity|].
  intros H. apply andb_true_iff in H as [He Hl].
  destruct e; simpl in *; try discriminate; auto.
Qed.

Lemma forallb_weaken {A} (p q : A -> bool) l :
  (forall x, p x = true -> q x = true) ->
  forallb p l = true -> forallb q l = true.
Proof.
  intros Hpq H. rewrite forallb_forall in *. auto.
Qed.

Lemma forallb_In {A} (p : A -> bool) l x :
  forallb p l = true -> In x l -> p x = true.
Proof.
  intros H. rewrite forallb_forall in H. auto.
Qed.

(** An element that is not allowed in the first part of a list lies in the
    second part. *)
Lemma split_after {A} (p : A -> bool) (l1 l2 pre post : list A) x :
  (l1 ++ l2 = pre ++ x :: post)%list ->
  forallb p l1 = true -> p x = false ->
  exists pre', pre = (l1 ++ pre')%list /\ l2 = (pre' ++ x :: post)%list.
Proof.
  revert pre. induction l1 as [|y l1 IH]; intros pre Heq Hall Hx; simpl in *.
  - exists pre. auto.
  - apply andb_true_iff in Hall as [Hy Hl1].
    destruct pre as [|z pre]; simpl in Heq; inversion Heq; subst.
    + congruence.
    + destruct (IH pre H1 Hl1 Hx) as [pre' [-> ->]].
      exists pre'. auto.
Qed.

Lemma nth_error_fresh {A} (l : list A) x : nth_error (l ++ [x]) (length l) = Some x.
Proof.
  rewrite nth_error_app2 by lia. rewrite Nat.sub_diag. reflexivity.
Qed.

(** ** The rules of [keeps] *)

Section Keeps.
Context {W : Type}.
Variable allowed : Kind -> bool.

Lemma keeps_ret {A} (a : A) : keeps (W := W) allowed (ret a).
Proof. intros st. cbn. auto. Qed.

Lemma keeps_throw {A} e : keeps (W := W) (A := A) allowed (throw e).
Proof. intros st. cbn. auto. Qed.

Lemma keeps_emit e : allowed (kind_of e) = true -> keeps (W := W) allowed (emit e).
Proof. intros H st. cbn. rewrite H. auto. Qed.

Lemma keeps_bind {A B} (m : M W A) (f : A -> M W B) :
  keeps allowed m -> (forall a, keeps allowed (f a)) -> keeps allowed (bind m f).
Proof.
  intros Hm Hf st. unfold bind. specialize (Hm st).
  destruct (m st) as [[[a|e] st1] ev1]; cbn in *; [|exact Hm].
  specialize (Hf a st1). destruct (f a st1) as [[r st2] ev2]; cbn in *.
  destruct Hm as (H1 & H2 & H3), Hf as (H4 & H5 & H6).
  rewrite forallb_app, H3, H6. repeat split; congruence.
Qed.

Lemma keeps_try_catch {A} (m : M W A) (h : JsError -> M W A) :
  keeps allowed m -> (forall e, keeps allowed (h e)) -> keeps allowed (try_catch m h).
Proof.
  intros Hm Hh st. unfold try_catch. specialize (Hm st).
  destruct (m st) as [[[a|e] st1] ev1]; cbn in *; [exact Hm|].
  specialize (Hh e st1). destruct (h e st1) as [[r st2] ev2]; cbn in *.
  destruct Hm as (H1 & H2 & H3), Hh as (H4 & H5 & H6).
  rewrite forallb_app, H3, H6. repeat split; congruence.
Qed.

Lemma keeps_extern {A} (f : W -> A * W) ev :
  (forall a, allowed (kind_of (ev a)) = true) -> keeps allowed (extern f ev).
Proof.
  intros H st. unfold extern. destruct (f (world st)) as [a w']. cbn.
  rewrite H. auto.
Qed.

Lemma keeps_extern_try {A} (f : W -> JsResult A * W) ev :
  (forall r, allowed (kind_of (ev r)) = true) -> keeps allowed (extern_try f ev).
Proof.
  intros H st. unfold extern_try. destruct (f (world st)) as [r w']. cbn.
  rewrite H. auto.
Qed.

Lemma keeps_consult {A} (f : W -> A * W) : keeps allowed (consult f).
Proof.
  intros st. unfold consult. destruct (f (world st)) as [a w']. cbn. auto.
Qed.

Lemma keeps_when c (m : M W unit) : keeps allowed m -> keeps allowed (when c m).
Proof. intros H. destruct c; [exact H | apply keeps_ret]. Qed.

Lemma keeps_lift {A} (r : JsResult A) : keeps (W := W) allowed (lift r).
Proof. destruct r; [apply keeps_ret | apply keeps_throw]. Qed.

Lemma keeps_for_of {A} (l : list A) (body : A -> M W unit) :
  (forall x, keeps allowed (body x)) -> keeps allowed (for_of l body).
Proof.
  intros H. induction l as [|x l IH]; simpl.
  - apply keeps_ret.
  - apply keeps_bind; auto.
Qed.
End Keeps.

(** One step of a [keeps] proof: the rule of the outermost construct. *)
Ltac keeps_step :=
  lazymatch goal with
  | |- keeps _ (bind _ _) => apply keeps_bind; [|intros]
  | |- keeps _ (try_catch _ _) => apply keeps_try_catch; [|intros]
  | |- keeps _ (ret _) => apply keeps_ret
  | |- keeps _ (throw _) => apply keeps_throw
  | |- keeps _ (emit _) => apply keeps_emit; cbn [kind_of]
  | |- keeps _ (sleep _) => apply keeps_emit; cbn [kind_of]
  | |- keeps _ (when _ _) => apply keeps_when
  | |- keeps _ (lift _) => apply keeps_lift
  | |- keeps _ (consult _) => apply keeps_consult
  | |- keeps _ (extern _ _) => apply keeps_extern; intros; cbn [kind_of]
  | |- keeps _ (extern_try _ _) => apply keeps_extern_try; intros; cbn [kind_of]
  | |- keeps _ (for_of _ _) => apply keeps_for_of; intros
  | |- keeps _ (if ?b then _ else _) => destruct b
  | |- keeps _ (match ?x with _ => _ end) => destruct x
  end.

(** Side conditions: a kind is allowed. *)
Ltac allowed_side :=
  match goal with
  | H : reports_ok _ |- _ => destruct H as (? & ? & ? & ? & ?)
  | _ => idtac
  end;
  first [assumption | reflexivity | solve [auto]].

Ltac keeps_tac := repeat first [keeps_step | eassumption | solve [eauto] | allowed_side].

(** ** The session class *)

Section SessionFacts.
Context {W : Type} (X : Externals W).
Variable allowed : Kind -> bool.

Lemma this_keeps sid : keeps allowed (SSH.this (W := W) sid).
Proof.
  intros st. unfold SSH.this. destruct (nth_error (sessions st) sid); cbn; auto.
Qed.

Lemma exec_keeps sid cmd cwd :
  allowed KConsole = true -> allowed KExec = true ->
  keeps allowed (SSH.exec X sid cmd cwd).
Proof.
  intros Hc He. unfold SSH.exec.
  apply keeps_bind; [apply this_keeps|intros o]. keeps_tac.
Qed.

Lemma uploadFile_keeps sid l r :
  allowed KConsole = true -> allowed KUpload = true ->
  keeps allowed (SSH.uploadFile X sid l r).
Proof.
  intros Hc He. unfold SSH.uploadFile.
  apply keeps_bind; [apply this_keeps|intros o]. keeps_tac.
Qed.

Lemma uploadFiles_keeps sid fs r :
  allowed KConsole = true -> allowed KUpload = true ->
  keeps allowed (SSH.uploadFiles X sid fs r).
Proof.
  intros Hc He. unfold SSH.uploadFiles.
  apply keeps_bind; [apply this_keeps|intros o]. keeps_tac.
Qed.

Lemma uploadDirectory_keeps sid l r :
  allowed KConsole = true -> allowed KUpload = true ->
  keeps allowed (SSH.uploadDirectory X sid l r).
Proof.
  intros Hc He. unfold SSH.uploadDirectory.
  apply keeps_bind; [apply this_keeps|intros o]. keeps_tac.
Qed.

Lemma fileExists_keeps sid path :
  allowed KConsole = true -> allowed KExec = true ->
  keeps allowed (SSH.fileExists X sid path).
Proof.
  intros Hc He. unfold SSH.fileExists.
  apply keeps_try_catch; [|intros; apply keeps_ret].
  apply keeps_bind; [apply exec_keeps; assumption|intros; apply keeps_ret].
Qed.
End SessionFacts.

Section SessionRuns.
Context {W : Type} (X : Externals W).

(** [exec] on a connected session: one call to the host, and the outcome
    decided by its answer. *)
Lemma exec_run sid cmd cwd (st : State W) o :
  nth_error (sessions st) sid = Some o -> connected o = true ->
  SSH.exec X sid cmd cwd st =
    let cwd' := js_or cwd (deployPath (ssh_config o)) in
    let res := fst (x_execCommand X sid cmd cwd' (world st)) in
    (exec_out res,
     {| world := snd (x_execCommand X sid cmd cwd' (world st));
        sessions := sessions st; ssh_var := ssh_var st |},
     exec_events sid cmd cwd' res).
Proof.
  intros Ho Hc. unfold SSH.exec, SSH.this, bind, try_catch, extern_try, emit, when.
  rewrite Ho, Hc. cbn.
  destruct (x_execCommand X sid cmd _ (world st)) as [[r|e] w']; cbn; [|reflexivity].
  unfold exec_out, exec_events, exec_ok, exec_error. cbn.
  destruct (code r) as [[|p|p]|]; cbn; try reflexivity.
  destruct (String.eqb (stdout r) EmptyString); reflexivity.
Qed.

(** [connect] on an existing session object. *)
Lemma connect_run sid (st : State W) o :
  nth_error (sessions st) sid = Some o ->
  SSH.connect X sid st =
    let start := EvSpinner SpinStart ("连接服务器 " ++ tmpl (host (ssh_config o)) ++ "...") in
    match x_sshConnect X sid (ssh_config o) (world st) with
    | (Ok u, w') =>
        (Ok tt,
         {| world := w';
            sessions :=
              update_nth sid
                (fun o => {| ssh_config := ssh_config o; connected := true |})
                (sessions st);
            ssh_var := ssh_var st |},
         [start; EvSshConnect sid (Ok u);
          EvSpinner SpinSucceed ("已连接到服务器 " ++ tmpl (host (ssh_config o)))])
    | (Throw e, w') =>
        (Throw (Error ("SSH连接失败: " ++ message e)),
         {| world := w'; sessions := sessions st; ssh_var := ssh_var st |},
         [start; EvSshConnect sid (Throw e); EvSpinner SpinFail "服务器连接失败"])
    end.
Proof.
  intros Ho. unfold SSH.connect, SSH.this, bind, try_catch, extern_try, emit,
    SSH.set_connected, throw.
  rewrite Ho. cbn.
  destruct (x_sshConnect X sid (ssh_config o) (world st)) as [[u|e] w']; reflexivity.
Qed.

(** [disconnect] on an existing session object: the connection is closed
    when the object is connected, and only then. *)
Lemma disconnect_run sid (st : State W) o :
  nth_error (sessions st) sid = Some o ->
  SSH.disconnect X sid st =
    if connected o then
      (Ok tt,
       {| world := x_dispose X sid (world st);
          sessions :=
            update_nth sid
              (fun o => {| ssh_config := ssh_config o; connected := false |})
              (sessions st);
          ssh_var := ssh_var st |},
       [EvDisconnect sid; EvDispose sid; EvConsoleLog "SSH连接已断开"])
    else (Ok tt, st, [EvDisconnect sid]).
Proof.
  intros Ho. unfold SSH.disconnect, SSH.this, bind, extern, emit, when,
    SSH.set_connected, ret.
  cbn. rewrite Ho. destruct (connected o); reflexivity.
Qed.
End SessionRuns.

(** ** What each function may leave in the trace *)

Section Footprints.
Context {W : Type} (X : Externals W).
Variable allowed : Kind -> bool.
Hypothesis Hreports : reports_ok allowed.

Lemma execSync_keeps cmd :
  allowed KLocalShell = true -> keeps allowed (Utils.execSync X cmd).
Proof. intros H. unfold Utils.execSync. keeps_tac. Qed.

Lemma validateEnvironment_keeps env :
  allowed KLocalShell = true -> keeps allowed (Utils.validateEnvironment X env).
Proof.
  intros H. pose proof execSync_keeps. unfold Utils.validateEnvironment. keeps_tac.
Qed.

Lemma getCurrentBranch_keeps :
  allowed KLocalShell = true -> keeps allowed (Utils.getCurrentBranch X).
Proof.
  intros H. pose proof execSync_keeps. unfold Utils.getCurrentBranch. keeps_tac.
Qed.

Lemma getGitStatus_keeps :
  allowed KLocalShell = true -> keeps allowed (Utils.getGitStatus X).
Proof.
  intros H. pose proof execSync_keeps. unfold Utils.getGitStatus. keeps_tac.
Qed.

Lemma loadConfig_keeps env :
  allowed KFile = true -> keeps allowed (Config.loadConfig X env).
Proof. intros H. unfold Config.loadConfig. keeps_tac. Qed.

Lemma checkGitStatus_keeps branch force :
  allowed KLocalShell = true -> allowed KPrompt = true ->
  allowed (KSpinner SpinFail "发现未提交的更改") = true ->
  allowed (KSpinner SpinFail "Git状态检查失败") = true ->
  keeps allowed (Deploy.checkGitStatus X branch force).
Proof.
  intros H1 H2 H3 H4.
  pose proof execSync_keeps. pose proof getCurrentBranch_keeps.
  pose proof getGitStatus_keeps.
  unfold Deploy.checkGitStatus. keeps_tac.
Qed.

Lemma confirmDeployment_keeps env branch config :
  allowed KPrompt = true ->
  keeps allowed (Deploy.confirmDeployment X env branch config).
Proof. intros H. unfold Deploy.confirmDeployment. keeps_tac. Qed.

Lemma simulateDeployment_keeps config branch :
  keeps allowed (Deploy.simulateDeployment (W := W) config branch).
Proof. unfold Deploy.simulateDeployment. keeps_tac. Qed.

Lemma buildProject_keeps config :
  allowed KLocalShell = true ->
  allowed (KSpinner SpinFail "项目构建失败") = true ->
  keeps allowed (Deploy.buildProject X config).
Proof.
  intros H1 H2. pose proof execSync_keeps. unfold Deploy.buildProject. keeps_tac.
Qed.

Lemma backupCurrentVersion_keeps ssh config :
  allowed KExec = true ->
  allowed (KSpinner SpinFail "备份失败") = true ->
  keeps allowed (Deploy.backupCurrentVersion X ssh config).
Proof.
  intros H1 H2. pose proof (exec_keeps X allowed).
  unfold Deploy.backupCurrentVersion. keeps_tac.
Qed.

Lemma uploadFiles_stage_keeps ssh config :
  allowed KExec = true -> allowed KUpload = true ->
  allowed (KSpinner SpinFail "文件上传失败") = true ->
  keeps allowed (Deploy.uploadFiles X ssh config).
Proof.
  intros H1 H2 H3. pose proof (exec_keeps X allowed).
  pose proof (uploadDirectory_keeps X allowed).
  pose proof (uploadFiles_keeps X allowed).
  unfold Deploy.uploadFiles. keeps_tac.
Qed.

Lemma installAndBuild_keeps ssh config :
  allowed KExec = true ->
  allowed (KSpinner SpinFail "依赖安装失败") = true ->
  keeps allowed (Deploy.installAndBuild X ssh config).
Proof.
  intros H1 H2. pose proof (exec_keeps X allowed).
  unfold Deploy.installAndBuild. keeps_tac.
Qed.

Lemma restartService_keeps ssh config :
  allowed KExec = true ->
  allowed (KSpinner SpinFail "服务重启失败") = true ->
  keeps allowed (Deploy.restartService X ssh config).
Proof.
  intros H1 H2. pose proof (exec_keeps X allowed).
  unfold Deploy.restartService. keeps_tac.
Qed.

Lemma verifyDeployment_keeps ssh config :
  allowed KExec = true ->
  allowed (KSpinner SpinWarn Deploy.verify_warning) = true ->
  keeps allowed (Deploy.verifyDeployment X ssh config).
Proof.
  intros H1 H2. pose proof (exec_keeps X allowed).
  unfold Deploy.verifyDeployment. keeps_tac.
Qed.
End Footprints.

(** ** Sessions that are not connected *)

(** C10: on a session object whose [connected] flag is false, [exec],
    [uploadFile], [uploadFiles] and [uploadDirectory] each throw the error
    'SSH未连接' (SSH not connected) at once: no event is produced, so the host
    is never called, and the state, the flag included, is unchanged. *)
Theorem unconnected_session_rejects {W} (X : Externals W) (st : State W) sid o
  cmd cwd localPath remotePath fs remoteDir localDir :
  nth_error (sessions st) sid = Some o ->
  connected o = false ->
  SSH.exec X sid cmd cwd st = (Throw (Error "SSH未连接"), st, []) /\
  SSH.uploadFile X sid localPath remotePath st = (Throw (Error "SSH未连接"), st, []) /\
  SSH.uploadFiles X sid fs remoteDir st = (Throw (Error "SSH未连接"), st, []) /\
  SSH.uploadDirectory X sid localDir remoteDir st = (Throw (Error "SSH未连接"), st, []).
Proof.
  intros Ho Hc.
  unfold SSH.exec, SSH.uploadFile, SSH.uploadFiles, SSH.uploadDirectory,
    SSH.this, bind.
  rewrite Ho, Hc. cbn. repeat split; reflexivity.
Qed.

Lemma unconnected_session_rejects_witness :
  SSH.exec (world_of calm) 0 "ls" None idle = (Throw (Error "SSH未连接"), idle, []) /\
  SSH.uploadFile (world_of calm) 0 "a.txt" "/tmp/a.txt" idle
    = (Throw (Error "SSH未连接"), idle, []) /\
  SSH.uploadFiles (world_of calm) 0 (Some []) (Some "/tmp") idle
    = (Throw (Error "SSH未连接"), idle, []) /\
  SSH.uploadDirectory (world_of calm) 0 (Some "dist") (Some "/tmp") idle
    = (Throw (Error "SSH未连接"), idle, []).
Proof.
  apply (unconnected_session_rejects (world_of calm) idle 0
           (o := {| ssh_config := app_config; connected := false |}));
    reflexivity.
Defined.

(** ** Validation comes first *)

Lemma not_valid env :
  ~ In env Utils.validEnvs -> existsb (String.eqb env) Utils.validEnvs = false.
Proof.
  intros H. destruct (existsb (String.eqb env) Utils.validEnvs) eqn:E; [|reflexivity].
  apply existsb_exists in E as (x & Hx & Heq).
  apply String.eqb_eq in Heq. subst. contradiction.
Qed.

(** C9: for an environment name outside development, staging and
    production, [deployProject] throws the validation error from its first
    stage: the trace holds the opening line and the spinner of the validation
    only, so the servers file is never read (no profile lookup), and the state
    is unchanged. *)
Theorem invalid_environment_stops_before_lookup {W} (X : Externals W)
  (options : Deploy.Options) (st : State W) :
  ~ In (Deploy.opt_env options) ["development"; "staging"; "production"] ->
  let env := Deploy.opt_env options in
  Deploy.deployProject X options st =
    (Throw (Error ("无效的环境: " ++ env
                   ++ "。有效环境: development, staging, production")),
     st,
     [EvConsoleLog (nl ++ "🚀 开始部署到 " ++ env ++ " 环境" ++ nl);
      EvSpinner SpinStart "验证部署环境...";
      EvSpinner SpinFail "环境验证失败"]) /\
  forallb (fun e => negb (is_lookup (kind_of e)))
          (events_of (Deploy.deployProject X options st)) = true.
Proof.
  intros Hout env.
  assert (E : Deploy.deployProject X options st =
    (Throw (Error ("无效的环境: " ++ env
                   ++ "。有效环境: development, staging, production")),
     st,
     [EvConsoleLog (nl ++ "🚀 开始部署到 " ++ env ++ " 环境" ++ nl);
      EvSpinner SpinStart "验证部署环境...";
      EvSpinner SpinFail "环境验证失败"])).
  { unfold Deploy.deployProject, Utils.validateEnvironment, bind, try_catch, emit.
    subst env. cbv zeta. rewrite (not_valid Hout). reflexivity. }
  split; [exact E|]. rewrite E. reflexivity.
Qed.

Lemma invalid_environment_stops_before_lookup_witness :
  Deploy.deployProject (world_of calm) prod_options start =
    (Throw (Error "无效的环境: prod。有效环境: development, staging, production"),
     start,
     [EvConsoleLog (nl ++ "🚀 开始部署到 prod 环境" ++ nl);
      EvSpinner SpinStart "验证部署环境...";
      EvSpinner SpinFail "环境验证失败"]).
Proof.
  refine (proj1 (invalid_environment_stops_before_lookup (world_of calm)
                   prod_options start _)).
  cbn. intros [H|[H|[H|[]]]]; discriminate H.
Defined.

(** ** Dry runs *)

Lemma finishes_with_bind {W A B} tail (m : M W A) (f : A -> M W B) :
  (forall a, finishes_with tail (f a)) -> finishes_with tail (bind m f).
Proof.
  intros Hf st. unfold bind.
  destruct (m st) as [[[a|e] st1] ev1]; cbn; [|discriminate].
  specialize (Hf a st1). destruct (f a st1) as [[r st2] ev2]; cbn in *.
  intros Hr. destruct (Hf Hr) as [pre ->].
  exists (ev1 ++ pre)%list. apply app_assoc.
Qed.

(** The simulation always succeeds, touches nothing and reports each of the
    seven stages as completed. *)
Lemma simulateDeployment_run {W} config branch (st : State W) :
  Deploy.simulateDeployment config branch st = (Ok tt, st, simulated_trace).
Proof. reflexivity. Qed.

(** C2: with [dryRun] set, no event of [deployProject] belongs to a remote
    session (none is constructed, connected, sent a command or a transfer)
    and no session object is created; [simulateDeployment] itself always
    returns normally, changes nothing and reports build, connect, backup,
    upload, install, restart and verify, in this order, as completed; and a
    dry run that returns normally ends with exactly this report. *)
Theorem dry_run_is_simulated {W} (X : Externals W) (options : Deploy.Options)
  (st : State W) :
  Deploy.opt_dryRun options = Some true ->
  let o := Deploy.deployProject X options st in
  forallb (fun e => negb (is_remote (kind_of e))) (events_of o) = true /\
  sessions (state_of o) = sessions st /\
  (forall config branch (st' : State W),
      Deploy.simulateDeployment config branch st' =
        (Ok tt, st',
         [EvSpinner SpinStart "模拟: 构建项目..."; EvSetTimeout 1000;
          EvSpinner SpinSucceed "模拟: 构建项目 完成";
          EvSpinner SpinStart "模拟: 连接服务器..."; EvSetTimeout 1000;
          EvSpinner SpinSucceed "模拟: 连接服务器 完成";
          EvSpinner SpinStart "模拟: 备份当前版本..."; EvSetTimeout 1000;
          EvSpinner SpinSucceed "模拟: 备份当前版本 完成";
          EvSpinner SpinStart "模拟: 上传新版本..."; EvSetTimeout 1000;
          EvSpinner SpinSucceed "模拟: 上传新版本 完成";
          EvSpinner SpinStart "模拟: 安装依赖..."; EvSetTimeout 1000;
          EvSpinner SpinSucceed "模拟: 安装依赖 完成";
          EvSpinner SpinStart "模拟: 重启服务..."; EvSetTimeout 1000;
          EvSpinner SpinSucceed "模拟: 重启服务 完成";
          EvSpinner SpinStart "模拟: 验证部署结果..."; EvSetTimeout 1000;
          EvSpinner SpinSucceed "模拟: 验证部署结果 完成";
          EvConsoleLog (nl ++ "✅ 模拟部署完成，所有步骤验证通过")])) /\
  (is_ok (result_of o) = true ->
   exists pre, events_of o = (pre ++ simulated_trace)%list).
Proof.
  intros Hdry o.
  assert (Hk : keeps local_only (Deploy.deployProject X options)).
  { assert (Hr : reports_ok local_only) by (repeat split; reflexivity).
    pose proof (@validateEnvironment_keeps W X local_only).
    pose proof (@loadConfig_keeps W X local_only).
    pose proof (@checkGitStatus_keeps W X local_only Hr).
    pose proof (@confirmDeployment_keeps W X local_only).
    pose proof (@simulateDeployment_keeps W local_only Hr).
    unfold Deploy.deployProject. rewrite Hdry. cbv beta iota zeta.
    keeps_tac. }
  assert (Hf : finishes_with simulated_trace (Deploy.deployProject X options)).
  { unfold Deploy.deployProject. rewrite Hdry. cbv beta iota zeta.
    repeat (apply finishes_with_bind; intros).
    match goal with
    | |- finishes_with _ (match ?c with _ => _ end) => destruct c
    end; [|intros st'; discriminate].
    do 3 (apply finishes_with_bind; intros).
    intros st' _. exists []. reflexivity. }
  destruct (Hk st) as (Hs & _ & Hev).
  split; [exact Hev|]. split; [exact Hs|]. split; [reflexivity|].
  apply Hf.
Qed.

Lemma dry_run_is_simulated_witness :
  let o := Deploy.deployProject (world_of calm) dry_run_options start in
  forallb (fun e => negb (is_remote (kind_of e))) (events_of o) = true /\
  sessions (state_of o) = [] /\
  result_of o = Ok tt.
Proof.
  pose proof (dry_run_is_simulated (world_of calm) dry_run_options start eq_refl)
    as (H1 & H2 & _ & _).
  split; [exact H1 | split; [exact H2 | reflexivity]].
Defined.

(** ** The three ways through [executeDeployment] *)

Lemma update_nth_fresh {A} (f : A -> A) (l : list A) x :
  update_nth (length l) f (l ++ [x]) = (l ++ [f x])%list.
Proof. induction l as [|y l IH]; simpl; [reflexivity|]. rewrite IH. reflexivity. Qed.

Section Execute.
Context {W : Type} (X : Externals W).
Variables (config : ServerConfig) (branch env : string).

Lemma stages_keeps allowed ssh :
  reports_ok allowed ->
  allowed KExec = true -> allowed KUpload = true ->
  allowed (KSpinner SpinFail "备份失败") = true ->
  allowed (KSpinner SpinFail "文件上传失败") = true ->
  allowed (KSpinner SpinFail "依赖安装失败") = true ->
  allowed (KSpinner SpinFail "服务重启失败") = true ->
  allowed (KSpinner SpinWarn Deploy.verify_warning) = true ->
  keeps allowed (stages X ssh config).
Proof.
  intros Hr He Hu H1 H2 H3 H4 H5. unfold stages.
  apply keeps_bind; [apply backupCurrentVersion_keeps; assumption|intros _].
  apply keeps_bind; [apply uploadFiles_stage_keeps; assumption|intros _].
  apply keeps_bind; [apply installAndBuild_keeps; assumption|intros _].
  apply keeps_bind; [apply restartService_keeps; assumption|intros _].
  apply verifyDeployment_keeps; assumption.
Qed.

Lemma reports_any : reports_ok (fun _ => true).
Proof. repeat split. Qed.

(** The build keeps [ssh] undefined and creates no session object. *)
Lemma build_frame (st stb : State W) r evb :
  Deploy.buildProject X config (entering st) = (r, stb, evb) ->
  sessions stb = sessions st /\ ssh_var stb = None.
Proof.
  intros Hb.
  destruct (@buildProject_keeps W X (fun _ => true) reports_any config
              eq_refl eq_refl (entering st)) as (Hs & Hv & _).
  rewrite Hb in Hs, Hv. auto.
Qed.

(** The local build fails: nothing else happens. *)
Lemma execute_build_failed (st stb : State W) e evb :
  Deploy.buildProject X config (entering st) = (Throw e, stb, evb) ->
  Deploy.executeDeployment X config branch env st = (Throw e, stb, evb).
Proof.
  intros Hb. destruct (build_frame _ Hb) as (_ & Hv).
  unfold Deploy.executeDeployment, bind at 1, set_ssh_var, try_finally.
  fold (entering st). unfold bind at 1. rewrite Hb.
  unfold bind, get_ssh_var. rewrite Hv. cbn. rewrite app_nil_r. reflexivity.
Qed.

(** The build succeeds and the connection fails: [disconnect] is entered on
    the session that never connected, and closes nothing. *)
Lemma execute_connect_failed (st stb : State W) evb e w' :
  Deploy.buildProject X config (entering st) = (Ok tt, stb, evb) ->
  x_sshConnect X (length (sessions st)) config (world stb) = (Throw e, w') ->
  let sid := length (sessions st) in
  Deploy.executeDeployment X config branch env st =
    (Throw (Error ("SSH连接失败: " ++ message e)),
     {| world := w';
        sessions := (sessions st ++ [fresh_session config])%list;
        ssh_var := Some sid |},
     (evb ++ connect_events sid config (Throw e) ++ [EvDisconnect sid])%list).
Proof.
  intros Hb Hc sid. destruct (build_frame _ Hb) as (Hs & Hv).
  unfold Deploy.executeDeployment, bind at 1, set_ssh_var, try_finally.
  fold (entering st). unfold bind at 1. rewrite Hb.
  unfold bind at 1, SSH.new. rewrite Hs.
  unfold bind at 1, set_ssh_var. cbn [sessions world ssh_var].
  unfold bind at 1. fold sid.
  erewrite connect_run by (cbn [sessions]; apply nth_error_fresh).
  cbn [ssh_config fresh_session world sessions ssh_var]. fold sid in Hc.
  change (ssh_config {| ssh_config := config; connected := false |}) with config.
  rewrite Hc. unfold bind at 1, get_ssh_var. cbn [ssh_var].
  erewrite disconnect_run by (cbn [sessions]; apply nth_error_fresh).
  cbn. rewrite <- !app_assoc. reflexivity.
Qed.

(** The build and the connection succeed: whatever the stages inside the
    session do, [disconnect] then closes the connection. *)
Lemma execute_connected (st stb st3 : State W) evb u w' r evr :
  Deploy.buildProject X config (entering st) = (Ok tt, stb, evb) ->
  x_sshConnect X (length (sessions st)) config (world stb) = (Ok u, w') ->
  let sid := length (sessions st) in
  stages X sid config
    {| world := w';
       sessions := (sessions st ++ [open_session config])%list;
       ssh_var := Some sid |} = (r, st3, evr) ->
  Deploy.executeDeployment X config branch env st =
    (r,
     {| world := x_dispose X sid (world st3);
        sessions := (sessions st ++ [fresh_session config])%list;
        ssh_var := Some sid |},
     (evb ++ connect_events sid config (Ok u) ++ evr ++ release_events sid)%list).
Proof.
  intros Hb Hc sid Hr. subst sid. destruct (build_frame _ Hb) as (Hs & Hv).
  assert (Hk : sessions st3 = (sessions st ++ [open_session config])%list /\
               ssh_var st3 = Some (length (sessions st))).
  { destruct (@stages_keeps (fun _ => true) (length (sessions st)) reports_any eq_refl eq_refl
                eq_refl eq_refl eq_refl eq_refl eq_refl
                {| world := w';
                   sessions := (sessions st ++ [open_session config])%list;
                   ssh_var := Some (length (sessions st)) |}) as (H1 & H2 & _).
    rewrite Hr in H1, H2. auto. }
  destruct Hk as (Hs3 & Hv3).
  unfold Deploy.executeDeployment, bind at 1, set_ssh_var, try_finally.
  fold (entering st). unfold bind at 1. rewrite Hb.
  unfold bind at 1, SSH.new. rewrite Hs.
  unfold bind at 1, set_ssh_var. cbn [sessions world ssh_var].
  unfold bind at 1.
  erewrite connect_run by (cbn [sessions]; apply nth_error_fresh).
  cbn [ssh_config world sessions ssh_var].
  rewrite Hc. rewrite update_nth_fresh. cbn [ssh_config].
  fold (open_session config). fold (stages X (length (sessions st)) config).
  rewrite Hr.
  unfold bind at 1, get_ssh_var. rewrite Hv3.
  erewrite disconnect_run by (rewrite Hs3; apply nth_error_fresh).
  cbn [connected open_session]. rewrite Hs3, update_nth_fresh, Hv3.
  cbn. rewrite <- !app_assoc. reflexivity.
Qed.
End Execute.

(** ** The session is released exactly once *)

Lemma lifecycle_free_disconnect sid evs :
  forallb (fun e => no_lifecycle (kind_of e)) evs = true ->
  count (is_disconnect sid) evs = 0 /\ count (is_dispose sid) evs = 0.
Proof.
  intros H. split; apply count_none; revert H; apply forallb_weaken;
    intros [] He; cbn in *; congruence.
Qed.

Lemma lifecycle_free_connect sid r evs :
  forallb (fun e => no_lifecycle (kind_of e)) evs = true ->
  ~ In (EvSshConnect sid r) evs.
Proof.
  intros H Hin. apply (forallb_In _ _ _ H) in Hin. discriminate.
Qed.

Lemma reports_no_lifecycle : reports_ok no_lifecycle.
Proof. repeat split. Qed.

(** C1: in every run of [executeDeployment] in which the connection of a
    session succeeded, whatever the run returns (normally, or with the error
    of any later stage), [disconnect] is entered exactly once on that
    session, its connection is closed exactly once, this is the last thing
    the run does, and the session object is left disconnected. *)
Theorem session_released_exactly_once {W} (X : Externals W)
  (config : ServerConfig) (branch env : string) (st : State W) (sid : nat) :
  let o := Deploy.executeDeployment X config branch env st in
  In (EvSshConnect sid (Ok tt)) (events_of o) ->
  count (is_disconnect sid) (events_of o) = 1 /\
  count (is_dispose sid) (events_of o) = 1 /\
  (exists pre, events_of o = (pre ++ release_events sid)%list) /\
  nth_error (sessions (state_of o)) sid = Some (fresh_session config).
Proof.
  intros o Hin. subst o.
  destruct (Deploy.buildProject X config (entering st)) as [[[[]|e] stb] evb] eqn:Hb.
  - pose proof (@buildProject_keeps W X no_lifecycle reports_no_lifecycle config
                  eq_refl eq_refl (entering st)) as (_ & _ & Hevb).
    rewrite Hb in Hevb. cbn in Hevb.
    destruct (x_sshConnect X (length (sessions st)) config (world stb))
      as [[u|e] w'] eqn:Hc.
    + destruct (stages X (length (sessions st)) config
                  {| world := w';
                     sessions := (sessions st ++ [open_session config])%list;
                     ssh_var := Some (length (sessions st)) |})
        as [[r st3] evr] eqn:Hr.
      pose proof (@stages_keeps W X config no_lifecycle (length (sessions st))
                    reports_no_lifecycle eq_refl eq_refl eq_refl eq_refl eq_refl
                    eq_refl eq_refl
                    {| world := w';
                       sessions := (sessions st ++ [open_session config])%list;
                       ssh_var := Some (length (sessions st)) |}) as (_ & _ & Hevr).
      rewrite Hr in Hevr. cbn in Hevr.
      rewrite (execute_connected X config branch env st Hb Hc Hr) in *.
      cbn [events_of state_of snd fst sessions] in *.
      assert (Hsid : sid = length (sessions st)).
      { rewrite !in_app_iff in Hin. destruct Hin as [Hin|[Hin|[Hin|Hin]]].
        - exfalso. exact (lifecycle_free_connect _ _ _ Hevb Hin).
        - cbn in Hin. destruct Hin as [Hin|[Hin|[Hin|[Hin|[]]]]];
            try discriminate Hin. congruence.
        - exfalso. exact (lifecycle_free_connect _ _ _ Hevr Hin).
        - cbn in Hin. destruct Hin as [Hin|[Hin|[Hin|[]]]]; discriminate Hin. }
      subst sid.
      destruct (lifecycle_free_disconnect (length (sessions st)) _ Hevb) as (B1 & B2).
      destruct (lifecycle_free_disconnect (length (sessions st)) _ Hevr) as (R1 & R2).
      rewrite !count_app, B1, B2, R1, R2.
      unfold count. cbn. rewrite Nat.eqb_refl. cbn.
      repeat split.
      * exists (evb ++ connect_events (length (sessions st)) config (Ok u) ++ evr)%list.
        rewrite <- !app_assoc. reflexivity.
      * apply nth_error_fresh.
    + exfalso.
      rewrite (execute_connect_failed X config branch env st Hb Hc) in Hin.
      cbn [events_of snd] in Hin.
      rewrite !in_app_iff in Hin. destruct Hin as [Hin|[Hin|Hin]].
      * exact (lifecycle_free_connect _ _ _ Hevb Hin).
      * cbn in Hin. destruct Hin as [Hin|[Hin|[Hin|[Hin|[]]]]]; discriminate Hin.
      * cbn in Hin. destruct Hin as [Hin|[]]; discriminate Hin.
  - exfalso.
    pose proof (@buildProject_keeps W X no_lifecycle reports_no_lifecycle config
                  eq_refl eq_refl (entering st)) as (_ & _ & Hevb).
    rewrite Hb in Hevb. cbn in Hevb.
    rewrite (execute_build_failed X config branch env st Hb) in Hin.
    exact (lifecycle_free_connect _ _ _ Hevb Hin).
Qed.

Lemma session_released_exactly_once_witness :
  let o := Deploy.executeDeployment (world_of backup_breaks) app_config
             "main" "staging" start in
  is_ok (result_of o) = false /\
  count (is_disconnect 0) (events_of o) = 1 /\
  count (is_dispose 0) (events_of o) = 1.
Proof.
  assert (Hin : In (EvSshConnect 0 (Ok tt))
                   (events_of (Deploy.executeDeployment (world_of backup_breaks)
                                 app_config "main" "staging" start))).
  { vm_compute. do 5 right. left. reflexivity. }
  pose proof (session_released_exactly_once (world_of backup_breaks) app_config
                "main" "staging" start 0 Hin) as (H1 & H2 & _).
  split; [reflexivity | split; [exact H1 | exact H2]].
Defined.

(** ** Backup before upload *)

(** Running a computation one construct at a time; calls into the session
    class stay folded. *)
Ltac run :=
  cbv beta iota zeta delta
    [bind emit try_catch try_finally consult throw ret when lift extern extern_try
     sleep];
  cbn [fst snd result_of state_of events_of world sessions ssh_var].

Lemma exec_out_ok r : exec_ok r = true -> exists s, exec_out r = Ok s.
Proof.
  intros E. unfold exec_out. destruct r; [rewrite E; eauto | discriminate].
Qed.

Lemma exec_out_failed r : exec_ok r = false -> exec_out r = Throw (exec_error r).
Proof.
  intros E. unfold exec_out. destruct r; [rewrite E|]; reflexivity.
Qed.

Lemma execs_exec_events sid cmd cwd r tl :
  execs (exec_events sid cmd cwd r ++ tl) = (cmd, r) :: execs tl.
Proof.
  unfold exec_events. cbn. destruct r; [|reflexivity].
  destruct (exec_ok (Ok a) && negb (String.eqb (stdout a) EmptyString)); reflexivity.
Qed.

Section Backup.
Context {W : Type} (X : Externals W).
Variable config : ServerConfig.

(** The backup on a connected session: it sends the mkdir, then the copy
    when the mkdir succeeded, nothing else, and succeeds exactly when both
    did. *)
Lemma backup_spec (st : State W) sid o :
  nth_error (sessions st) sid = Some o -> connected o = true ->
  let out := Deploy.backupCurrentVersion X sid config st in
  (exists r1,
      execs (events_of out) = [(Deploy.backup_mkdir config, r1)] /\
      exec_ok r1 = false /\ is_ok (result_of out) = false) \/
  (exists now r1 r2,
      execs (events_of out) =
        [(Deploy.backup_mkdir config, r1);
         (Deploy.backup_cp config (backup_path config now), r2)] /\
      exec_ok r1 = true /\ is_ok (result_of out) = exec_ok r2).
Proof.
  intros Ho Hc out. subst out.
  unfold Deploy.backupCurrentVersion. run.
  destruct (x_toISOString X (world st)) as [now w0]. run.
  erewrite exec_run by (cbn; eassumption). run.
  destruct (x_execCommand X sid (Deploy.backup_mkdir config) _ w0) as [r1 w1]. run.
  destruct (exec_ok r1) eqn:E1.
  - right. exists now, r1.
    destruct (exec_out_ok _ E1) as [s ->]. run.
    erewrite exec_run by (cbn; eassumption). run.
    destruct (x_execCommand X sid _ _ w1) as [r2 w2]. run.
    exists r2.
    destruct (exec_ok r2) eqn:E2.
    + destruct (exec_out_ok _ E2) as [s2 ->]. run.
      cbn [app execs]. rewrite !execs_exec_events. cbn [execs]. auto.
    + rewrite (exec_out_failed _ E2). run.
      cbn [app execs]. rewrite <- ?app_assoc. rewrite !execs_exec_events.
      cbn [app execs]. auto.
  - left. exists r1. rewrite (exec_out_failed _ E1). run.
    cbn [app execs]. rewrite <- ?app_assoc. rewrite !execs_exec_events.
    cbn [app execs]. auto.
Qed.
End Backup.

Lemma bind_run {W A B} (m : M W A) (f : A -> M W B) (st : State W) :
  bind m f st =
    match m st with
    | (Ok a, st1, ev1) =>
        match f a st1 with
        | (r, st2, ev2) => (r, st2, (ev1 ++ ev2)%list)
        end
    | (Throw e, st1, ev1) => (Throw e, st1, ev1)
    end.
Proof. reflexivity. Qed.

Lemma reports_no_command : reports_ok no_command.
Proof. repeat split. Qed.

Lemma reports_no_upload : reports_ok (fun k => negb (is_upload k)).
Proof. repeat split. Qed.

Lemma no_command_no_upload evs :
  forallb (fun e => no_command (kind_of e)) evs = true ->
  forallb (fun e => negb (is_upload (kind_of e))) evs = true.
Proof.
  apply forallb_weaken. intros e. destruct (kind_of e); cbn; congruence.
Qed.

Lemma upload_not_in evs pre ev post :
  forallb (fun e => negb (is_upload (kind_of e))) evs = true ->
  evs = (pre ++ ev :: post)%list -> is_upload (kind_of ev) = true -> False.
Proof.
  intros H -> Hup.
  assert (Hin : In ev (pre ++ ev :: post)) by (apply in_elt).
  apply (forallb_In _ _ _ H) in Hin. rewrite Hup in Hin. discriminate.
Qed.

(** C3: in every run of [executeDeployment], (1) whatever precedes an upload
    (uploadDirectory or uploadFiles) in the trace starts, among its remote
    commands, with the mkdir of [backupPath] and the copy of [deployPath] into
    the stamped backup path, both answered with exit status 0; (2) when one
    of the first two remote commands of the run does not succeed, the run
    fails and its trace holds no upload; (3) the first remote command of a
    run is that mkdir and (4) the second is that copy. *)
Theorem backup_gates_upload {W} (X : Externals W)
  (config : ServerConfig) (branch env : string) (st : State W) :
  let o := Deploy.executeDeployment X config branch env st in
  (forall pre ev post,
      events_of o = (pre ++ ev :: post)%list ->
      is_upload (kind_of ev) = true -> backup_done config pre) /\
  (forall i cmd res,
      i < 2 -> nth_error (execs (events_of o)) i = Some (cmd, res) ->
      exec_ok res = false ->
      is_ok (result_of o) = false /\
      forallb (fun e => negb (is_upload (kind_of e))) (events_of o) = true) /\
  (forall cmd res,
      nth_error (execs (events_of o)) 0 = Some (cmd, res) ->
      cmd = Deploy.backup_mkdir config) /\
  (forall cmd res,
      nth_error (execs (events_of o)) 1 = Some (cmd, res) ->
      exists now, cmd = Deploy.backup_cp config (backup_path config now)).
Proof.
  intros o. subst o.
  destruct (Deploy.buildProject X config (entering st)) as [[[[]|e] stb] evb] eqn:Hb;
    pose proof (@buildProject_keeps W X no_command reports_no_command config
                  eq_refl eq_refl (entering st)) as (_ & _ & Hevb);
    rewrite Hb in Hevb; cbn [events_of snd] in Hevb;
    pose proof (execs_none _ Hevb) as Xb;
    pose proof (no_command_no_upload _ Hevb) as Ub.
  2:{ rewrite (execute_build_failed X config branch env st Hb).
      cbn [events_of result_of fst snd]. rewrite Xb.
      repeat split; try (intros; exfalso; eauto using upload_not_in; fail);
        intros; try (destruct i; discriminate); discriminate. }
  destruct (x_sshConnect X (length (sessions st)) config (world stb))
    as [[u|e] w'] eqn:Hc.
  2:{ rewrite (execute_connect_failed X config branch env st Hb Hc).
      cbn [events_of result_of fst snd].
      assert (Uall : forallb (fun e => negb (is_upload (kind_of e)))
                       (evb ++ connect_events (length (sessions st)) config (Throw e)
                            ++ [EvDisconnect (length (sessions st))]) = true).
      { rewrite forallb_app, Ub. reflexivity. }
      rewrite !execs_app, Xb. cbn [app execs connect_events].
      repeat split; try (intros; exfalso; eauto using upload_not_in; fail);
        intros; try (destruct i; discriminate); discriminate. }
  set (sid := length (sessions st)) in *.
  set (st2 := {| world := w';
                 sessions := (sessions st ++ [open_session config])%list;
                 ssh_var := Some sid |}).
  assert (Ho : nth_error (sessions st2) sid = Some (open_session config))
    by (apply nth_error_fresh).
  destruct (stages X sid config st2) as [[r st3] evr] eqn:Hr.
  rewrite (execute_connected X config branch env st Hb Hc Hr).
  cbn [events_of result_of fst snd]. fold sid.
  unfold stages in Hr. rewrite bind_run in Hr.
  pose proof (backup_spec X config st2 sid Ho eq_refl) as Hspec.
  pose proof (@backupCurrentVersion_keeps W X (fun k => negb (is_upload k))
                reports_no_upload sid config eq_refl eq_refl st2) as (_ & _ & Uk).
  cbv zeta in Hspec.
  destruct (Deploy.backupCurrentVersion X sid config st2) as [[[[]|e] stk] evk].
  - (* the backup succeeded *)
    cbn [events_of result_of fst snd is_ok] in Hspec, Uk.
    destruct Hspec as [(r1 & _ & _ & Hbad)|(now & r1 & r2 & Hx & E1 & E2)];
      [discriminate|]. symmetry in E2.
    match type of Hr with
    | match ?rest with _ => _ end = _ => destruct rest as [[r' st'] ev2]
    end.
    injection Hr as <- <- <-.
    assert (Hexecs : execs (evb ++ connect_events sid config (Ok u)
                                ++ (evk ++ ev2) ++ release_events sid) =
                     (Deploy.backup_mkdir config, r1)
                     :: (Deploy.backup_cp config (backup_path config now), r2)
                     :: execs ev2).
    { rewrite !execs_app, Xb, Hx. cbn [app execs connect_events release_events].
      rewrite app_nil_r. reflexivity. }
    rewrite Hexecs. repeat split.
    + intros pre ev post Heq Hup.
      assert (Heq' : ((evb ++ connect_events sid config (Ok u) ++ evk)
                        ++ (ev2 ++ release_events sid))%list
                     = (pre ++ ev :: post)%list).
      { rewrite <- Heq. rewrite <- !app_assoc. reflexivity. }
      apply split_after with (p := fun e => negb (is_upload (kind_of e))) in Heq'.
      * destruct Heq' as (pre' & -> & _).
        exists now, r1, r2, (execs pre'). split; [|auto].
        rewrite !execs_app, Xb, Hx. reflexivity.
      * rewrite !forallb_app, Ub, Uk. reflexivity.
      * rewrite Hup. reflexivity.
    + destruct i as [|[|i]]; cbn in H0; try lia; injection H0 as <- <-; congruence.
    + destruct i as [|[|i]]; cbn in H0; try lia; injection H0 as <- <-; congruence.
    + intros cmd res [= <- <-]. reflexivity.
    + intros cmd res [= <- <-]. exists now. reflexivity.
  - (* the backup failed *)
    cbn [events_of result_of fst snd is_ok] in Hspec, Uk.
    injection Hr as <- <- <-.
    assert (Uall : forallb (fun e => negb (is_upload (kind_of e)))
                     (evb ++ connect_events sid config (Ok u)
                          ++ evk ++ release_events sid) = true).
    { rewrite !forallb_app, Ub, Uk. reflexivity. }
    assert (Hexecs : execs (evb ++ connect_events sid config (Ok u)
                                ++ evk ++ release_events sid) = execs evk).
    { rewrite !execs_app, Xb. cbn [app execs connect_events release_events].
      rewrite app_nil_r. reflexivity. }
    rewrite Hexecs. repeat split; try assumption;
      try (intros; exfalso; eauto using upload_not_in; fail).
    + intros cmd res.
      destruct Hspec as [(r1 & -> & _)|(now & r1 & r2 & -> & _)];
        intros [= <- <-]; reflexivity.
    + intros cmd res.
      destruct Hspec as [(r1 & -> & _)|(now & r1 & r2 & -> & _)];
        intros [= <- <-]. exists now. reflexivity.
Qed.

Lemma backup_gates_upload_witness :
  (let o := Deploy.executeDeployment (world_of backup_breaks) app_config
              "main" "staging" start in
   nth_error (execs (events_of o)) 1 =
     Some ("cp -r /var/www/app /var/backups/deploy/backup-2024-05-01T10-20-30-456Z",
           exit_with 1 "denied") /\
   is_ok (result_of o) = false /\
   forallb (fun e => negb (is_upload (kind_of e))) (events_of o) = true) /\
  (let o := Deploy.executeDeployment (world_of calm) app_config
              "main" "staging" start in
   nth_error (events_of o) 16 =
     Some (EvPutDirectory 0 (Some "dist") (Some "/var/www/app") (Ok tt)) /\
   backup_done app_config (firstn 16 (events_of o))).
Proof.
  split.
  - destruct (backup_gates_upload (world_of backup_breaks) app_config
                "main" "staging" start) as (_ & H2 & _).
    split; [reflexivity|].
    apply (H2 1 "cp -r /var/www/app /var/backups/deploy/backup-2024-05-01T10-20-30-456Z"
              (exit_with 1 "denied")); [lia | reflexivity | reflexivity].
  - destruct (backup_gates_upload (world_of calm) app_config
                "main" "staging" start) as (H1 & _).
    split; [reflexivity|].
    apply (H1 _ (EvPutDirectory 0 (Some "dist") (Some "/var/www/app") (Ok tt))
              (skipn 17 (events_of (Deploy.executeDeployment (world_of calm)
                                      app_config "main" "staging" start))));
      reflexivity.
Defined.

(** ** What a spinner call in the trace tells *)

Lemma no_spinner_not_in k t evs :
  forallb (fun e => no_spinner k t (kind_of e)) evs = true ->
  ~ In (EvSpinner k t) evs.
Proof.
  intros H Hin. apply (forallb_In _ _ _ H) in Hin. cbn in Hin.
  rewrite String.eqb_refl in Hin. destruct k; discriminate.
Qed.

Section Marks.
Context {W : Type}.
Variables (k : SpinKind) (t : string).
Variable pre : State W -> Prop.
Hypothesis Hpre : on_sessions pre.

Lemma marks_none {A} (R : JsResult A -> Prop) (m : M W A) :
  keeps (no_spinner k t) m -> marks pre (EvSpinner k t) R m.
Proof.
  intros Hk st _ Hin. destruct (Hk st) as (_ & _ & Hev).
  exfalso. exact (no_spinner_not_in _ _ _ Hev Hin).
Qed.

(** The mark is not of [m]: it tells about the rest. *)
Lemma marks_bind_skip {A B} (R : JsResult B -> Prop) (m : M W A) (f : A -> M W B) :
  keeps (no_spinner k t) m ->
  (forall a, marks pre (EvSpinner k t) R (f a)) ->
  marks pre (EvSpinner k t) R (bind m f).
Proof.
  intros Hk Hf st Hst. destruct (Hk st) as (Hs & _ & Hev).
  rewrite bind_run. destruct (m st) as [[[a|e] st1] ev1]; cbn in Hs, Hev |- *.
  - assert (Hst1 : pre st1) by (unfold on_sessions in Hpre; eauto).
    specialize (Hf a st1 Hst1).
    destruct (f a st1) as [[r st2] ev2]; cbn in *.
    intros Hin. apply in_app_or in Hin as [Hin|Hin]; [|auto].
    exfalso. exact (no_spinner_not_in _ _ _ Hev Hin).
  - intros Hin. exfalso. exact (no_spinner_not_in _ _ _ Hev Hin).
Qed.

(** The mark is of [m]: the rest cannot produce it, and has to carry what it
    tells to the end. *)
Lemma marks_bind_here {A B} (R : JsResult A -> Prop) (R' : JsResult B -> Prop)
  (m : M W A) (f : A -> M W B) :
  marks pre (EvSpinner k t) R m ->
  (forall a, keeps (no_spinner k t) (f a)) ->
  (forall a st, R (Ok a) -> R' (result_of (f a st))) ->
  (forall e, R (Throw e) -> R' (Throw e)) ->
  marks pre (EvSpinner k t) R' (bind m f).
Proof.
  intros Hm Hk Hok Hthrow st Hst. specialize (Hm st Hst).
  rewrite bind_run. destruct (m st) as [[[a|e] st1] ev1]; cbn in Hm |- *.
  - specialize (Hk a st1). specialize (Hok a st1).
    destruct (f a st1) as [[r st2] ev2]; cbn in *.
    destruct Hk as (_ & _ & Hev).
    intros Hin. apply in_app_or in Hin as [Hin|Hin]; [auto|].
    exfalso. exact (no_spinner_not_in _ _ _ Hev Hin).
  - auto.
Qed.

End Marks.

(** ** The install and verify stages *)

(** [exec] on the connected session [sid]: ask the host, then split on
    whether the command succeeded. *)
Ltac exec_case Ho r E :=
  erewrite exec_run by (cbn [sessions]; first [exact Ho | eassumption | reflexivity]);
  run;
  match goal with
  | |- context [x_execCommand ?X ?sid ?cmd ?cwd ?w] =>
      let w' := fresh "w" in
      destruct (x_execCommand X sid cmd cwd w) as [r w']
  end;
  run;
  destruct (exec_ok r) eqn:E;
  [ let s := fresh "s" in destruct (exec_out_ok _ E) as [s ->]
  | rewrite (exec_out_failed _ E) ];
  run.

(** Reading the remote commands and the spinner calls off a trace built
    from [exec] calls. *)
Ltac read_trace :=
  cbn [app]; rewrite <- ?app_assoc; cbn [app];
  unfold all_ok; cbn [execs]; rewrite ?execs_exec_events; cbn [app execs];
  rewrite ?execs_exec_events; cbn [app execs forallb snd map fst].

Section Install.
Context {W : Type} (X : Externals W).
Variables (config : ServerConfig) (sid : nat).

(** The install stage on a connected session: its remote commands are an
    initial part of [install_commands], all of them when it succeeds; it
    succeeds exactly when they all succeed, and fails with the error of the
    command that did not. *)
Lemma install_spec (st : State W) o :
  nth_error (sessions st) sid = Some o -> connected o = true ->
  let out := Deploy.installAndBuild X sid config st in
  is_ok (result_of out) = all_ok (events_of out) /\
  (exists n, map fst (execs (events_of out)) = firstn n (install_commands config)) /\
  (is_ok (result_of out) = true ->
   map fst (execs (events_of out)) = install_commands config) /\
  (is_ok (result_of out) = false -> remote_failure (result_of out)).
Proof.
  intros Ho Hc out. subst out.
  unfold Deploy.installAndBuild, install_commands. run.
  exec_case Ho r0 E0.
  2:{ read_trace. rewrite E0. repeat split; try discriminate.
      - exists 1. reflexivity.
      - intros _. exists r0. auto. }
  destruct (truthy (installCommand config)) eqn:Ti; run.
  - exec_case Ho r1 E1.
    2:{ read_trace. rewrite E0, E1. repeat split; try discriminate.
        - exists 2. destruct (truthy (buildCommandRemote config)); reflexivity.
        - intros _. exists r1. auto. }
    destruct (truthy (buildCommandRemote config)) eqn:Tb; run.
    + exec_case Ho r2 E2.
      2:{ read_trace. rewrite E0, E1, E2. repeat split; try discriminate.
          - exists 3. reflexivity.
          - intros _. exists r2. auto. }
      read_trace. rewrite E0, E1, E2. repeat split; try discriminate.
      exists 3. reflexivity.
    + read_trace. rewrite E0, E1. repeat split; try discriminate.
      exists 2. reflexivity.
  - destruct (truthy (buildCommandRemote config)) eqn:Tb; run.
    + exec_case Ho r2 E2.
      2:{ read_trace. rewrite E0, E2. repeat split; try discriminate.
          - exists 2. reflexivity.
          - intros _. exists r2. auto. }
      read_trace. rewrite E0, E2. repeat split; try discriminate.
      exists 2. reflexivity.
    + read_trace. rewrite E0. repeat split; try discriminate.
      exists 1. reflexivity.
Qed.
End Install.

Section Verify.
Context {W : Type} (X : Externals W).
Variables (config : ServerConfig) (sid : nat).

(** The verification never throws. *)
Lemma verify_total (st : State W) :
  result_of (Deploy.verifyDeployment X sid config st) = Ok tt.
Proof.
  unfold Deploy.verifyDeployment. run.
  destruct (truthy (verifyCommand config)); run; [|reflexivity].
  destruct (SSH.exec X sid (tmpl (verifyCommand config)) None st)
    as [[[s|e] st'] ev]; reflexivity.
Qed.

(** A verify command that does not succeed is reported as a warning, with
    the error, and the stage returns normally. *)
Lemma verify_warns (st : State W) o :
  nth_error (sessions st) sid = Some o -> connected o = true ->
  truthy (verifyCommand config) = true ->
  let cmd := tmpl (verifyCommand config) in
  let cwd := js_or None (deployPath (ssh_config o)) in
  let res := fst (x_execCommand X sid cmd cwd (world st)) in
  exec_ok res = false ->
  Deploy.verifyDeployment X sid config st =
    (Ok tt,
     {| world := snd (x_execCommand X sid cmd cwd (world st));
        sessions := sessions st; ssh_var := ssh_var st |},
     [EvSpinner SpinStart "验证部署结果...";
      EvConsoleLog ("执行命令: " ++ cmd);
      EvExecCommand sid cmd cwd res;
      EvSpinner SpinWarn "部署验证失败，但部署可能已完成";
      EvConsoleLog ("验证错误: " ++ message (exec_error res))]).
Proof.
  intros Ho Hc Hv cmd cwd res Hres. subst cmd cwd res.
  unfold Deploy.verifyDeployment. run. rewrite Hv. run.
  erewrite exec_run by eassumption. run.
  destruct (x_execCommand X sid _ _ (world st)) as [r w']. cbn [fst snd] in *.
  rewrite (exec_out_failed _ Hres). run.
  unfold exec_events. destruct r as [a|e]; cbn [app]; [|reflexivity].
  rewrite Hres. reflexivity.
Qed.
End Verify.

(** ** Failure reports through the pipeline *)

(** A stage of the form
    [spinner.start; try { m } catch (e) { spinner.fail(t); throw e }]
    shows [t] exactly when it fails. *)
Lemma guarded_iff {W A} (m : M W A) (start t : string) (st : State W) :
  keeps (no_spinner SpinFail t) m ->
  let stage :=
    emit (EvSpinner SpinStart start) ;;
    try_catch m (fun error => emit (EvSpinner SpinFail t) ;; throw error) in
  In (EvSpinner SpinFail t) (events_of (stage st)) <->
  is_ok (result_of (stage st)) = false.
Proof.
  intros Hk stage. subst stage. destruct (Hk st) as (_ & _ & Hev).
  run. destruct (m st) as [[[a|e] st1] ev1]; cbn [events_of snd] in Hev; run.
  - split; [|discriminate]. cbn [app]. intros [Hin|Hin]; [discriminate|].
    exfalso. exact (no_spinner_not_in _ _ _ Hev Hin).
  - split; [reflexivity|]. intros _. cbn [app]. right.
    apply in_or_app. right. left. reflexivity.
Qed.

Section Pipeline.
Context {W : Type} (X : Externals W).
Variables (k : SpinKind) (t : string).
Hypothesis Hreports : reports_ok (no_spinner k t).
Hypothesis Hfails : forall t', t' <> t -> no_spinner k t (KSpinner SpinFail t') = true.

Lemma pre_true : on_sessions (fun _ : State W => True).
Proof. intros st st' _ _. exact I. Qed.

Lemma session_open_on_sessions sid config :
  on_sessions (session_open (W := W) sid config).
Proof. intros st st' Hs H. unfold session_open in *. rewrite Hs. exact H. Qed.

(** From the stages inside the session to [executeDeployment]. *)
Lemma execute_marks (R : JsResult unit -> Prop) config branch env :
  "项目构建失败" <> t -> "服务器连接失败" <> t ->
  (forall sid, marks (session_open sid config) (EvSpinner k t) R (stages X sid config)) ->
  marks (fun _ => True) (EvSpinner k t) R (Deploy.executeDeployment X config branch env).
Proof.
  intros N1 N2 Hstages st _ Hin.
  assert (Hconn : forall sid res,
             ~ In (EvSpinner k t) (connect_events sid config res)).
  { intros sid res Hc. apply (no_spinner_not_in k t (connect_events sid config res)); [|exact Hc].
    destruct Hreports as (_ & _ & Hs & _ & Hsu).
    unfold connect_events. cbn [forallb kind_of]. rewrite Hs.
    destruct res; cbn [kind_of]; rewrite ?Hsu, ?(Hfails N2); reflexivity. }
  destruct (Deploy.buildProject X config (entering st)) as [[[[]|e] stb] evb] eqn:Hb;
    pose proof (@buildProject_keeps W X (no_spinner k t) Hreports config
                  eq_refl (Hfails N1) (entering st)) as (_ & _ & Hevb);
    rewrite Hb in Hevb; cbn [events_of snd] in Hevb;
    pose proof (no_spinner_not_in _ _ _ Hevb) as Nb.
  2:{ rewrite (execute_build_failed X config branch env st Hb) in Hin.
      contradiction. }
  destruct (x_sshConnect X (length (sessions st)) config (world stb))
    as [[u|e] w'] eqn:Hc.
  2:{ rewrite (execute_connect_failed X config branch env st Hb Hc) in Hin.
      cbn [events_of snd] in Hin. rewrite !in_app_iff in Hin.
      destruct Hin as [Hin|[Hin|Hin]]; [contradiction| |].
      - exfalso. exact (Hconn _ _ Hin).
      - destruct Hin as [Hin|[]]. discriminate. }
  destruct (stages X (length (sessions st)) config
              {| world := w';
                 sessions := (sessions st ++ [open_session config])%list;
                 ssh_var := Some (length (sessions st)) |})
    as [[r st3] evr] eqn:Hr.
  rewrite (execute_connected X config branch env st Hb Hc Hr) in *.
  cbn [events_of result_of fst snd] in *.
  assert (Hopen : session_open (length (sessions st)) config
                    {| world := w';
                       sessions := (sessions st ++ [open_session config])%list;
                       ssh_var := Some (length (sessions st)) |})
    by (unfold session_open; cbn [sessions]; apply nth_error_fresh).
  specialize (Hstages (length (sessions st)) _ Hopen).
  rewrite Hr in Hstages. cbn [events_of result_of fst snd] in Hstages.
  rewrite !in_app_iff in Hin.
  destruct Hin as [Hin|[Hin|[Hin|Hin]]]; [contradiction| |auto|].
  - exfalso. exact (Hconn _ _ Hin).
  - cbn in Hin. destruct Hin as [Hin|[Hin|[Hin|[]]]]; discriminate.
Qed.

(** The lines [deployProject] prints after [executeDeployment]: they always
    return normally. *)
Lemma closing_lines_total (config : ServerConfig) (env branch : string) (st : State W) :
  result_of
    ((emit (EvConsoleLog (nl ++ "🎉 部署完成！" ++ nl)) ;;
      emit (EvConsoleLog "📝 部署信息:") ;;
      emit (EvConsoleLog ("  环境: " ++ env)) ;;
      emit (EvConsoleLog ("  分支: " ++ branch)) ;;
      now <- consult (x_toLocaleString X) ;;
      emit (EvConsoleLog ("  时间: " ++ now)) ;;
      when (truthy (url config))
        (emit (EvConsoleLog (nl ++ "🌐 访问地址: " ++ tmpl (url config))))) st)
  = Ok tt.
Proof.
  run. destruct (x_toLocaleString X (world st)) as [now w']. run.
  destruct (truthy (url config)); reflexivity.
Qed.

(** From [executeDeployment] to [deployProject]. *)
Lemma deploy_marks (R : JsResult unit -> Prop) options :
  "环境验证失败" <> t -> "发现未提交的更改" <> t -> "Git状态检查失败" <> t ->
  (forall config branch env,
      marks (fun _ => True) (EvSpinner k t) R
        (Deploy.executeDeployment X config branch env)) ->
  marks (fun _ => True) (EvSpinner k t) R (Deploy.deployProject X options).
Proof.
  intros N1 N2 N3 Hexec.
  pose proof Hreports as (Hc & Ht & Hs & Htx & Hsu).
  unfold Deploy.deployProject. cbv zeta.
  apply (marks_bind_skip pre_true); [keeps_tac|intros _].
  apply (marks_bind_skip pre_true); [keeps_tac|intros _].
  apply (marks_bind_skip pre_true).
  { pose proof (@validateEnvironment_keeps W X (no_spinner k t)).
    pose proof (Hfails N1). keeps_tac. }
  intros _.
  apply (marks_bind_skip pre_true);
    [apply loadConfig_keeps; reflexivity|intros [config|]].
  2:{ apply marks_none. apply keeps_throw. }
  apply (marks_bind_skip pre_true).
  { apply checkGitStatus_keeps; auto. }
  intros _.
  apply (marks_bind_skip pre_true).
  { apply keeps_when. apply confirmDeployment_keeps; auto. }
  intros _.
  destruct (match Deploy.opt_dryRun options with Some b => b | None => false end).
  { apply marks_none. apply keeps_bind; [keeps_tac|intros _].
    apply simulateDeployment_keeps. exact Hreports. }
  apply marks_bind_here with (R := R).
  - apply Hexec.
  - intros _. keeps_tac.
  - intros [] st HR. rewrite closing_lines_total. exact HR.
  - auto.
Qed.
End Pipeline.

Section Reports.
Context {W : Type} (X : Externals W).

Lemma reports_no_warn t : reports_ok (no_spinner SpinWarn t).
Proof. repeat split. Qed.

Lemma reports_no_fail t : reports_ok (no_spinner SpinFail t).
Proof. repeat split. Qed.

Lemma other_fail_warn t t' : t' <> t -> no_spinner SpinWarn t (KSpinner SpinFail t') = true.
Proof. reflexivity. Qed.

Lemma other_fail t t' : t' <> t -> no_spinner SpinFail t (KSpinner SpinFail t') = true.
Proof.
  intros H. cbn. destruct (String.eqb_spec t t'); [congruence|reflexivity].
Qed.

(** The warning of the verification in a trace of the stages: they returned
    normally. *)
Lemma stages_marks_verify sid config :
  marks (session_open sid config) verify_warned (fun r => r = Ok tt)
        (stages X sid config).
Proof.
  pose proof (@session_open_on_sessions W sid config) as Hpre.
  pose proof (reports_no_warn Deploy.verify_warning) as Hr.
  unfold stages, verify_warned.
  apply (marks_bind_skip Hpre);
    [apply backupCurrentVersion_keeps; auto; reflexivity|intros _].
  apply (marks_bind_skip Hpre);
    [apply uploadFiles_stage_keeps; auto; reflexivity|intros _].
  apply (marks_bind_skip Hpre);
    [apply installAndBuild_keeps; auto; reflexivity|intros _].
  apply (marks_bind_skip Hpre);
    [apply restartService_keeps; auto; reflexivity|intros _].
  intros st _ _. apply verify_total.
Qed.

(** The failure of the install stage in a trace of the stages: they failed
    with the error of a remote command. *)
Lemma stages_marks_install sid config :
  marks (session_open sid config) install_failed remote_failure
        (stages X sid config).
Proof.
  pose proof (@session_open_on_sessions W sid config) as Hpre.
  pose proof (reports_no_fail "依赖安装失败") as Hr.
  unfold stages, install_failed.
  apply (marks_bind_skip Hpre);
    [apply backupCurrentVersion_keeps; auto; reflexivity|intros _].
  apply (marks_bind_skip Hpre);
    [apply uploadFiles_stage_keeps; auto; reflexivity|intros _].
  apply marks_bind_here with (R := remote_failure).
  - intros st Hopen Hin.
    destruct (install_spec X config sid st Hopen eq_refl) as (_ & _ & _ & Hfail).
    apply Hfail. unfold Deploy.installAndBuild in Hin |- *.
    apply (@guarded_iff W unit _ "安装依赖..." "依赖安装失败" st); [|exact Hin].
    pose proof (exec_keeps X (no_spinner SpinFail "依赖安装失败")).
    keeps_tac.
  - intros _. apply keeps_bind;
      [apply restartService_keeps; auto; reflexivity|intros _].
    apply verifyDeployment_keeps; auto; reflexivity.
  - intros a st (res & _ & Hres). discriminate.
  - auto.
Qed.
End Reports.

Section RunOutcome.
Context {W : Type} (X : Externals W).

(** A run of [deployProject] that shows the verification warning returns
    normally. *)
Lemma deploy_verify_warned options (st : State W) :
  In verify_warned (events_of (Deploy.deployProject X options st)) ->
  result_of (Deploy.deployProject X options st) = Ok tt.
Proof.
  apply (@deploy_marks W X SpinWarn Deploy.verify_warning
           (reports_no_warn _) (@other_fail_warn _) (fun r => r = Ok tt) options);
    try (intros E; discriminate E); [|exact I].
  intros config branch env.
  apply (@execute_marks W X SpinWarn Deploy.verify_warning
           (reports_no_warn _) (@other_fail_warn _));
    try (intros E; discriminate E).
  intros sid. apply stages_marks_verify.
Qed.

(** A run of [deployProject] that shows the failure of the install stage
    fails, with the error of a remote command. *)
Lemma deploy_install_failed options (st : State W) :
  In install_failed (events_of (Deploy.deployProject X options st)) ->
  remote_failure (result_of (Deploy.deployProject X options st)).
Proof.
  apply (@deploy_marks W X SpinFail "依赖安装失败"
           (reports_no_fail _) (@other_fail _) remote_failure options);
    try (intros E; discriminate E); [|exact I].
  intros config branch env.
  apply (@execute_marks W X SpinFail "依赖安装失败"
           (reports_no_fail _) (@other_fail _));
    try (intros E; discriminate E).
  intros sid. apply stages_marks_install.
Qed.

(** The install stage shows its failure exactly when it fails. *)
Lemma install_failed_iff sid config (st : State W) :
  In install_failed (events_of (Deploy.installAndBuild X sid config st)) <->
  is_ok (result_of (Deploy.installAndBuild X sid config st)) = false.
Proof.
  unfold Deploy.installAndBuild, install_failed.
  apply (@guarded_iff W unit _ "安装依赖..." "依赖安装失败" st).
  pose proof (exec_keeps X (no_spinner SpinFail "依赖安装失败")).
  pose proof (reports_no_fail "依赖安装失败").
  keeps_tac.
Qed.
End RunOutcome.

(** ** Verification warns, installation fails *)

(** C4: (1) [verifyDeployment] never throws; (2) a [verifyCommand] that does
    not succeed on the connected session is reported by the warning spinner
    and the line with the error, and the stage returns normally; (3) every
    run of [deployProject] whose trace shows that warning returns normally;
    (4) on a connected session [installAndBuild] returns normally exactly
    when all its remote commands (the change of directory, [installCommand],
    [buildCommandRemote]) exit with status 0, shows its failure exactly when
    it fails, and then throws the error of the command that did not succeed;
    (5) every run of [deployProject] whose trace shows the failure of the
    install stage throws such an error to its caller. *)
Theorem verify_warns_install_fails {W} (X : Externals W) :
  (forall sid config (st : State W),
      result_of (Deploy.verifyDeployment X sid config st) = Ok tt) /\
  (forall sid config (st : State W) o,
      nth_error (sessions st) sid = Some o -> connected o = true ->
      truthy (verifyCommand config) = true ->
      let cmd := tmpl (verifyCommand config) in
      let cwd := js_or None (deployPath (ssh_config o)) in
      let res := fst (x_execCommand X sid cmd cwd (world st)) in
      let out := Deploy.verifyDeployment X sid config st in
      exec_ok res = false ->
      result_of out = Ok tt /\
      In verify_warned (events_of out) /\
      In (EvConsoleLog ("验证错误: " ++ message (exec_error res))) (events_of out)) /\
  (forall options (st : State W),
      In verify_warned (events_of (Deploy.deployProject X options st)) ->
      result_of (Deploy.deployProject X options st) = Ok tt) /\
  (forall sid config (st : State W) o,
      nth_error (sessions st) sid = Some o -> connected o = true ->
      let out := Deploy.installAndBuild X sid config st in
      is_ok (result_of out) = all_ok (events_of out) /\
      (In install_failed (events_of out) <-> is_ok (result_of out) = false) /\
      (is_ok (result_of out) = false -> remote_failure (result_of out))) /\
  (forall options (st : State W),
      In install_failed (events_of (Deploy.deployProject X options st)) ->
      remote_failure (result_of (Deploy.deployProject X options st))).
Proof.
  split; [intros; apply verify_total|].
  split.
  { intros sid config st o Ho Hc Hv cmd cwd res out Hres. subst out.
    rewrite (verify_warns X config sid st Ho Hc Hv Hres).
    cbn [result_of events_of fst snd]. split; [reflexivity|].
    split; [do 3 right; left; reflexivity | do 4 right; left; reflexivity]. }
  split; [intros; apply deploy_verify_warned; assumption|].
  split; [|intros; apply deploy_install_failed; assumption].
  intros sid config st o Ho Hc out. subst out.
  destruct (install_spec X config sid st Ho Hc) as (H1 & _ & _ & H4).
  split; [exact H1|]. split; [apply install_failed_iff | exact H4].
Qed.

(** Finding an event in a computed trace. *)
Ltac find_event := vm_compute; repeat first [left; reflexivity | right].

Lemma verify_warns_install_fails_witness :
  result_of (Deploy.deployProject (world_of verify_breaks) staging_options start)
    = Ok tt /\
  result_of (Deploy.deployProject (world_of install_breaks) staging_options start)
    = Throw (Error "远程命令执行失败: 命令执行失败: denied").
Proof.
  split.
  - destruct (verify_warns_install_fails (world_of verify_breaks))
      as (_ & _ & H3 & _).
    apply H3. find_event.
  - destruct (verify_warns_install_fails (world_of install_breaks))
      as (_ & _ & _ & _ & H5).
    assert (Hin : In install_failed
                     (events_of (Deploy.deployProject (world_of install_breaks)
                                   staging_options start))) by find_event.
    destruct (H5 staging_options start Hin) as (res & _ & _).
    reflexivity.
Defined.

(** ** Empty commands *)

(** C5, as amended: with an empty (or absent) command, [buildProject],
    [restartService] and [verifyDeployment] run nothing and return normally.
    [installAndBuild] always sends the change of directory first; its remote
    commands are an initial part of: that change of directory, then
    [installCommand] and [buildCommandRemote] inside [deployPath], each only
    when not empty; they are all of them when the stage returns normally, and
    the stage returns normally exactly when every command it sent succeeded. *)
Theorem empty_commands_are_skipped {W} (X : Externals W) :
  (forall config (st : State W),
      truthy (buildCommand config) = false ->
      Deploy.buildProject X config st =
        (Ok tt, st,
         [EvSpinner SpinStart "构建项目..."; EvSpinner SpinSucceed "项目构建完成"])) /\
  (forall sid config (st : State W),
      truthy (restartCommand config) = false ->
      Deploy.restartService X sid config st = (Ok tt, st, [])) /\
  (forall sid config (st : State W),
      truthy (verifyCommand config) = false ->
      Deploy.verifyDeployment X sid config st =
        (Ok tt, st,
         [EvSpinner SpinStart "验证部署结果..."; EvSpinner SpinSucceed "部署验证通过"])) /\
  (forall sid config (st : State W) o,
      nth_error (sessions st) sid = Some o -> connected o = true ->
      let out := Deploy.installAndBuild X sid config st in
      let cd := "cd " ++ tmpl (deployPath config) in
      (exists n,
          map fst (execs (events_of out)) =
            firstn n
              (List.app [cd]
                 (List.app
                    (if truthy (installCommand config)
                     then [cd ++ " && " ++ tmpl (installCommand config)] else [])
                    (if truthy (buildCommandRemote config)
                     then [cd ++ " && " ++ tmpl (buildCommandRemote config)] else [])))) /\
      (is_ok (result_of out) = true ->
       map fst (execs (events_of out)) = install_commands config) /\
      (exists res, nth_error (execs (events_of out)) 0 = Some (cd, res)) /\
      is_ok (result_of out) = all_ok (events_of out)).
Proof.
  split.
  { intros config st H. unfold Deploy.buildProject. run. rewrite H. reflexivity. }
  split.
  { intros sid config st H. unfold Deploy.restartService. rewrite H. reflexivity. }
  split.
  { intros sid config st H. unfold Deploy.verifyDeployment. run. rewrite H.
    reflexivity. }
  intros sid config st o Ho Hc out cd. subst out cd.
  destruct (install_spec X config sid st Ho Hc) as (H1 & H2 & H3 & _).
  split; [exact H2|]. split; [exact H3|]. split; [|exact H1].
  unfold Deploy.installAndBuild. run.
  erewrite exec_run by eassumption. run.
  destruct (x_execCommand X sid _ _ (world st)) as [r w']. cbn [fst snd].
  exists r.
  destruct (exec_out r) as [s|e]; run.
  - destruct (truthy (installCommand config)); run.
    + destruct (SSH.exec X sid _ None _) as [[[s1|e1] st1] ev1]; run.
      * destruct (truthy (buildCommandRemote config)); run.
        -- destruct (SSH.exec X sid _ None _) as [[[s2|e2] st2] ev2];
             read_trace; reflexivity.
        -- read_trace; reflexivity.
      * read_trace; reflexivity.
    + destruct (truthy (buildCommandRemote config)); run.
      * destruct (SSH.exec X sid _ None _) as [[[s2|e2] st2] ev2];
          read_trace; reflexivity.
      * read_trace; reflexivity.
  - read_trace; reflexivity.
Qed.

Lemma empty_commands_are_skipped_witness :
  Deploy.buildProject (world_of calm) static_config start =
    (Ok tt, start,
     [EvSpinner SpinStart "构建项目..."; EvSpinner SpinSucceed "项目构建完成"]) /\
  Deploy.restartService (world_of calm) 0 static_config (online static_config) =
    (Ok tt, online static_config, []) /\
  map fst (execs (events_of (Deploy.installAndBuild (world_of calm) 0 static_config
                               (online static_config)))) = ["cd /var/www/html"].
Proof.
  destruct (empty_commands_are_skipped (world_of calm)) as (H1 & H2 & _ & H4).
  split; [apply H1; reflexivity|]. split; [apply H2; reflexivity|].
  destruct (H4 0 static_config (online static_config) (open_session static_config)
              eq_refl eq_refl) as (_ & H & _).
  apply H. reflexivity.
Defined.

(** C5, as stated, fails for the install stage: with [installCommand] and
    [buildCommandRemote] both empty, the stage still sends the change of
    directory, and when the host refuses it the stage fails. *)
Lemma empty_install_stage_can_fail :
  let out := Deploy.installAndBuild (world_of cd_breaks) 0 static_config
               (online static_config) in
  truthy (installCommand static_config) = false /\
  truthy (buildCommandRemote static_config) = false /\
  execs (events_of out) = [("cd /var/www/html", exit_with 1 "denied")] /\
  result_of out = Throw (Error "远程命令执行失败: 命令执行失败: denied") /\
  ~ (execs (events_of out) = [] /\ is_ok (result_of out) = true).
Proof.
  cbv zeta. repeat split; try reflexivity.
  intros [H _]. vm_compute in H. discriminate H.
Qed.

(** ** The deployment marker *)

(** C6, at a host whose marker file exists and holds valid JSON with both
    fields: [getDeployInfo] reads the file (the commands it sends only test,
    print and stat) and parses it, yet returns an object without either
    field, and the status lines print both as unknown: the assignment of the
    parsed object to the constant [deployInfo] throws, and the error is
    swallowed. *)
Theorem marker_fields_are_dropped :
  let out := Utils.getDeployInfo (world_of marked_host) 0 app_config
               (online app_config) in
  x_jsonParse (world_of marked_host) marker_text = Ok marker_json /\
  In ("cat /var/www/app/.deploy-info",
      Ok {| code := Some 0%Z; stdout := marker_text; stderr := EmptyString |})
     (execs (events_of out)) /\
  result_of out = Ok {| lastDeploy := None; currentVersion := None |} /\
  map fst (execs (events_of out)) =
    ["test -f " ++ dquote ++ "/var/www/app/.deploy-info" ++ dquote ++ " && echo "
       ++ dquote ++ "exists" ++ dquote ++ " || echo " ++ dquote ++ "not_exists" ++ dquote;
     "cat /var/www/app/.deploy-info";
     "stat -c %y /var/www/app";
     "test -f " ++ dquote ++ "/var/www/app/package.json" ++ dquote ++ " && echo "
       ++ dquote ++ "exists" ++ dquote ++ " || echo " ++ dquote ++ "not_exists" ++ dquote] /\
  events_of (Utils.showStatus_deployInfo (W := unit) app_config
               {| lastDeploy := None; currentVersion := None |} start) =
    [EvConsoleLog (nl ++ "📁 部署信息:");
     EvConsoleLog "   部署路径: /var/www/app";
     EvConsoleLog "   最后部署: 未知";
     EvConsoleLog "   当前版本: 未知"].
Proof.
  cbv zeta. split; [reflexivity|]. split; [find_event|].
  repeat split; reflexivity.
Qed.

(** Whatever [JSON.parse] makes of the marker, the assignment to the
    constant is lost: the block around it does nothing. *)
Lemma marker_assignment_is_lost {W} (X : Externals W) content (st : State W) :
  try_catch
    (_ <- lift (x_jsonParse X content) ;;
     throw (TypeError "Assignment to constant variable."))
    (fun _ => ret tt) st = (Ok tt, st, []).
Proof.
  unfold try_catch, bind, lift. destruct (x_jsonParse X content); reflexivity.
Qed.

(** ** The profile lookup *)

Section Lookup.
Context {W : Type} (X : Externals W).

(** [loadConfig] on a servers file that exists, can be read and holds a
    [servers] mapping: the first key that matches decides. *)
Lemma loadConfig_run env (st : State W) w1 content w2 l :
  x_pathExists X (x_serversFile X) (world st) = (true, w1) ->
  x_readFile X (x_serversFile X) w1 = (Ok content, w2) ->
  x_yamlLoad X content = Ok (Some {| servers := Some l |}) ->
  Config.loadConfig X env st =
    (match find (Config.matches env l) (Config.keys l) with
     | Some name =>
         if String.eqb name EmptyString then Throw (Config.not_found env)
         else Ok (Config.servers_get name l)
     | None => Throw (Config.not_found env)
     end,
     {| world := w2; sessions := sessions st; ssh_var := ssh_var st |},
     [EvPathExists (x_serversFile X) true; EvReadFile (x_serversFile X)]).
Proof.
  intros He Hr Hy. unfold Config.loadConfig. run. rewrite He. run.
  cbn [negb]. run. rewrite Hr. run. rewrite Hy. run. cbn [servers].
  destruct (find (Config.matches env l) (Config.keys l)) as [name|];
    cbn [truthy negb tmpl]; [|reflexivity].
  destruct (String.eqb name EmptyString); reflexivity.
Qed.

Lemma servers_get_In l name c :
  NoDup (Config.keys l) -> In (name, c) l -> Config.servers_get name l = Some c.
Proof.
  induction l as [|[k c'] l IH]; cbn; [contradiction|].
  intros Hnd [Heq|Hin].
  - injection Heq as -> ->. rewrite String.eqb_refl. reflexivity.
  - inversion Hnd as [|? ? Hk Hnd']; subst.
    destruct (String.eqb_spec k name) as [->|_].
    + exfalso. apply Hk. apply (in_map fst) in Hin. exact Hin.
    + auto.
Qed.

(** Whether an entry matches: its name contains [env], or its
    [environment] is [env]. *)
Lemma matches_entry env l name c :
  NoDup (Config.keys l) -> In (name, c) l ->
  Config.matches env l name =
    includes name env || Config.strict_eq (environment c) env.
Proof.
  intros Hnd Hin. unfold Config.matches.
  erewrite servers_get_In by eassumption. reflexivity.
Qed.

(** The first entry that matches, in the order of the mapping, is the one
    [find] settles on. *)
Lemma find_first_match env l l1 name c l2 :
  NoDup (Config.keys l) ->
  l = (l1 ++ (name, c) :: l2)%list ->
  includes name env || Config.strict_eq (environment c) env = true ->
  (forall n' c', In (n', c') l1 ->
                 includes n' env || Config.strict_eq (environment c') env = false) ->
  find (Config.matches env l) (Config.keys l) = Some name /\
  Config.servers_get name l = Some c.
Proof.
  intros Hnd -> Hm Hbefore.
  assert (Hin : In (name, c) (l1 ++ (name, c) :: l2)) by (apply in_elt).
  split; [|apply servers_get_In; assumption].
  unfold Config.keys. rewrite map_app. cbn [map fst].
  assert (Hl1 : forall n', In n' (map fst l1) ->
                  Config.matches env (l1 ++ (name, c) :: l2)%list n' = false).
  { intros n' Hn'. apply in_map_iff in Hn' as ([k c'] & Hk & Hkin). cbn in Hk. subst k.
    erewrite matches_entry; [eauto | exact Hnd |].
    apply in_or_app. left. exact Hkin. }
  assert (Hp : Config.matches env (l1 ++ (name, c) :: l2)%list name = true).
  { erewrite matches_entry; eassumption. }
  revert Hl1 Hp. generalize (Config.matches env (l1 ++ (name, c) :: l2)%list) as p.
  intros p Hl1 Hp.
  clear Hin Hbefore Hnd.
  induction (map fst l1) as [|k ks IH]; cbn.
  - rewrite Hp. reflexivity.
  - rewrite (Hl1 k (or_introl eq_refl)). apply IH. intros n' Hn'. apply Hl1. right. exact Hn'.
Qed.
End Lookup.

(** C7, at a servers file whose only entry has the empty name and is
    declared for staging: the entry matches the environment, [find] returns
    its name, the empty string, and [loadConfig] takes that for no match and
    throws 'not found' instead of returning the entry. *)
Theorem empty_name_is_not_found :
  Config.matches "staging" [(EmptyString, app_config)] EmptyString = true /\
  find (Config.matches "staging" [(EmptyString, app_config)])
       (Config.keys [(EmptyString, app_config)]) = Some EmptyString /\
  Config.servers_get EmptyString [(EmptyString, app_config)] = Some app_config /\
  Config.loadConfig (world_of unnamed_staging) "staging" start =
    (Throw (Error "未找到 staging 环境的服务器配置"),
     start,
     [EvPathExists "/home/deployer/.deploy-cli/servers.yml" true;
      EvReadFile "/home/deployer/.deploy-cli/servers.yml"]).
Proof. repeat split; reflexivity. Qed.

(** ** Exit statuses *)

Lemma try_catch_total {W A} (m : M W A) (h : JsError -> M W A) (st : State W) :
  (forall e st', is_ok (result_of (h e st')) = true) ->
  is_ok (result_of (try_catch m h st)) = true.
Proof.
  intros Hh. unfold try_catch. destruct (m st) as [[[a|e] st1] ev1]; [reflexivity|].
  specialize (Hh e st1). destruct (h e st1) as [[r st2] ev2]. exact Hh.
Qed.

(** [showLogs] never throws. *)
Lemma showLogs_total {W} (X : Externals W) options (st : State W) :
  result_of (Logs.showLogs X options st) = Ok tt.
Proof.
  unfold Logs.showLogs. cbv zeta. rewrite bind_run. cbn [emit].
  match goal with
  | |- context [try_catch ?m ?h ?s] =>
      pose proof (try_catch_total m h s (fun _ _ => eq_refl)) as Ht;
      destruct (try_catch m h s) as [[[[]|e] st1] ev1]
  end; [reflexivity | discriminate Ht].
Qed.

(** C8, as amended: the [deploy] action ends the process with status 1
    exactly when [deployProject] throws (a validation, configuration,
    repository, connection or remote stage error) and with 0 otherwise, so
    with 0 for a run that only shows the verification warning; the [config]
    action ends it with 1 exactly when the selected operation throws;
    [showLogs] catches every error itself, so the [logs] action always
    returns without calling [process.exit] and the process ends with 0. *)
Theorem exit_status_of_actions {W} (X : Externals W) :
  (forall options (st : State W),
      Cli.exit_status (result_of (Cli.deploy_action X options st)) =
        if is_ok (result_of (Deploy.deployProject X options st)) then 0%Z else 1%Z) /\
  (forall options (st : State W),
      In verify_warned (events_of (Cli.deploy_action X options st)) ->
      Cli.exit_status (result_of (Cli.deploy_action X options st)) = 0%Z) /\
  (forall configManager options (st : State W),
      Cli.exit_status (result_of (Cli.config_action configManager options st)) =
        if is_ok (result_of (Cli.config_dispatch configManager options st))
        then 0%Z else 1%Z) /\
  (forall options (st : State W),
      result_of (Logs.showLogs X options st) = Ok tt /\
      result_of (Cli.logs_action X options st) = Ok None /\
      Cli.exit_status (result_of (Cli.logs_action X options st)) = 0%Z).
Proof.
  assert (Hd : forall options (st : State W),
             Cli.exit_status (result_of (Cli.deploy_action X options st)) =
               if is_ok (result_of (Deploy.deployProject X options st))
               then 0%Z else 1%Z).
  { intros options st. unfold Cli.deploy_action. run.
    destruct (Deploy.deployProject X options st) as [[[u|e] s] ev]; reflexivity. }
  split; [exact Hd|]. split.
  { intros options st Hin. rewrite Hd.
    rewrite deploy_verify_warned; [reflexivity|].
    revert Hin. unfold Cli.deploy_action. run.
    destruct (Deploy.deployProject X options st) as [[[u|e] s] ev];
      cbn [events_of snd]; intros Hin; apply in_app_or in Hin as [Hin|Hin];
      try exact Hin; cbn in Hin; try contradiction.
    destruct Hin as [Hin|[]]. discriminate Hin. }
  split.
  { intros cm options st. unfold Cli.config_action. run.
    destruct (Cli.config_dispatch cm options st) as [[[u|e] s] ev]; reflexivity. }
  intros options st.
  pose proof (showLogs_total X options st) as Hs.
  split; [exact Hs|].
  unfold Cli.logs_action. run.
  destruct (Logs.showLogs X options st) as [[[u|e] s] ev]; cbn in Hs;
    [split; reflexivity | discriminate Hs].
Qed.

(** C8, as stated, fails for the [logs] command: without a servers file
    [showLogs] reports the error and the process ends with status 0. *)
Lemma log_error_exits_zero :
  let out := Cli.logs_action (world_of unconfigured) staging_logs start in
  In (EvConsoleError "获取日志失败: 配置文件不存在，请先运行 deploy-cli config --init")
     (events_of out) /\
  Cli.exit_status (result_of out) = 0%Z /\
  ~ (Cli.exit_status (result_of out) <> 0%Z).
Proof.
  cbv zeta. split; [find_event|]. split; [reflexivity|].
  intros H. apply H. reflexivity.
Qed.

Lemma exit_status_of_actions_witness :
  Cli.exit_status
    (result_of (Cli.deploy_action (world_of verify_breaks) staging_options start)) = 0%Z /\
  Cli.exit_status
    (result_of (Cli.deploy_action (world_of install_breaks) staging_options start)) = 1%Z /\
  Cli.exit_status
    (result_of (Cli.logs_action (world_of unconfigured) staging_logs start)) = 0%Z.
Proof.
  destruct (exit_status_of_actions (world_of verify_breaks)) as (_ & H2 & _).
  destruct (exit_status_of_actions (world_of install_breaks)) as (H1 & _).
  destruct (exit_status_of_actions (world_of unconfigured)) as (_ & _ & _ & H4).
  split; [apply H2; find_event|].
  split; [rewrite H1; reflexivity|].
  apply (H4 staging_logs start).
Defined.

(** The lookup where it works: in a servers file that exists and parses,
    with distinct names, the first entry, in the order of the mapping, whose
    name contains [env] or whose [environment] is [env] is the profile
    [loadConfig] returns, provided its name is not empty; and when no entry
    matches, [loadConfig] throws 'not found'. *)
Theorem first_match_is_loaded {W} (X : Externals W) env (st : State W)
  w1 content w2 l :
  x_pathExists X (x_serversFile X) (world st) = (true, w1) ->
  x_readFile X (x_serversFile X) w1 = (Ok content, w2) ->
  x_yamlLoad X content = Ok (Some {| servers := Some l |}) ->
  NoDup (Config.keys l) ->
  (forall l1 name c l2,
      l = (l1 ++ (name, c) :: l2)%list ->
      includes name env || Config.strict_eq (environment c) env = true ->
      (forall n' c', In (n', c') l1 ->
                     includes n' env || Config.strict_eq (environment c') env = false) ->
      name <> EmptyString ->
      result_of (Config.loadConfig X env st) = Ok (Some c)) /\
  ((forall name c, In (name, c) l ->
                   includes name env || Config.strict_eq (environment c) env = false) ->
   result_of (Config.loadConfig X env st) =
     Throw (Error ("未找到 " ++ env ++ " 环境的服务器配置"))).
Proof.
  intros He Hr Hy Hnd.
  rewrite (loadConfig_run X env st He Hr Hy). cbn [result_of fst]. split.
  - intros l1 name c l2 Hl Hm Hbefore Hname.
    destruct (@find_first_match env l l1 name c l2 Hnd Hl Hm Hbefore) as (-> & ->).
    destruct (String.eqb_spec name EmptyString); [contradiction|reflexivity].
  - intros Hnone.
    assert (Hf : find (Config.matches env l) (Config.keys l) = None).
    { destruct (find (Config.matches env l) (Config.keys l)) as [name|] eqn:E;
        [|reflexivity].
      apply find_some in E as (Hin & Hm).
      apply in_map_iff in Hin as ([k c] & Hk & Hkin). cbn in Hk. subst k.
      erewrite matches_entry in Hm by eassumption.
      rewrite (Hnone _ _ Hkin) in Hm. discriminate Hm. }
    rewrite Hf. reflexivity.
Qed.

Lemma first_match_is_loaded_witness :
  result_of (Config.loadConfig (world_of calm) "staging" start) = Ok (Some app_config).
Proof.
  refine (proj1 (first_match_is_loaded (world_of calm) "staging" start
                   (w1 := tt) (content := "servers: ...") (w2 := tt)
                   (l := [("staging-server", app_config)])
                   eq_refl eq_refl eq_refl _)
                [] "staging-server" app_config [] eq_refl eq_refl _ _).
  - repeat constructor. intros [].
  - intros n' c' [].
  - discriminate.
Defined.

(** * More properties of the code *)

(** ** Probes and listings of the session class *)




Lemma update_nth_nth_error {A} (f : A -> A) (l : list A) i x :
  nth_error l i = Some x -> nth_error (update_nth i f l) i = Some (f x).
Proof.
  revert i. induction l as [|y l IH]; intros [|i] H; simpl in *;
    try discriminate; [congruence | auto].
Qed.

(** [disconnect] can be called any number of times: it never throws; the
    first call on a connected session disposes of the connection once and
    clears the flag; a call on a session that is not connected disposes of
    nothing and leaves the state as it is, so two calls in a row dispose at
    most once; and after it, commands are rejected without a call of the
    host. *)
Theorem disconnect_is_idempotent {W} (X : Externals W) sid (st : State W) o cmd cwd :
  nth_error (sessions st) sid = Some o ->
  let first := SSH.disconnect X sid st in
  let second := SSH.disconnect X sid (state_of first) in
  result_of first = Ok tt /\
  second = (Ok tt, state_of first, [EvDisconnect sid]) /\
  count (is_dispose sid) (events_of first ++ events_of second)
    = (if connected o then 1 else 0) /\
  (connected o = false -> first = (Ok tt, st, [EvDisconnect sid])) /\
  SSH.exec X sid cmd cwd (state_of first) =
    (Throw (Error "SSH未连接"), state_of first, []).
Proof.
  intros Ho first second.
  assert (Hoff : exists o', nth_error (sessions (state_of first)) sid = Some o' /\
                            connected o' = false).
  { subst first. rewrite (disconnect_run X sid st Ho).
    destruct (connected o) eqn:Hc; cbn [state_of fst snd sessions].
    - eexists. split; [apply update_nth_nth_error; eassumption | reflexivity].
    - exists o. auto. }
  destruct Hoff as (o' & Ho' & Hc').
  assert (Hsecond : second = (Ok tt, state_of first, [EvDisconnect sid])).
  { subst second. rewrite (disconnect_run X sid _ Ho'), Hc'. reflexivity. }
  split; [|split; [exact Hsecond|split; [|split]]].
  - subst first. rewrite (disconnect_run X sid st Ho).
    destruct (connected o); reflexivity.
  - rewrite Hsecond. subst first. rewrite (disconnect_run X sid st Ho).
    destruct (connected o); unfold count;
      cbn [events_of fst snd app filter is_dispose];
      rewrite ?Nat.eqb_refl; reflexivity.
  - intros Hc. subst first. rewrite (disconnect_run X sid st Ho), Hc. reflexivity.
  - unfold SSH.exec, SSH.this, bind. rewrite Ho', Hc'. reflexivity.
Qed.

Lemma disconnect_is_idempotent_witness :
  let first := SSH.disconnect (world_of calm) 0 (online app_config) in
  let second := SSH.disconnect (world_of calm) 0 (state_of first) in
  result_of first = Ok tt /\
  second = (Ok tt, state_of first, [EvDisconnect 0]) /\
  count (is_dispose 0) (events_of first ++ events_of second) = 1 /\
  (true = false -> first = (Ok tt, online app_config, [EvDisconnect 0])) /\
  SSH.exec (world_of calm) 0 "ls" None (state_of first) =
    (Throw (Error "SSH未连接"), state_of first, []).
Proof.
  apply (disconnect_is_idempotent (world_of calm) 0 (online app_config)
           (o := open_session app_config) "ls" None).
  reflexivity.
Defined.



(** ** Rules for traces read event by event *)

Section Only.
Context {W : Type}.
Variable P : Event -> bool.

Lemma only_ret {A} (a : A) : only (W := W) P (ret a).
Proof. intros st. reflexivity. Qed.

Lemma only_throw {A} e : only (W := W) (A := A) P (throw e).
Proof. intros st. reflexivity. Qed.

Lemma only_emit e : P e = true -> only (W := W) P (emit e).
Proof. intros H st. cbn. rewrite H. reflexivity. Qed.

Lemma only_bind {A B} (m : M W A) (f : A -> M W B) :
  only P m -> (forall a, only P (f a)) -> only P (bind m f).
Proof.
  intros Hm Hf st. specialize (Hm st). rewrite bind_run.
  destruct (m st) as [[[a|e] st1] ev1]; cbn in Hm |- *; [|exact Hm].
  specialize (Hf a st1). destruct (f a st1) as [[r st2] ev2]. cbn in Hf |- *.
  rewrite forallb_app, Hm, Hf. reflexivity.
Qed.

Lemma only_try_catch {A} (m : M W A) (h : JsError -> M W A) :
  only P m -> (forall e, only P (h e)) -> only P (try_catch m h).
Proof.
  intros Hm Hh st. specialize (Hm st). unfold try_catch.
  destruct (m st) as [[[a|e] st1] ev1]; cbn in Hm |- *; [exact Hm|].
  specialize (Hh e st1). destruct (h e st1) as [[r st2] ev2]. cbn in Hh |- *.
  rewrite forallb_app, Hm, Hh. reflexivity.
Qed.

Lemma only_try_finally {A} (m : M W A) (fin : M W unit) :
  only P m -> only P fin -> only P (try_finally m fin).
Proof.
  intros Hm Hf st. specialize (Hm st). unfold try_finally.
  destruct (m st) as [[r st1] ev1]. cbn in Hm.
  specialize (Hf st1). destruct (fin st1) as [[[u|e] st2] ev2]; cbn in Hf |- *;
    rewrite forallb_app, Hm, Hf; reflexivity.
Qed.

Lemma only_extern {A} (f : W -> A * W) ev :
  (forall a, P (ev a) = true) -> only P (extern f ev).
Proof.
  intros H st. unfold extern. destruct (f (world st)) as [a w']. cbn.
  rewrite H. reflexivity.
Qed.

Lemma only_extern_try {A} (f : W -> JsResult A * W) ev :
  (forall r, P (ev r) = true) -> only P (extern_try f ev).
Proof.
  intros H st. unfold extern_try. destruct (f (world st)) as [r w']. cbn.
  rewrite H. reflexivity.
Qed.

Lemma only_consult {A} (f : W -> A * W) : only P (consult f).
Proof. intros st. unfold consult. destruct (f (world st)). reflexivity. Qed.

Lemma only_perform {A} (f : W -> JsResult A * W) : only P (perform f).
Proof. intros st. unfold perform. destruct (f (world st)). reflexivity. Qed.

Lemma only_when c (m : M W unit) : only P m -> only P (when c m).
Proof. intros H. destruct c; [exact H | apply only_ret]. Qed.

Lemma only_lift {A} (r : JsResult A) : only (W := W) P (lift r).
Proof. destruct r; intros st; reflexivity. Qed.

Lemma only_for_of {A} (l : list A) (body : A -> M W unit) :
  (forall x, only P (body x)) -> only P (for_of l body).
Proof.
  intros H. induction l as [|x l IH]; cbn [for_of]; [apply only_ret|].
  apply only_bind; auto.
Qed.

Lemma only_get_ssh_var : only (W := W) P get_ssh_var.
Proof. intros st. reflexivity. Qed.

Lemma only_set_ssh_var v : only (W := W) P (set_ssh_var v).
Proof. intros st. reflexivity. Qed.

(** What is known of the kinds of the events carries over. *)
Lemma keeps_only {A} allowed (m : M W A) :
  keeps allowed m ->
  (forall e, allowed (kind_of e) = true -> P e = true) ->
  only P m.
Proof.
  intros Hk Himp st. destruct (Hk st) as (_ & _ & Hev).
  revert Hev. apply forallb_weaken. exact Himp.
Qed.
End Only.

(** One step of an [only] proof: the rule of the outermost construct. *)
Ltac only_step :=
  lazymatch goal with
  | |- only _ (bind _ _) => apply only_bind; [|intros]
  | |- only _ (try_catch _ _) => apply only_try_catch; [|intros]
  | |- only _ (try_finally _ _) => apply only_try_finally
  | |- only _ (ret _) => apply only_ret
  | |- only _ (throw _) => apply only_throw
  | |- only _ (emit _) => apply only_emit
  | |- only _ (sleep _) => apply only_emit
  | |- only _ (when _ _) => apply only_when
  | |- only _ (lift _) => apply only_lift
  | |- only _ (consult _) => apply only_consult
  | |- only _ (perform _) => apply only_perform
  | |- only _ get_ssh_var => apply only_get_ssh_var
  | |- only _ (set_ssh_var _) => apply only_set_ssh_var
  | |- only _ (extern _ _) => apply only_extern; intros
  | |- only _ (extern_try _ _) => apply only_extern_try; intros
  | |- only _ (for_of _ _) => apply only_for_of; intros
  | |- only _ (if ?b then _ else _) => destruct b
  | |- only _ (match ?x with _ => _ end) => destruct x
  end.

Ltac only_tac := repeat first [only_step | eassumption | reflexivity | solve [auto]].

Lemma only_weaken {W A} (P Q : Event -> bool) (m : M W A) :
  (forall e, P e = true -> Q e = true) -> only P m -> only Q m.
Proof. intros H Hm st. generalize (Hm st). apply forallb_weaken. exact H. Qed.

Section SessionEvents.
Context {W : Type} (X : Externals W).
Variable P : Event -> bool.

Lemma only_this sid : only P (SSH.this (W := W) sid).
Proof.
  intros st. unfold SSH.this. destruct (nth_error (sessions st) sid); reflexivity.
Qed.

Lemma only_set_connected sid b : only P (SSH.set_connected (W := W) sid b).
Proof. intros st. reflexivity. Qed.

Lemma only_new config :
  (forall sid, P (EvNewSSHConnection sid) = true) -> only P (SSH.new (W := W) config).
Proof. intros H st. cbn. rewrite H. reflexivity. Qed.

Lemma only_connect sid :
  (forall k t, P (EvSpinner k t) = true) ->
  (forall r, P (EvSshConnect sid r) = true) ->
  only P (SSH.connect X sid).
Proof.
  intros H1 H2. pose proof (only_this sid). pose proof (only_set_connected sid true).
  unfold SSH.connect. only_tac.
Qed.

Lemma only_disconnect sid :
  P (EvDisconnect sid) = true -> P (EvDispose sid) = true ->
  (forall t, P (EvConsoleLog t) = true) ->
  only P (SSH.disconnect X sid).
Proof.
  intros H1 H2 H3. pose proof (only_this sid). pose proof (only_set_connected sid false).
  unfold SSH.disconnect. only_tac.
Qed.

Lemma only_exec sid cmd cwd :
  (forall t, P (EvConsoleLog t) = true) ->
  (forall c r, P (EvExecCommand sid cmd c r) = true) ->
  only P (SSH.exec X sid cmd cwd).
Proof.
  intros H1 H2. pose proof (only_this sid). unfold SSH.exec. only_tac.
Qed.
End SessionEvents.

(** A real deployment asks nothing, reads no local file and opens no
    stream. *)
Lemma executeDeployment_only {W} (X : Externals W) (P : Event -> bool)
  config branch env :
  (forall e, deploy_kinds (kind_of e) = true -> P e = true) ->
  only P (Deploy.executeDeployment X config branch env).
Proof.
  intros HP.
  apply only_weaken with (P := fun e => deploy_kinds (kind_of e)); [exact HP|].
  assert (Hr : reports_ok deploy_kinds) by (repeat split).
  unfold Deploy.executeDeployment.
  apply only_bind; [apply only_set_ssh_var|intros _].
  apply only_try_finally.
  - apply only_bind.
    { apply keeps_only with (allowed := deploy_kinds); [|auto].
      apply buildProject_keeps; auto. }
    intros _. apply only_bind; [apply only_new; reflexivity|intros ssh].
    apply only_bind; [apply only_set_ssh_var|intros _].
    apply only_bind; [apply only_connect; reflexivity|intros _].
    apply keeps_only with (allowed := deploy_kinds); [|auto].
    apply (stages_keeps X config (allowed := deploy_kinds)); auto.
  - apply only_bind; [apply only_get_ssh_var|intros [ssh|]].
    + apply only_disconnect; reflexivity.
    + apply only_ret.
Qed.

(** ** What a deployment asks the operator *)

Ltac local_parts :=
  unfold Deploy.checkGitStatus, Deploy.confirmDeployment, Deploy.simulateDeployment,
    Utils.validateEnvironment, Utils.getCurrentBranch, Utils.getGitStatus,
    Utils.execSync, Config.loadConfig.

(** With [force] set, [deployProject] never asks the operator anything:
    neither the confirmation of the deployment nor, with uncommitted
    changes, whether to go on.  A dry run without [force] may ask about
    uncommitted changes, but never asks to confirm the deployment. *)
Theorem forced_deploy_never_prompts {W} (X : Externals W) env branch dryRun force :
  only (fun e => negb (is_prompt e))
       (Deploy.deployProject X
          {| Deploy.opt_env := env; Deploy.opt_branch := branch;
             Deploy.opt_force := Some true; Deploy.opt_dryRun := dryRun |}) /\
  only (fun e => match e with
                 | EvPrompt name _ => negb (String.eqb name "confirmed")
                 | _ => true
                 end)
       (Deploy.deployProject X
          {| Deploy.opt_env := env; Deploy.opt_branch := branch;
             Deploy.opt_force := force; Deploy.opt_dryRun := Some true |}).
Proof.
  split.
  - unfold Deploy.deployProject. cbv zeta.
    cbn [Deploy.opt_env Deploy.opt_branch Deploy.opt_force Deploy.opt_dryRun].
    local_parts.
    repeat first
      [ progress cbn [negb andb when]
      | rewrite Bool.andb_false_r
      | apply executeDeployment_only; intros [] He; try discriminate He; reflexivity
      | only_step | reflexivity ].
  - unfold Deploy.deployProject. cbv zeta.
    cbn [Deploy.opt_env Deploy.opt_branch Deploy.opt_force Deploy.opt_dryRun].
    local_parts.
    repeat first
      [ progress cbn [negb andb when]
      | rewrite Bool.andb_false_r
      | only_step | reflexivity ].
Qed.

(** ** Rules for runs that stop at a trigger *)

Section Halts.
Variables trigger rest : Event -> bool.

Lemma halts_clean l :
  forallb (fun e => negb (trigger e)) l = true -> halts trigger rest l = true.
Proof.
  induction l as [|e l IH]; cbn; [reflexivity|].
  intros H. apply andb_prop in H as [H1 H2].
  destruct (trigger e); [discriminate|auto].
Qed.

Lemma clean_no_trigger l :
  forallb (fun e => negb (trigger e)) l = true -> existsb trigger l = false.
Proof.
  induction l as [|e l IH]; cbn; [reflexivity|].
  intros H. apply andb_prop in H as [H1 H2].
  destruct (trigger e); [discriminate|auto].
Qed.

Lemma no_trigger_clean l :
  existsb trigger l = false -> forallb (fun e => negb (trigger e)) l = true.
Proof.
  induction l as [|e l IH]; cbn; [reflexivity|].
  destruct (trigger e); [discriminate|auto].
Qed.

(** A clean trace before a trace that halts. *)
Lemma halts_app_clean l1 l2 :
  existsb trigger l1 = false -> halts trigger rest l2 = true ->
  halts trigger rest (l1 ++ l2) = true.
Proof.
  induction l1 as [|e l1 IH]; cbn; [auto|].
  destruct (trigger e); [discriminate|auto].
Qed.

(** A trace that halts before events that are clean and fit for the rest. *)
Lemma halts_app_rest l1 l2 :
  halts trigger rest l1 = true ->
  forallb (fun e => rest e && negb (trigger e)) l2 = true ->
  halts trigger rest (l1 ++ l2) = true.
Proof.
  intros H1 H2.
  assert (Hr : forallb rest l2 = true).
  { revert H2. apply forallb_weaken. intros e He. apply andb_prop in He as [He _].
    exact He. }
  assert (Hc : forallb (fun e => negb (trigger e)) l2 = true).
  { revert H2. apply forallb_weaken. intros e He. apply andb_prop in He as [_ He].
    exact He. }
  induction l1 as [|e l1 IH]; cbn in *; [apply halts_clean; exact Hc|].
  destruct (trigger e); [|auto].
  rewrite forallb_app, H1, Hr. reflexivity.
Qed.

Context {W : Type}.
Variable R : JsError -> Prop.

Lemma stops_only {A} (m : M W A) :
  only (fun e => negb (trigger e)) m -> stops_at trigger rest R m.
Proof.
  intros H st. specialize (H st). split; [apply halts_clean; exact H|].
  rewrite (clean_no_trigger _ H). discriminate.
Qed.

Lemma stops_bind {A B} (m : M W A) (f : A -> M W B) :
  stops_at trigger rest R m -> (forall a, stops_at trigger rest R (f a)) ->
  stops_at trigger rest R (bind m f).
Proof.
  intros Hm Hf st. destruct (Hm st) as (H1 & H2). rewrite bind_run.
  destruct (m st) as [[[a|e] st1] ev1]; cbn in H1, H2 |- *.
  2:{ split; [assumption|]. intros Hex. destruct (H2 Hex) as (e0 & He0 & HR).
      injection He0 as <-. eauto. }
  assert (Hc : existsb trigger ev1 = false).
  { destruct (existsb trigger ev1); [|reflexivity].
    destruct (H2 eq_refl) as (e & He & _). discriminate. }
  destruct (Hf a st1) as (F1 & F2).
  destruct (f a st1) as [[r st2] ev2]; cbn in F1, F2 |- *.
  split; [apply halts_app_clean; assumption|].
  rewrite existsb_app, Hc. cbn. exact F2.
Qed.

(** A handler that reports and throws the error again. *)
Lemma stops_rethrow {A} (m : M W A) (h : JsError -> M W A) :
  stops_at trigger rest R m ->
  (forall e, only (fun ev => rest ev && negb (trigger ev)) (h e)) ->
  (forall e st, result_of (h e st) = Throw e) ->
  stops_at trigger rest R (try_catch m h).
Proof.
  intros Hm Hh Hre st. destruct (Hm st) as (H1 & H2). unfold try_catch.
  destruct (m st) as [[[a|e] st1] ev1]; cbn in H1, H2 |- *; [split; assumption|].
  specialize (Hh e st1). specialize (Hre e st1).
  destruct (h e st1) as [[r st2] ev2]; cbn in Hh, Hre |- *. subst r.
  split; [apply halts_app_rest; assumption|].
  rewrite existsb_app. intros Hex. apply Bool.orb_true_iff in Hex as [Hex|Hex].
  - destruct (H2 Hex) as (e' & He' & HR). injection He' as <-. eauto.
  - exfalso. assert (Hc : forallb (fun e => negb (trigger e)) ev2 = true).
    { revert Hh. apply forallb_weaken. intros x Hx.
      apply andb_prop in Hx as [_ Hx]. exact Hx. }
    rewrite (clean_no_trigger _ Hc) in Hex. discriminate.
Qed.

Lemma stops_when c (m : M W unit) :
  stops_at trigger rest R m -> stops_at trigger rest R (when c m).
Proof.
  intros H. destruct c; [exact H|]. apply stops_only. apply only_ret.
Qed.

Lemma winds_stops {A} (m : M W A) :
  stops_at trigger rest R m -> winds_down trigger rest m.
Proof. intros H st. apply (H st). Qed.

(** Whatever comes after a part that stops at a trigger. *)
Lemma winds_bind {A B} (m : M W A) (f : A -> M W B) :
  stops_at trigger rest R m -> (forall a, winds_down trigger rest (f a)) ->
  winds_down trigger rest (bind m f).
Proof.
  intros Hm Hf st. destruct (Hm st) as (H1 & H2). rewrite bind_run.
  destruct (m st) as [[[a|e] st1] ev1]; cbn in H1, H2 |- *; [|auto].
  assert (Hc : existsb trigger ev1 = false).
  { destruct (existsb trigger ev1); [|reflexivity].
    destruct (H2 eq_refl) as (e & He & _). discriminate. }
  specialize (Hf a st1).
  destruct (f a st1) as [[r st2] ev2]; cbn in Hf |- *.
  apply halts_app_clean; assumption.
Qed.

(** Reports after a part that winds down. *)
Lemma winds_then {A B} (m : M W A) (f : A -> M W B) :
  winds_down trigger rest m ->
  (forall a, only (fun ev => rest ev && negb (trigger ev)) (f a)) ->
  winds_down trigger rest (bind m f).
Proof.
  intros Hm Hf st. specialize (Hm st). rewrite bind_run.
  destruct (m st) as [[[a|e] st1] ev1]; cbn in Hm |- *; [|auto].
  specialize (Hf a st1).
  destruct (f a st1) as [[r st2] ev2]; cbn in Hf |- *.
  apply halts_app_rest; assumption.
Qed.

(** A handler that reports, whatever it returns. *)
Lemma winds_catch {A} (m : M W A) (h : JsError -> M W A) :
  winds_down trigger rest m ->
  (forall e, only (fun ev => rest ev && negb (trigger ev)) (h e)) ->
  winds_down trigger rest (try_catch m h).
Proof.
  intros Hm Hh st. specialize (Hm st). unfold try_catch.
  destruct (m st) as [[[a|e] st1] ev1]; cbn in Hm |- *; [auto|].
  specialize (Hh e st1).
  destruct (h e st1) as [[r st2] ev2]; cbn in Hh |- *.
  apply halts_app_rest; assumption.
Qed.

Lemma winds_finally {A} (m : M W A) (fin : M W unit) :
  winds_down trigger rest m ->
  only (fun ev => rest ev && negb (trigger ev)) fin ->
  winds_down trigger rest (try_finally m fin).
Proof.
  intros Hm Hf st. specialize (Hm st). unfold try_finally.
  destruct (m st) as [[r st1] ev1]; cbn in Hm.
  specialize (Hf st1).
  destruct (fin st1) as [[[u|e] st2] ev2]; cbn in Hf |- *;
    apply halts_app_rest; assumption.
Qed.
End Halts.

(** ** A deployment stops at the first failure on the host *)

Section FailFast.
Context {W : Type} (X : Externals W).

Ltac leaf_cases :=
  repeat match goal with
         | |- context [match ?x with _ => _ end] => destruct x eqn:?; run
         | |- context [if ?x then _ else _] => destruct x eqn:?; run
         end.

Lemma exec_stops sid cmd cwd :
  stops_at failed winding_down (fun _ => True)
    (SSH.exec X sid cmd cwd).
Proof.
  intros st. unfold SSH.exec, SSH.this. run.
  destruct (nth_error (sessions st) sid) as [o|]; run;
    [|split; [reflexivity|discriminate]].
  destruct (connected o); cbn [negb]; run; [|split; [reflexivity|discriminate]].
  destruct (x_execCommand X sid cmd _ (world st)) as [[r|e] w']; run.
  - destruct (code r) as [[|p|p]|] eqn:Hc;
      destruct (String.eqb (stdout r) EmptyString);
      cbn; rewrite ?Hc; cbn;
      (split; [reflexivity|]);
      first [discriminate | intros _; eexists; split; [reflexivity|exact I]].
  - split; [reflexivity|intros _; eexists; split; [reflexivity|exact I]].
Qed.

Lemma uploadDirectory_stops sid l r :
  stops_at failed winding_down (fun _ => True)
    (SSH.uploadDirectory X sid l r).
Proof.
  intros st. unfold SSH.uploadDirectory, SSH.this. run.
  destruct (nth_error (sessions st) sid) as [o|]; run;
    [|split; [reflexivity|discriminate]].
  destruct (connected o); cbn [negb]; run; [|split; [reflexivity|discriminate]].
  destruct (x_putDirectory X sid l r (world st)) as [[u|e] w']; run.
  - split; [reflexivity|discriminate].
  - split; [reflexivity|intros _; eexists; split; [reflexivity|exact I]].
Qed.

Lemma uploadFiles_stops sid fs r :
  stops_at failed winding_down (fun _ => True)
    (SSH.uploadFiles X sid fs r).
Proof.
  intros st. unfold SSH.uploadFiles, SSH.this. run.
  destruct (nth_error (sessions st) sid) as [o|]; run;
    [|split; [reflexivity|discriminate]].
  destruct (connected o); cbn [negb]; run; [|split; [reflexivity|discriminate]].
  destruct fs as [fl|]; run; [|split; [reflexivity|discriminate]].
  destruct (x_putFiles X sid _ (world st)) as [[u|e] w']; run.
  - split; [reflexivity|discriminate].
  - split; [reflexivity|intros _; eexists; split; [reflexivity|exact I]].
Qed.

Lemma connect_stops sid :
  stops_at failed winding_down (fun _ => True)
    (SSH.connect X sid).
Proof.
  intros st. unfold SSH.connect, SSH.this, SSH.set_connected. run.
  destruct (nth_error (sessions st) sid) as [o|]; run;
    [|split; [reflexivity|discriminate]].
  destruct (x_sshConnect X sid (ssh_config o) (world st)) as [[u|e] w']; run.
  - split; [reflexivity|discriminate].
  - split; [reflexivity|intros _; eexists; split; [reflexivity|exact I]].
Qed.

(** One step of a proof that a computation stops at a failure. *)
Ltac stops_step :=
  lazymatch goal with
  | |- stops_at _ _ _ (bind _ _) => apply stops_bind; [|intros]
  | |- stops_at _ _ _ (try_catch _ _) =>
      apply stops_rethrow; [|intros; only_tac|intros; reflexivity]
  | |- stops_at _ _ _ (when _ _) => apply stops_when
  | |- stops_at _ _ _ (SSH.exec _ _ _ _) => apply exec_stops
  | |- stops_at _ _ _ (SSH.uploadDirectory _ _ _ _) => apply uploadDirectory_stops
  | |- stops_at _ _ _ (SSH.uploadFiles _ _ _ _) => apply uploadFiles_stops
  | |- stops_at _ _ _ (SSH.connect _ _) => apply connect_stops
  | |- stops_at _ _ _ (if ?b then _ else _) => destruct b
  | |- stops_at _ _ _ _ => apply stops_only; only_tac
  end.

Lemma backup_stops ssh config :
  stops_at failed winding_down (fun _ => True)
    (Deploy.backupCurrentVersion X ssh config).
Proof. unfold Deploy.backupCurrentVersion. repeat stops_step. Qed.

Lemma upload_stops ssh config :
  stops_at failed winding_down (fun _ => True)
    (Deploy.uploadFiles X ssh config).
Proof. unfold Deploy.uploadFiles. repeat stops_step. Qed.

Lemma install_stops ssh config :
  stops_at failed winding_down (fun _ => True)
    (Deploy.installAndBuild X ssh config).
Proof. unfold Deploy.installAndBuild. repeat stops_step. Qed.

Lemma restart_stops ssh config :
  stops_at failed winding_down (fun _ => True)
    (Deploy.restartService X ssh config).
Proof. unfold Deploy.restartService. repeat stops_step. Qed.

Lemma verify_winds ssh config :
  winds_down failed winding_down (Deploy.verifyDeployment X ssh config).
Proof.
  unfold Deploy.verifyDeployment.
  apply winds_bind with (R := fun _ => True); [stops_step|intros _].
  apply winds_catch; [|intros; only_tac].
  apply winds_stops with (R := fun _ => True). repeat stops_step.
Qed.

Lemma stages_wind ssh config :
  winds_down failed winding_down (stages X ssh config).
Proof.
  unfold stages.
  apply winds_bind with (R := fun _ => True); [apply backup_stops|intros _].
  apply winds_bind with (R := fun _ => True); [apply upload_stops|intros _].
  apply winds_bind with (R := fun _ => True); [apply install_stops|intros _].
  apply winds_bind with (R := fun _ => True); [apply restart_stops|intros _].
  apply verify_winds.
Qed.

Lemma execute_winds config branch env :
  winds_down failed winding_down (Deploy.executeDeployment X config branch env).
Proof.
  unfold Deploy.executeDeployment.
  apply winds_bind with (R := fun _ => True); [stops_step|intros _].
  apply winds_finally.
  - apply winds_bind with (R := fun _ => True).
    { apply stops_only. apply keeps_only with (allowed := local_only).
      - apply buildProject_keeps; [repeat split|reflexivity|reflexivity].
      - intros [] He; try discriminate He; reflexivity. }
    intros _.
    apply winds_bind with (R := fun _ => True).
    { apply stops_only. apply only_new. reflexivity. }
    intros ssh.
    apply winds_bind with (R := fun _ => True); [stops_step|intros _].
    apply winds_bind with (R := fun _ => True); [apply connect_stops|intros _].
    apply stages_wind.
  - apply only_bind; [apply only_get_ssh_var|intros [ssh|]].
    + apply only_disconnect; reflexivity.
    + apply only_ret.
Qed.

Lemma deploy_winds options :
  winds_down failed winding_down (Deploy.deployProject X options).
Proof.
  unfold Deploy.deployProject. cbv zeta.
  assert (Hlocal : forall A (m : M W A), keeps local_only m ->
                     stops_at failed winding_down (fun _ => True) m).
  { intros A m Hk. apply stops_only. apply keeps_only with (allowed := local_only);
      [exact Hk|]. intros [] He; try discriminate He; reflexivity. }
  assert (Hr : reports_ok local_only) by (repeat split).
  apply winds_bind with (R := fun _ => True); [stops_step|intros _].
  apply winds_bind with (R := fun _ => True); [stops_step|intros _].
  apply winds_bind with (R := fun _ => True).
  { apply Hlocal. pose proof (@validateEnvironment_keeps W X local_only).
    keeps_tac. }
  intros _.
  apply winds_bind with (R := fun _ => True).
  { apply Hlocal. apply loadConfig_keeps. reflexivity. }
  intros [config|]; [|apply winds_stops with (R := fun _ => True); stops_step].
  apply winds_bind with (R := fun _ => True).
  { apply Hlocal. apply checkGitStatus_keeps; auto. }
  intros _.
  apply winds_bind with (R := fun _ => True).
  { apply Hlocal. apply keeps_when. apply confirmDeployment_keeps; auto. }
  intros _.
  destruct (match Deploy.opt_dryRun options with Some b => b | None => false end).
  - apply winds_stops with (R := fun _ => True). apply Hlocal.
    apply keeps_bind; [keeps_tac|intros _]. apply simulateDeployment_keeps.
    repeat split.
  - apply winds_then; [apply execute_winds|intros _]. only_tac.
Qed.
End FailFast.

(** Once a call of the remote host has failed (a connection that is
    refused, a command that throws or exits with a non-zero status, a
    transfer that throws), a deployment opens no session, runs no command
    on the host and transfers no file any more: what follows the failure is
    reports and the release of the session.  This holds for every run of
    [executeDeployment] and of [deployProject], whatever the host answers. *)
Theorem deployment_stops_at_first_failure {W} (X : Externals W)
  (options : Deploy.Options) (config : ServerConfig) (branch env : string)
  (st : State W) :
  halts failed winding_down
    (events_of (Deploy.executeDeployment X config branch env st)) = true /\
  halts failed winding_down (events_of (Deploy.deployProject X options st)) = true.
Proof.
  split; [apply execute_winds | apply deploy_winds].
Qed.

(** ** A declined confirmation *)

Lemma winds_only {W A} trigger rest (m : M W A) :
  only rest m -> winds_down trigger rest m.
Proof.
  intros H st. specialize (H st). induction (events_of (m st)) as [|e l IH];
    cbn in *; [reflexivity|].
  apply andb_prop in H as [H1 H2]. destruct (trigger e); auto.
Qed.

(** A trace in which everything after a refusal is a report, and nothing
    after a remote event is a prompt, holds no remote event when it holds a
    refusal. *)
Lemma declined_means_local l :
  halts declined is_report l = true ->
  halts remote_event (fun e => negb (is_prompt e)) l = true ->
  existsb declined l = true ->
  forallb (fun e => negb (remote_event e)) l = true.
Proof.
  induction l as [|e l IH]; cbn [halts existsb forallb]; [reflexivity|].
  intros H1 H2 H3. destruct (declined e) eqn:Ed.
  - assert (He : remote_event e = false) by (destruct e; try discriminate Ed; reflexivity).
    rewrite He. cbn [negb andb]. revert H1. apply forallb_weaken.
    intros x Hx. destruct x; try discriminate Hx; reflexivity.
  - cbn [orb] in H3. destruct (remote_event e) eqn:Er.
    + exfalso. apply existsb_exists in H3 as (x & Hin & Hx).
      apply (forallb_In _ _ _ H2) in Hin.
      destruct x; try discriminate Hx. discriminate Hin.
    + cbn [negb andb]. auto.
Qed.

Section Declined.
Context {W : Type} (X : Externals W).

(** A question whose refusal is thrown as the cancellation. *)
Lemma ask_stops name (before : M W unit) :
  only (fun e => negb (declined e)) before ->
  stops_at declined is_report cancelled
    (before ;;
     answer <- extern (x_prompt X name) (EvPrompt name) ;;
     if negb answer then throw (Error "部署已取消") else ret tt).
Proof.
  intros Hb. apply stops_bind; [apply stops_only; exact Hb|intros _].
  intros st. run. destruct (x_prompt X name (world st)) as [[|] w']; run.
  - split; [reflexivity|discriminate].
  - split; [reflexivity|]. intros _. eexists. split; reflexivity.
Qed.

Lemma checkGitStatus_stops branch force :
  stops_at declined is_report cancelled (Deploy.checkGitStatus X branch force).
Proof.
  unfold Deploy.checkGitStatus.
  apply stops_bind; [apply stops_only; only_tac|intros _].
  apply stops_rethrow; [|intros; only_tac|intros; reflexivity].
  apply stops_bind; [apply stops_only; local_parts; only_tac|intros currentBranch].
  apply stops_bind; [apply stops_only; local_parts; only_tac|intros gitStatus].
  apply stops_bind.
  { apply stops_when. apply ask_stops. only_tac. }
  intros _. apply stops_only. local_parts. only_tac.
Qed.

Lemma confirmDeployment_stops env branch config :
  stops_at declined is_report cancelled (Deploy.confirmDeployment X env branch config).
Proof.
  unfold Deploy.confirmDeployment.
  do 4 (apply stops_bind; [apply stops_only; only_tac|intros _]).
  apply ask_stops. only_tac.
Qed.

Lemma deploy_stops_declined options :
  stops_at declined is_report cancelled (Deploy.deployProject X options).
Proof.
  unfold Deploy.deployProject. cbv zeta.
  do 3 (apply stops_bind; [apply stops_only; local_parts; only_tac|intros _]).
  apply stops_bind; [apply stops_only; local_parts; only_tac|intros [config|]];
    [|apply stops_only; only_tac].
  apply stops_bind; [apply checkGitStatus_stops|intros _].
  apply stops_bind; [apply stops_when; apply confirmDeployment_stops|intros _].
  apply stops_only.
  destruct (match Deploy.opt_dryRun options with Some b => b | None => false end).
  - local_parts. only_tac.
  - apply only_bind; [|intros _; only_tac].
    apply executeDeployment_only. intros [] He; try discriminate He; reflexivity.
Qed.

(** From the first remote event on, [deployProject] asks nothing. *)
Lemma deploy_asks_first options :
  winds_down remote_event (fun e => negb (is_prompt e)) (Deploy.deployProject X options).
Proof.
  unfold Deploy.deployProject. cbv zeta.
  assert (Hlocal : forall A (m : M W A), keeps local_only m ->
                     stops_at remote_event (fun e => negb (is_prompt e))
                       (fun _ => True) m).
  { intros A m Hk. apply stops_only. apply keeps_only with (allowed := local_only);
      [exact Hk|]. intros e He. unfold remote_event. exact He. }
  assert (Hr : reports_ok local_only) by (repeat split).
  do 2 (apply winds_bind with (R := fun _ => True);
        [apply stops_only; only_tac|intros _]).
  apply winds_bind with (R := fun _ => True).
  { apply Hlocal. pose proof (@validateEnvironment_keeps W X local_only).
    keeps_tac. }
  intros _.
  apply winds_bind with (R := fun _ => True).
  { apply Hlocal. apply loadConfig_keeps. reflexivity. }
  intros [config|]; [|apply winds_only; only_tac].
  apply winds_bind with (R := fun _ => True).
  { apply Hlocal. apply checkGitStatus_keeps; auto. }
  intros _.
  apply winds_bind with (R := fun _ => True).
  { apply Hlocal. apply keeps_when. apply confirmDeployment_keeps; auto. }
  intros _. apply winds_only.
  destruct (match Deploy.opt_dryRun options with Some b => b | None => false end).
  - local_parts. only_tac.
  - apply only_bind; [|intros _; only_tac].
    apply executeDeployment_only. intros [] He; try discriminate He; reflexivity.
Qed.
End Declined.

(** When the operator answers no, to the confirmation of the deployment or
    to going on with uncommitted changes, [deployProject] throws '部署已取消'
    (deployment cancelled); the whole run holds no event of a remote
    session, and all that follows the refusal is output on the console and
    the spinner: no branch is checked out, nothing is pulled. *)
Theorem declined_deploy_is_cancelled {W} (X : Externals W)
  (options : Deploy.Options) (st : State W) :
  let o := Deploy.deployProject X options st in
  existsb declined (events_of o) = true ->
  result_of o = Throw (Error "部署已取消") /\
  forallb (fun e => negb (remote_event e)) (events_of o) = true /\
  halts declined is_report (events_of o) = true.
Proof.
  intros o Hd. subst o.
  destruct (deploy_stops_declined X options st) as (Hh & Hres).
  destruct (Hres Hd) as (e & He & Hc). unfold cancelled in Hc. subst e.
  split; [exact He|]. split; [|exact Hh].
  apply declined_means_local; [exact Hh| |exact Hd].
  apply deploy_asks_first.
Qed.

Lemma declined_deploy_is_cancelled_witness :
  let o := Deploy.deployProject (world_of hesitant) asking_options start in
  result_of o = Throw (Error "部署已取消") /\
  forallb (fun e => negb (remote_event e)) (events_of o) = true /\
  halts declined is_report (events_of o) = true.
Proof.
  apply (declined_deploy_is_cancelled (world_of hesitant) asking_options start).
  vm_compute. reflexivity.
Defined.

(** ** Nothing remote before the pull *)

Section Gates.
Variables gate bad : Event -> bool.

Lemma gated_app_clean l1 l2 :
  forallb (fun e => negb (bad e)) l1 = true -> gated gate bad l2 = true ->
  gated gate bad (l1 ++ l2) = true.
Proof.
  induction l1 as [|e l1 IH]; cbn; [auto|].
  intros H1 H2. apply andb_prop in H1 as [Hb H1].
  destruct (gate e); [reflexivity|]. rewrite Hb. cbn. auto.
Qed.

Lemma gated_app_passed l1 l2 :
  gated gate bad l1 = true -> existsb gate l1 = true ->
  gated gate bad (l1 ++ l2) = true.
Proof.
  induction l1 as [|e l1 IH]; cbn; [discriminate|].
  destruct (gate e); [reflexivity|]. cbn.
  intros H1 H2. apply andb_prop in H1 as [Hb H1]. rewrite Hb. cbn. auto.
Qed.

Lemma gated_app_quiet l1 l2 :
  gated gate bad l1 = true -> forallb (fun e => negb (bad e)) l2 = true ->
  gated gate bad (l1 ++ l2) = true.
Proof.
  induction l1 as [|e l1 IH]; cbn.
  - intros _ H. rewrite <- (app_nil_r l2). apply gated_app_clean; [exact H|reflexivity].
  - destruct (gate e); [reflexivity|].
    intros H1 H2. apply andb_prop in H1 as [Hb H1]. rewrite Hb. cbn. auto.
Qed.

(** What [gated] says of an event of the trace. *)
Lemma gated_before l pre e post :
  (forall x, gate x = true -> bad x = false) ->
  gated gate bad l = true -> l = (pre ++ e :: post)%list -> bad e = true ->
  existsb gate pre = true.
Proof.
  intros Hx H -> Hb. induction pre as [|x pre IH]; cbn in *.
  - destruct (gate e) eqn:Eg.
    + rewrite (Hx e Eg) in Hb. discriminate.
    + rewrite Hb in H. discriminate.
  - destruct (gate x); [reflexivity|]. apply andb_prop in H as [_ H]. auto.
Qed.

Context {W : Type}.

Lemma passes_after {A B} (m : M W A) (f : A -> M W B) :
  only (fun e => negb (bad e)) m -> (forall a, passes gate bad (f a)) ->
  passes gate bad (bind m f).
Proof.
  intros Hm Hf st. specialize (Hm st). rewrite bind_run.
  destruct (m st) as [[[a|e] st1] ev1]; cbn in Hm |- *.
  - destruct (Hf a st1) as (F1 & F2).
    destruct (f a st1) as [[r st2] ev2]; cbn in F1, F2 |- *.
    split; [apply gated_app_clean; assumption|].
    intros Hok. rewrite existsb_app, (F2 Hok). apply Bool.orb_true_r.
  - split; [|discriminate].
    rewrite <- (app_nil_r ev1). apply gated_app_clean; [exact Hm|reflexivity].
Qed.

Lemma passes_then {A B} (m : M W A) (f : A -> M W B) :
  passes gate bad m -> passes gate bad (bind m f).
Proof.
  intros Hm st. destruct (Hm st) as (H1 & H2). rewrite bind_run.
  destruct (m st) as [[[a|e] st1] ev1]; cbn in H1, H2 |- *.
  - destruct (f a st1) as [[r st2] ev2]; cbn.
    split; [apply gated_app_passed; auto|].
    intros _. rewrite existsb_app, (H2 eq_refl). reflexivity.
  - split; [exact H1|discriminate].
Qed.

Lemma passes_rethrow {A} (m : M W A) (h : JsError -> M W A) :
  passes gate bad m ->
  (forall e, only (fun ev => negb (bad ev)) (h e)) ->
  (forall e st, is_ok (result_of (h e st)) = false) ->
  passes gate bad (try_catch m h).
Proof.
  intros Hm Hh Hre st. destruct (Hm st) as (H1 & H2). unfold try_catch.
  destruct (m st) as [[[a|e] st1] ev1]; cbn in H1, H2 |- *; [split; assumption|].
  specialize (Hh e st1). specialize (Hre e st1).
  destruct (h e st1) as [[r st2] ev2]; cbn in Hh, Hre |- *.
  split; [apply gated_app_quiet; assumption|].
  intros Hok. rewrite Hok in Hre. discriminate.
Qed.

(** Whatever follows a part that passes the gate. *)
Lemma gated_then {A B} (m : M W A) (f : A -> M W B) st :
  passes gate bad m -> gated gate bad (events_of (bind m f st)) = true.
Proof.
  intros Hm. destruct (Hm st) as (H1 & H2). rewrite bind_run.
  destruct (m st) as [[[a|e] st1] ev1]; cbn in H1, H2 |- *; [|exact H1].
  destruct (f a st1) as [[r st2] ev2]; cbn. apply gated_app_passed; auto.
Qed.

Lemma gated_after {A B} (m : M W A) (f : A -> M W B) st :
  only (fun e => negb (bad e)) m ->
  (forall a st1, gated gate bad (events_of (f a st1)) = true) ->
  gated gate bad (events_of (bind m f st)) = true.
Proof.
  intros Hm Hf. specialize (Hm st). rewrite bind_run.
  destruct (m st) as [[[a|e] st1] ev1]; cbn in Hm |- *.
  - specialize (Hf a st1). destruct (f a st1) as [[r st2] ev2]; cbn in Hf |- *.
    apply gated_app_clean; assumption.
  - rewrite <- (app_nil_r ev1). apply gated_app_clean; [exact Hm|reflexivity].
Qed.
End Gates.

Section Pull.
Context {W : Type} (X : Externals W).

Lemma pulled_not_remote branch e : pulled branch e = true -> remote_event e = false.
Proof. destruct e; try discriminate. reflexivity. Qed.

Lemma checkGitStatus_passes branch force :
  passes (pulled branch) remote_event (Deploy.checkGitStatus X branch force).
Proof.
  unfold Deploy.checkGitStatus.
  apply passes_after; [only_tac|intros _].
  apply passes_rethrow; [|intros; only_tac|intros; reflexivity].
  apply passes_after; [local_parts; only_tac|intros currentBranch].
  apply passes_after; [local_parts; only_tac|intros gitStatus].
  apply passes_after; [only_tac|intros _].
  apply passes_after; [local_parts; only_tac|intros _].
  apply passes_after; [only_tac|intros _].
  apply passes_then.
  intros st. unfold Utils.execSync. run.
  destruct (x_execSync X ("git pull origin " ++ branch) (world st)) as [[out|e] w'];
    cbn [events_of result_of fst snd gated existsb pulled is_ok remote_event kind_of
         is_remote negb andb orb].
  - rewrite String.eqb_refl. split; reflexivity.
  - split; [reflexivity|discriminate].
Qed.

Lemma deploy_gated options st :
  gated (pulled (match Deploy.opt_branch options with Some b => b | None => "main" end))
        remote_event (events_of (Deploy.deployProject X options st)) = true.
Proof.
  unfold Deploy.deployProject. cbv zeta.
  do 3 (apply gated_after; [local_parts; only_tac|intros _ ?]).
  apply gated_after; [local_parts; only_tac|intros [config|] ?].
  - apply gated_then. apply checkGitStatus_passes.
  - reflexivity.
Qed.
End Pull.

(** [deployProject] touches no remote session before [git pull origin
    <branch>] has run and succeeded: every event of a remote session in a
    run (a session object, a connection, a command, a transfer, the
    release) comes after a successful pull of the branch to deploy, which
    is 'main' when no branch is given. *)
Theorem remote_only_after_pull {W} (X : Externals W) (options : Deploy.Options)
  (st : State W) :
  let branch := match Deploy.opt_branch options with Some b => b | None => "main" end in
  let evs := events_of (Deploy.deployProject X options st) in
  gated (pulled branch) remote_event evs = true /\
  (forall pre e post,
      evs = (pre ++ e :: post)%list -> remote_event e = true ->
      exists out, In (EvExecSync ("git pull origin " ++ branch) (Ok out)) pre).
Proof.
  intros branch evs. split; [apply deploy_gated|].
  intros pre e post Hevs He.
  assert (Hex : existsb (pulled branch) pre = true).
  { eapply gated_before with (l := evs);
      [apply pulled_not_remote | apply deploy_gated | exact Hevs | exact He]. }
  apply existsb_exists in Hex as (x & Hin & Hx).
  destruct x; try discriminate Hx. destruct res as [out|]; [|discriminate Hx].
  cbn in Hx. apply String.eqb_eq in Hx. subst cmd. eauto.
Qed.

(** ** The session of the logs command *)

Section LogSession.
Context {W : Type} (X : Externals W).

Lemma fileExists_only P sid path :
  (forall t, P (EvConsoleLog t) = true) ->
  (forall s c w r, P (EvExecCommand s c w r) = true) ->
  only P (SSH.fileExists X sid path).
Proof.
  intros H1 H2. unfold SSH.fileExists.
  apply only_try_catch; [|intros; apply only_ret].
  apply only_bind; [apply only_exec; auto|intros; apply only_ret].
Qed.

Lemma find_log_only P sid follow lines paths :
  (forall t, P (EvConsoleLog t) = true) ->
  (forall s c w r, P (EvExecCommand s c w r) = true) ->
  only P (Utils.find_log X sid follow lines paths).
Proof.
  intros H1 H2. induction paths as [|p paths IH]; cbn [Utils.find_log];
    [apply only_ret|].
  apply only_bind; [apply fileExists_only; assumption|intros [|]]; [|exact IH].
  only_tac.
Qed.

Lemma find_log_keeps allowed sid follow lines paths :
  allowed KConsole = true -> allowed KExec = true ->
  keeps allowed (Utils.find_log X sid follow lines paths).
Proof.
  intros H1 H2. induction paths as [|p paths IH]; cbn [Utils.find_log];
    [apply keeps_ret|].
  apply keeps_bind; [apply fileExists_keeps; assumption|intros [|]]; [|exact IH].
  keeps_tac.
Qed.

Lemma find_log_total sid follow lines paths (st : State W) :
  is_ok (result_of (Utils.find_log X sid follow lines paths st)) = true.
Proof.
  revert st. induction paths as [|p paths IH]; intros st; cbn [Utils.find_log];
    [reflexivity|].
  rewrite bind_run.
  pose proof (try_catch_total
                (result <- SSH.exec X sid
                             ("test -f " ++ dquote ++ p ++ dquote ++ " && echo " ++ dquote
                              ++ "exists" ++ dquote ++ " || echo " ++ dquote
                              ++ "not_exists" ++ dquote) None ;;
                 ret (String.eqb (trim result) "exists"))
                (fun _ => ret false) st (fun _ _ => eq_refl)) as Ht.
  fold (SSH.fileExists X sid p) in Ht.
  destruct (SSH.fileExists X sid p st) as [[[[|]|e] st1] ev1]; [| |discriminate Ht].
  - reflexivity.
  - specialize (IH st1).
    destruct (Utils.find_log X sid follow lines paths st1) as [[[c|e] st2] ev2];
      [reflexivity|discriminate IH].
Qed.

Lemma exec_events_uneventful sid cmd cwd res :
  forallb uneventful (exec_events sid cmd cwd res) = true.
Proof.
  unfold exec_events. cbn. destruct res as [r|e]; [|reflexivity].
  destruct (exec_ok (Ok r) && negb (String.eqb (stdout r) EmptyString)); reflexivity.
Qed.

(** Inside the session: the connection is closed, as the last thing, exactly
    when the part returns normally; when it throws, the session is left
    open. *)
Lemma print_log_spec sid config lines (st : State W) :
  nth_error (sessions st) sid = Some (open_session config) ->
  let o := print_log X sid config lines st in
  (exists pre,
      forallb uneventful pre = true /\
      events_of o =
        (pre ++ (if is_ok (result_of o) then release_events sid else []))%list) /\
  nth_error (sessions (state_of o)) sid =
    Some (if is_ok (result_of o) then fresh_session config else open_session config).
Proof.
  intros Ho o. subst o. unfold print_log.
  set (paths := [tmpl (deployPath config) ++ "/logs/app.log";
                 tmpl (deployPath config) ++ "/app.log";
                 "/var/log/nginx/access.log"; "/var/log/nginx/error.log"]).
  rewrite bind_run.
  pose proof (find_log_total sid false lines paths st) as Htot.
  pose proof (@find_log_keeps no_lifecycle sid false lines paths eq_refl eq_refl st)
    as (Hs & _ & _).
  pose proof (@find_log_only uneventful sid false lines paths
                (fun _ => eq_refl) (fun _ _ _ _ => eq_refl) st) as He.
  destruct (Utils.find_log X sid false lines paths st) as [[[cmd|e] st3] ev3];
    [|discriminate Htot].
  cbn [state_of events_of fst snd] in Hs, He.
  assert (Ho3 : nth_error (sessions st3) sid = Some (open_session config))
    by (rewrite Hs; exact Ho).
  assert (Hoff : nth_error
                   (update_nth sid
                      (fun o => {| ssh_config := ssh_config o; connected := false |})
                      (sessions st3)) sid = Some (fresh_session config)).
  { apply update_nth_nth_error with (f := fun o => {| ssh_config := ssh_config o;
                                                      connected := false |}) in Ho3.
    exact Ho3. }
  destruct (String.eqb cmd EmptyString).
  - run. rewrite (disconnect_run X sid st3 Ho3). cbn [connected open_session].
    cbn [result_of state_of events_of fst snd is_ok].
    split; [|cbn [sessions]; exact Hoff].
    exists (ev3 ++ [EvConsoleLog "未找到日志文件"])%list.
    rewrite forallb_app, He, <- app_assoc. split; reflexivity.
  - rewrite bind_run. rewrite (exec_run X sid cmd None st3 Ho3 eq_refl). cbv zeta.
    set (cwd := js_or None (deployPath (ssh_config (open_session config)))).
    set (res := fst (x_execCommand X sid cmd cwd (world st3))).
    pose proof (exec_events_uneventful sid cmd cwd res) as Hx.
    destruct (exec_out res) as [logs|e].
    + run.
      match goal with
      | |- context [SSH.disconnect X sid ?s] =>
          rewrite (disconnect_run X sid s (o := open_session config) Ho3)
      end.
      cbn [connected open_session].
      cbn [result_of state_of events_of fst snd is_ok world sessions ssh_var].
      split; [|cbn [sessions]; exact Hoff].
      exists (ev3 ++ exec_events sid cmd cwd res ++ [EvConsoleLog logs])%list.
      rewrite !forallb_app, He, Hx, <- !app_assoc. split; reflexivity.
    + cbn [result_of state_of events_of fst snd is_ok sessions].
      split; [|exact Ho3].
      exists (ev3 ++ exec_events sid cmd cwd res)%list.
      rewrite forallb_app, He, Hx, app_nil_r. split; reflexivity.
Qed.

(** The session of [showLogs]: constructed, connected, used. *)
Lemma logs_session_run config lines (st : State W) :
  let sid := length (sessions st) in
  let inside :=
    {| world := snd (x_sshConnect X sid config (world st));
       sessions := (sessions st ++ [open_session config])%list;
       ssh_var := ssh_var st |} in
  (ssh <- SSH.new config ;; SSH.connect X ssh ;; print_log X ssh config lines) st =
    match fst (x_sshConnect X sid config (world st)) with
    | Ok u =>
        (result_of (print_log X sid config lines inside),
         state_of (print_log X sid config lines inside),
         (connect_events sid config (Ok u)
          ++ events_of (print_log X sid config lines inside))%list)
    | Throw e =>
        (Throw (Error ("SSH连接失败: " ++ message e)),
         {| world := snd (x_sshConnect X sid config (world st));
            sessions := (sessions st ++ [fresh_session config])%list;
            ssh_var := ssh_var st |},
         connect_events sid config (Throw e))
    end.
Proof.
  intros sid inside. subst inside.
  rewrite bind_run. unfold SSH.new. fold sid. rewrite bind_run.
  erewrite connect_run by (cbn [sessions]; apply nth_error_fresh).
  cbn [ssh_config world sessions ssh_var]. cbv zeta.
  destruct (x_sshConnect X sid config (world st)) as [[u|e] w']; cbn [fst snd].
  - subst sid. rewrite update_nth_fresh. cbn [ssh_config]. fold (open_session config).
    destruct (print_log X (length (sessions st)) config lines _) as [[r st4] ev4].
    reflexivity.
  - reflexivity.
Qed.
End LogSession.

Lemma uneventful_facts sid l :
  forallb uneventful l = true ->
  existsb is_console_error l = false /\
  count (is_dispose sid) l = 0 /\
  count (is_disconnect sid) l = 0 /\
  (forall r, ~ In (EvSshConnect sid r) l).
Proof.
  intros H.
  assert (Hl : forallb (fun e => no_lifecycle (kind_of e)) l = true).
  { revert H. apply forallb_weaken. intros e He. apply andb_prop in He as [He _].
    exact He. }
  destruct (lifecycle_free_disconnect sid _ Hl) as (H1 & H2).
  repeat split; try assumption.
  - apply clean_no_trigger. revert H. apply forallb_weaken.
    intros e He. apply andb_prop in He as [_ He]. exact He.
  - intros r. apply lifecycle_free_connect. exact Hl.
Qed.

(** An event that is none of those of a trace. *)
Ltac absurd_in N Hin :=
  lazymatch type of Hin with
  | In _ (_ ++ _)%list =>
      apply in_app_or in Hin; destruct Hin as [Hin|Hin]; absurd_in N Hin
  | In _ (_ :: _) =>
      destruct Hin as [Hin|Hin]; [discriminate Hin | absurd_in N Hin]
  | In _ [] => destruct Hin
  | In _ (connect_events _ _ _) => unfold connect_events in Hin; absurd_in N Hin
  | _ => exact (N _ Hin)
  end.

(** When the log is not followed and the connection of the session has
    succeeded, [showLogs] returns normally, and it closes the connection,
    once, exactly when it prints no error line: when the command that
    prints the log fails, the error is printed, [disconnect] is never
    called and the session is left connected. *)
Theorem logs_session_release {W} (X : Externals W) (options : Utils.LogOptions)
  (st : State W) :
  match Utils.log_follow options with Some b => b | None => false end = false ->
  let o := Logs.showLogs X options st in
  let sid := length (sessions st) in
  In (EvSshConnect sid (Ok tt)) (events_of o) ->
  let errored := existsb is_console_error (events_of o) in
  result_of o = Ok tt /\
  count (is_dispose sid) (events_of o) = (if errored then 0 else 1) /\
  count (is_disconnect sid) (events_of o) = (if errored then 0 else 1) /\
  exists config,
    nth_error (sessions (state_of o)) sid =
      Some (if errored then open_session config else fresh_session config).
Proof.
  intros Hfollow o sid Hin errored. subst o errored.
  split; [apply showLogs_total|].
  revert Hin. unfold Logs.showLogs. cbv zeta. rewrite Hfollow.
  set (env := Utils.log_env options).
  set (lines := match Utils.log_lines options with Some l => l | None => "50" end).
  rewrite bind_run. cbn [emit]. unfold try_catch. rewrite bind_run.
  pose proof (@loadConfig_keeps W X no_lifecycle env eq_refl st) as (Hs & _ & _).
  assert (He : forallb uneventful (events_of (Config.loadConfig X env st)) = true).
  { apply (@keeps_only W uneventful _ (fun k => is_lookup k)).
    - apply loadConfig_keeps. reflexivity.
    - intros [] Hk; try discriminate Hk; reflexivity. }
  destruct (Config.loadConfig X env st) as [[[[config|]|e] st1] ev1];
    cbn [state_of events_of fst snd] in Hs, He;
    destruct (uneventful_facts sid _ He) as (E1 & D1 & C1 & N1).
  - match goal with
    | |- context [bind (SSH.new config) ?k st1] =>
        change (bind (SSH.new config) k st1)
          with ((ssh <- SSH.new config ;; SSH.connect X ssh ;;
                 print_log X ssh config lines) st1)
    end.
    rewrite logs_session_run. cbv zeta. rewrite Hs. fold sid.
    destruct (x_sshConnect X sid config (world st1)) as [[u|e] w']; cbn [fst snd].
    + intros _.
      assert (Hopen : nth_error
                        (sessions {| world := w';
                                     sessions := (sessions st ++ [open_session config])%list;
                                     ssh_var := ssh_var st1 |}) sid
                      = Some (open_session config)) by apply nth_error_fresh.
      destruct (@print_log_spec W X sid config lines _ Hopen) as ((pre & Hpre & Hev) & Hfin).
      destruct (uneventful_facts sid _ Hpre) as (E2 & D2 & C2 & _).
      destruct (print_log X sid config lines _) as [[[[]|e] st4] ev4];
        cbn [result_of state_of events_of fst snd is_ok emit] in Hev, Hfin |- *;
        subst ev4.
      * clearbody sid.
        rewrite !existsb_app, !count_app, E1, E2, D1, D2, C1, C2.
        unfold count. cbn. rewrite Nat.eqb_refl. cbn.
        repeat split. exists config. exact Hfin.
      * clearbody sid.
        rewrite !existsb_app, !count_app, E1, E2, D1, D2, C1, C2.
        unfold count. cbn. rewrite ?Bool.orb_true_r.
        repeat split. exists config. exact Hfin.
    + intros Hin. exfalso. clearbody sid.
      cbn [events_of fst snd emit connect_events] in Hin. absurd_in N1 Hin.
  - intros Hin. exfalso. clearbody sid.
    cbn [events_of fst snd emit throw] in Hin. absurd_in N1 Hin.
  - intros Hin. exfalso. clearbody sid.
    cbn [events_of fst snd emit] in Hin. absurd_in N1 Hin.
Qed.

Lemma logs_session_release_witness :
  let o := Logs.showLogs (world_of tail_breaks) staging_logs start in
  result_of o = Ok tt /\
  count (is_dispose 0) (events_of o) = 0 /\
  count (is_disconnect 0) (events_of o) = 0 /\
  exists config, nth_error (sessions (state_of o)) 0 = Some (open_session config).
Proof.
  apply (logs_session_release (world_of tail_breaks) staging_logs start).
  - reflexivity.
  - vm_compute. do 5 right. left. reflexivity.
Defined.

(** ** Mappings of profiles *)

Lemma has_key_In name l : has_key name l = true <-> In name (Config.keys l).
Proof.
  unfold has_key, Config.keys. rewrite existsb_exists, in_map_iff. split.
  - intros (kv & Hin & Heq). apply String.eqb_eq in Heq. eauto.
  - intros (kv & Heq & Hin). exists kv. split; [exact Hin|].
    apply String.eqb_eq. exact Heq.
Qed.

Lemma has_key_not_In name l : has_key name l = false -> ~ In name (Config.keys l).
Proof.
  intros H Hin. apply has_key_In in Hin. rewrite Hin in H. discriminate.
Qed.

Lemma keys_replace name c l :
  Config.keys (servers_replace name c l) = Config.keys l.
Proof.
  unfold Config.keys. induction l as [|[k c'] l IH]; cbn; [reflexivity|].
  destruct (String.eqb k name); cbn; [reflexivity|]. rewrite IH. reflexivity.
Qed.

Lemma replace_In name c l k c' :
  In name (Config.keys l) ->
  NoDup (Config.keys l) ->
  In (k, c') (servers_replace name c l) <->
  (k = name /\ c' = c) \/ (k <> name /\ In (k, c') l).
Proof.
  induction l as [|[k0 c0] l IH]; cbn; [contradiction|].
  intros Hin Hnd. inversion Hnd as [|? ? Hk0 Hnd']; subst.
  destruct (String.eqb_spec k0 name) as [->|Hne].
  - cbn. split.
    + intros [Heq|Hl].
      * injection Heq as <- <-. auto.
      * right. split; [|auto]. intros ->. apply Hk0.
        apply (in_map fst) in Hl. exact Hl.
    + intros [[-> ->]|[Hne [Heq|Hl]]]; auto.
      injection Heq as Heq _. congruence.
  - destruct Hin as [Heq|Hin]; [congruence|].
    cbn. rewrite (IH Hin Hnd'). split.
    + intros [Heq|[H|[H1 H2]]]; auto.
      injection Heq as <- <-. auto.
    + intros [H|[H1 [Heq|H2]]]; auto.
Qed.

Lemma insert_index_In name c l x :
  In x (servers_insert_index name c l) <-> x = (name, c) \/ In x l.
Proof.
  induction l as [|[k c'] l IH]; cbn.
  - split; intros [H|H]; auto.
  - destruct (is_index k && (digits_value 0 k <? digits_value 0 name)%N); cbn.
    + rewrite IH. split; intros [H|[H|H]]; auto.
    + split; intros [H|[H|H]]; auto.
Qed.

Lemma keys_insert_index name c l k :
  In k (Config.keys (servers_insert_index name c l)) <-> k = name \/ In k (Config.keys l).
Proof.
  unfold Config.keys. rewrite !in_map_iff. split.
  - intros ([k' c'] & Heq & Hin). cbn in Heq. subst k'.
    apply insert_index_In in Hin as [Hin|Hin].
    + injection Hin as -> _. auto.
    + right. exists (k, c'). auto.
  - intros [->|([k' c'] & Heq & Hin)].
    + exists (name, c). split; [reflexivity|]. apply insert_index_In. auto.
    + exists (k', c'). split; [exact Heq|]. apply insert_index_In. auto.
Qed.

Lemma insert_index_NoDup name c l :
  ~ In name (Config.keys l) -> NoDup (Config.keys l) ->
  NoDup (Config.keys (servers_insert_index name c l)).
Proof.
  induction l as [|[k c'] l IH]; cbn.
  - intros _ _. constructor; [intros []|constructor].
  - intros Hn Hnd. inversion Hnd as [|? ? Hk Hnd']; subst.
    destruct (is_index k && (digits_value 0 k <? digits_value 0 name)%N); cbn.
    + constructor.
      * intros Hin. apply keys_insert_index in Hin as [->|Hin]; [|exact (Hk Hin)].
        apply Hn. left. reflexivity.
      * apply IH; [|exact Hnd']. intros Hin. apply Hn. right. exact Hin.
    + constructor; [exact Hn|exact Hnd].
Qed.

(** Assignment to a key that is not ["__proto__"], or is an own key: the
    mapping then has exactly the new entry and the other old entries. *)
Lemma servers_set_In name c l k c' :
  NoDup (Config.keys l) ->
  has_key name l = true \/ name <> "__proto__" ->
  In (k, c') (servers_set name c l) <->
  (k = name /\ c' = c) \/ (k <> name /\ In (k, c') l).
Proof.
  intros Hnd Hname. unfold servers_set.
  destruct (has_key name l) eqn:Hk.
  - apply replace_In; [apply has_key_In; exact Hk|exact Hnd].
  - pose proof (has_key_not_In _ _ Hk) as Hn.
    assert (Hother : In (k, c') l -> k <> name).
    { intros Hin ->. apply Hn. apply (in_map fst) in Hin. exact Hin. }
    destruct (String.eqb_spec name "__proto__") as [->|_].
    + destruct Hname as [H|H]; [discriminate H|congruence].
    + destruct (is_index name).
      * rewrite insert_index_In. split.
        -- intros [Heq|Hin]; [injection Heq as -> ->; auto|auto].
        -- intros [[-> ->]|[_ Hin]]; auto.
      * rewrite in_app_iff. cbn. split.
        -- intros [Hin|[Heq|[]]]; [auto|injection Heq as <- <-; auto].
        -- intros [[-> ->]|[_ Hin]]; auto.
Qed.

Lemma servers_set_NoDup name c l :
  NoDup (Config.keys l) -> NoDup (Config.keys (servers_set name c l)).
Proof.
  intros Hnd. unfold servers_set.
  destruct (has_key name l) eqn:Hk; [rewrite keys_replace; exact Hnd|].
  pose proof (has_key_not_In _ _ Hk) as Hn.
  destruct (String.eqb name "__proto__"); [exact Hnd|].
  destruct (is_index name); [apply insert_index_NoDup; assumption|].
  unfold Config.keys. rewrite map_app. cbn.
  apply NoDup_app; [exact Hnd|constructor; [intros []|constructor]|].
  intros x Hx [<-|[]]. exact (Hn Hx).
Qed.

Lemma servers_delete_In name l k c :
  In (k, c) (servers_delete name l) <-> k <> name /\ In (k, c) l.
Proof.
  unfold servers_delete. rewrite filter_In. cbn. split.
  - intros [Hin Hne]. split; [|exact Hin]. intros ->.
    rewrite String.eqb_refl in Hne. discriminate.
  - intros [Hne Hin]. split; [exact Hin|].
    destruct (String.eqb_spec k name); [contradiction|reflexivity].
Qed.

Lemma servers_delete_NoDup name l :
  NoDup (Config.keys l) -> NoDup (Config.keys (servers_delete name l)).
Proof.
  induction l as [|[k c] l IH]; cbn; [auto|].
  intros Hnd. inversion Hnd as [|? ? Hk Hnd']; subst.
  destruct (String.eqb k name); cbn; [auto|].
  constructor; [|auto]. intros Hin. apply Hk.
  unfold Config.keys in *. apply in_map_iff in Hin as ([k' c'] & Heq & Hin).
  cbn in Heq. subst k'. apply (servers_delete_In name l k c') in Hin as [_ Hin].
  apply (in_map fst) in Hin. exact Hin.
Qed.

(** ** The configuration on a disk *)

Lemma disk_read_write_same p c files : disk_read p (disk_write p c files) = Some c.
Proof.
  induction files as [|[q c'] files IH]; cbn.
  - rewrite String.eqb_refl. reflexivity.
  - destruct (String.eqb q p) eqn:E; cbn; rewrite E; [reflexivity|exact IH].
Qed.

Lemma disk_read_write_other p p' c files :
  p' <> p -> disk_read p' (disk_write p c files) = disk_read p' files.
Proof.
  intros Hne. induction files as [|[q c'] files IH]; cbn.
  - destruct (String.eqb_spec p p'); [congruence|reflexivity].
  - destruct (String.eqb_spec q p) as [->|Hq]; cbn.
    + destruct (String.eqb_spec p p'); [congruence|reflexivity].
    + rewrite IH. reflexivity.
Qed.

Section OnDisk.
Variable load : string -> JsResult (option ServersDoc).
Variable dump : ServersDoc -> JsResult string.

(** [saveServerConfig] on a disk whose servers file holds [l]: the file is
    rewritten with the dump of the mapping with the new entry. *)
Lemma save_run d l name config text :
  stored load d l ->
  dump {| servers := Some (servers_set name config l) |} = Ok text ->
  exists evs,
    Manager.saveServerConfig (disk_externals load) (disk_fileops dump) name config
      (on_disk d) = (Ok tt, on_disk (rewritten text d), evs).
Proof.
  unfold stored. intros Hst Hd. unfold Manager.saveServerConfig. run.
  cbn [x_pathExists x_serversFile disk_externals on_disk world fst snd].
  destruct (disk_read disk_servers_file (disk_files d)) as [text0|] eqn:Hr.
  - run. cbn [x_readFile x_yamlLoad disk_externals world fst snd]. rewrite Hr. run.
    destruct (load text0) as [doc|e]; [|contradiction]. run. rewrite Hst.
    cbn [f_yamlDump disk_fileops]. rewrite Hd. run. unfold perform.
    cbn [f_writeFile disk_fileops world sessions ssh_var result_of state_of fst snd].
    eexists. reflexivity.
  - subst l. run. cbn [servers f_yamlDump disk_fileops]. rewrite Hd. run.
    unfold perform.
    cbn [f_writeFile disk_fileops world sessions ssh_var result_of state_of fst snd].
    eexists. reflexivity.
Qed.

(** [loadConfig] on a disk whose servers file parses to the mapping [l]. *)
Lemma load_run d text l env :
  disk_read disk_servers_file (disk_files d) = Some text ->
  load text = Ok (Some {| servers := Some l |}) ->
  result_of (Config.loadConfig (disk_externals load) env (on_disk d)) =
    match find (Config.matches env l) (Config.keys l) with
    | Some name =>
        if String.eqb name EmptyString then Throw (Config.not_found env)
        else Ok (Config.servers_get name l)
    | None => Throw (Config.not_found env)
    end.
Proof.
  intros Hr Hl.
  erewrite (@loadConfig_run Disk (disk_externals load) env (on_disk d) d text d l).
  - reflexivity.
  - cbn. rewrite Hr. reflexivity.
  - cbn. rewrite Hr. reflexivity.
  - exact Hl.
Qed.

(** The first match of a mapping in which only the entry [name] matches. *)
Lemma only_match_is_found env l name c :
  NoDup (Config.keys l) -> In (name, c) l ->
  includes name env || Config.strict_eq (environment c) env = true ->
  (forall k c', In (k, c') l -> k <> name ->
                includes k env || Config.strict_eq (environment c') env = false) ->
  find (Config.matches env l) (Config.keys l) = Some name /\
  Config.servers_get name l = Some c.
Proof.
  intros Hnd Hin Hm Hothers.
  destruct (in_split _ _ Hin) as (l1 & l2 & Hl).
  apply (@find_first_match env l l1 name c l2 Hnd Hl Hm).
  intros k c' Hin1. apply Hothers.
  - rewrite Hl. apply in_or_app. left. exact Hin1.
  - intros ->. rewrite Hl in Hnd. unfold Config.keys in Hnd.
    rewrite map_app in Hnd. cbn in Hnd. apply NoDup_remove_2 in Hnd.
    apply Hnd. apply in_or_app. left. apply (in_map fst) in Hin1. exact Hin1.
Qed.
End OnDisk.

(** A server that was saved is the one loaded for its environment: after
    [saveServerConfig(name, config)] on a servers file with distinct names,
    where [name] is neither empty nor ['__proto__'], [config] matches [env]
    (by the name or by its environment field) and no other server of the
    file does, [loadConfig(env)] returns [config], given a YAML codec that
    reads back the document it wrote.  The servers file then holds the
    dumped text, whether the file existed before or not. *)
Theorem saved_server_is_loaded (load : string -> JsResult (option ServersDoc))
  (dump : ServersDoc -> JsResult string) (d : Disk) (l : Servers)
  (name : string) (config : ServerConfig) (env text : string) :
  stored load d l ->
  NoDup (Config.keys l) ->
  dump {| servers := Some (servers_set name config l) |} = Ok text ->
  load text = Ok (Some {| servers := Some (servers_set name config l) |}) ->
  name <> EmptyString -> name <> "__proto__" ->
  includes name env || Config.strict_eq (environment config) env = true ->
  (forall k c, In (k, c) l -> k <> name ->
               includes k env || Config.strict_eq (environment c) env = false) ->
  let o :=
    and_then
      (Manager.saveServerConfig (disk_externals load) (disk_fileops dump) name config)
      (Config.loadConfig (disk_externals load) env) (on_disk d) in
  result_of o = Ok (Some config) /\
  disk_read disk_servers_file (disk_files (world (state_of o))) = Some text.
Proof.
  intros Hst Hnd Hd Hl Hne Hproto Hm Hothers o. subst o.
  destruct (@save_run load dump d l name config text Hst Hd) as (evs & Hsave).
  unfold and_then. rewrite bind_run, Hsave.
  assert (Hr : disk_read disk_servers_file (disk_files (rewritten text d)) = Some text)
    by apply disk_read_write_same.
  pose proof (@load_run load (rewritten text d) text _ env Hr Hl) as Hload.
  assert (Hw : world (state_of (Config.loadConfig (disk_externals load) env
                                  (on_disk (rewritten text d)))) = rewritten text d).
  { erewrite (@loadConfig_run Disk (disk_externals load) env (on_disk (rewritten text d))
                (rewritten text d) text (rewritten text d) _).
    - reflexivity.
    - cbn. rewrite disk_read_write_same. reflexivity.
    - cbn. rewrite disk_read_write_same. reflexivity.
    - exact Hl. }
  destruct (Config.loadConfig (disk_externals load) env (on_disk (rewritten text d)))
    as [[r st2] ev2].
  cbn [result_of state_of fst snd] in Hload, Hw |- *. rewrite Hw. split; [|exact Hr].
  rewrite Hload.
  destruct (@only_match_is_found env (servers_set name config l) name config) as (Hf & Hg).
  - apply servers_set_NoDup. exact Hnd.
  - apply servers_set_In; auto.
  - exact Hm.
  - intros k c Hin Hk. apply servers_set_In in Hin; auto.
    destruct Hin as [[-> _]|[_ Hin]]; [congruence|]. apply Hothers; assumption.
  - rewrite Hf. destruct (String.eqb_spec name EmptyString); [contradiction|].
    rewrite Hg. reflexivity.
Qed.

Lemma saved_server_is_loaded_witness :
  let load := table_load known_documents in
  let dump := const_dump "servers: static-site, staging-server" in
  let o :=
    and_then
      (Manager.saveServerConfig (disk_externals load) (disk_fileops dump)
         "staging-server" app_config)
      (Config.loadConfig (disk_externals load) "staging") (on_disk (one_server [])) in
  result_of o = Ok (Some app_config) /\
  disk_read disk_servers_file (disk_files (world (state_of o)))
    = Some "servers: static-site, staging-server".
Proof.
  apply (@saved_server_is_loaded (table_load known_documents)
           (const_dump "servers: static-site, staging-server") (one_server [])
           [("static-site", static_config)] "staging-server" app_config "staging"
           "servers: static-site, staging-server").
  - reflexivity.
  - repeat constructor. intros [].
  - reflexivity.
  - reflexivity.
  - discriminate.
  - discriminate.
  - reflexivity.
  - intros k c [Heq|[]] _. injection Heq as <- <-. reflexivity.
Defined.

Lemma servers_get_Some_In name l c :
  Config.servers_get name l = Some c -> In (name, c) l.
Proof.
  induction l as [|[k c'] l IH]; cbn; [discriminate|].
  destruct (String.eqb_spec k name) as [->|_].
  - intros H. injection H as ->. auto.
  - auto.
Qed.

(** A server that was removed is not loaded any more: when the servers file
    holds a server [name] and the operator confirms, [removeServer(name)]
    rewrites the file with the dump of the mapping without that entry, and
    whatever environment is asked for afterwards, [loadConfig] returns one
    of the other servers of the file or throws. *)
Theorem removed_server_is_not_loaded (load : string -> JsResult (option ServersDoc))
  (dump : ServersDoc -> JsResult string) (d : Disk) (l : Servers)
  (name text : string) :
  stored load d l ->
  has_key name l = true ->
  next_answer d = true ->
  dump {| servers := Some (servers_delete name l) |} = Ok text ->
  load text = Ok (Some {| servers := Some (servers_delete name l) |}) ->
  let o := Manager.removeServer (disk_externals load) (disk_fileops dump) name
             (on_disk d) in
  result_of o = Ok tt /\
  disk_read disk_servers_file (disk_files (world (state_of o))) = Some text /\
  (forall env c,
      result_of (Config.loadConfig (disk_externals load) env (state_of o))
        = Ok (Some c) ->
      exists k, k <> name /\ In (k, c) l).
Proof.
  intros Hst Hk Ha Hd Hl o. subst o. unfold stored, next_answer in *.
  unfold Manager.removeServer. run.
  cbn [x_pathExists x_serversFile disk_externals on_disk world fst snd].
  destruct (disk_read disk_servers_file (disk_files d)) as [text0|] eqn:Hr;
    [|subst l; discriminate Hk].
  cbn [negb]. run. cbn [x_readFile x_yamlLoad disk_externals world fst snd].
  rewrite Hr. run.
  destruct (load text0) as [doc|e]; [|contradiction]. run. rewrite Hst.
  unfold property_truthy. rewrite Hk. cbn [orb negb]. run.
  cbn [x_prompt disk_externals world fst snd].
  destruct (disk_answers d) as [|[|] rest]; try discriminate Ha. run.
  cbn [f_yamlDump disk_fileops world]. rewrite Hd. run. unfold perform.
  cbn [f_writeFile disk_fileops world sessions ssh_var result_of state_of fst snd
       disk_files disk_answers disk_texts].
  split; [reflexivity|]. split; [apply disk_read_write_same|].
  intros env c.
  erewrite (@loadConfig_run Disk (disk_externals load) env _ _ text _
              (servers_delete name l)).
  2:{ cbn. rewrite disk_read_write_same. reflexivity. }
  2:{ cbn. rewrite disk_read_write_same. reflexivity. }
  2:{ exact Hl. }
  cbn [result_of fst].
  destruct (find (Config.matches env (servers_delete name l))
              (Config.keys (servers_delete name l))) as [k|];
    [|intros Hg; discriminate Hg].
  destruct (String.eqb k EmptyString); [intros Hg; discriminate Hg|].
  intros Hg. injection Hg as Hg. apply servers_get_Some_In in Hg.
  apply servers_delete_In in Hg as [Hne Hin]. eauto.
Qed.

Lemma removed_server_is_not_loaded_witness :
  let load := table_load known_documents in
  let dump := const_dump "servers: {}" in
  let o := Manager.removeServer (disk_externals load) (disk_fileops dump) "static-site"
             (on_disk (one_server [true])) in
  result_of o = Ok tt /\
  disk_read disk_servers_file (disk_files (world (state_of o))) = Some "servers: {}" /\
  (forall env c,
      result_of (Config.loadConfig (disk_externals load) env (state_of o))
        = Ok (Some c) ->
      exists k, k <> "static-site" /\ In (k, c) [("static-site", static_config)]).
Proof.
  apply (@removed_server_is_not_loaded (table_load known_documents)
           (const_dump "servers: {}") (one_server [true])
           [("static-site", static_config)] "static-site" "servers: {}");
    reflexivity.
Defined.

(** Without the operator's consent [removeServer] leaves every file of the
    disk as it is: when the answer to its question is no, whatever the
    servers file holds and whichever name is given, nothing is written. *)
Theorem removal_needs_consent (load : string -> JsResult (option ServersDoc))
  (dump : ServersDoc -> JsResult string) (d : Disk) (name : string) :
  next_answer d = false ->
  disk_files
    (world (state_of (Manager.removeServer (disk_externals load) (disk_fileops dump)
                        name (on_disk d)))) = disk_files d.
Proof.
  intros Ha. unfold next_answer in Ha. unfold Manager.removeServer. run.
  cbn [x_pathExists x_serversFile disk_externals on_disk world fst snd].
  destruct (disk_read disk_servers_file (disk_files d)) as [text0|] eqn:Hr;
    cbn [negb]; run; [|reflexivity].
  cbn [x_readFile x_yamlLoad disk_externals world fst snd]. rewrite Hr. run.
  destruct (load text0) as [doc|e]; run; [|reflexivity].
  destruct (servers (Manager.or_empty doc)) as [l|]; run; [|reflexivity].
  destruct (property_truthy name l); cbn [negb]; run; [|reflexivity].
  cbn [x_prompt disk_externals world fst snd].
  destruct (disk_answers d) as [|[|] rest]; try discriminate Ha; run; reflexivity.
Qed.

Lemma removal_needs_consent_witness :
  disk_files
    (world (state_of (Manager.removeServer (disk_externals (table_load known_documents))
                        (disk_fileops (const_dump "servers: {}")) "static-site"
                        (on_disk (one_server [false])))))
  = disk_files (one_server [false]).
Proof.
  apply (removal_needs_consent (table_load known_documents)
           (const_dump "servers: {}") (one_server [false]) "static-site").
  reflexivity.
Defined.

(** [initConfig] starts the servers file afresh: when the operator declines
    to add a first server, the wizard is not entered, the servers file holds
    the dump of the empty mapping whatever it held before, and [loadConfig]
    then finds no server for any environment. *)
Theorem init_forgets_servers (load : string -> JsResult (option ServersDoc))
  (dump : ServersDoc -> JsResult string) (d : Disk) (env text : string)
  (addServer : M Disk unit) :
  dump {| servers := Some [] |} = Ok text ->
  load text = Ok (Some {| servers := Some [] |}) ->
  next_answer d = false ->
  let X := disk_externals load in
  let F := disk_fileops dump in
  let o := and_then (Manager.initConfig X F addServer) (Config.loadConfig X env)
             (on_disk d) in
  result_of o = Throw (Config.not_found env) /\
  disk_read disk_servers_file (disk_files (world (state_of o))) = Some text /\
  disk_read (f_configFile F) (disk_files (world (state_of o))) = Some "version: 1.0.0".
Proof.
  intros Hd Hl Ha X F o. subst o X F. unfold next_answer in Ha.
  unfold and_then. rewrite bind_run. unfold Manager.initConfig. run. unfold perform.
  cbn [f_ensureDir f_writeFile f_yamlDump f_defaultConfigYaml f_configFile f_configDir
       x_serversFile x_prompt disk_fileops disk_externals on_disk world sessions ssh_var
       fst snd disk_files disk_answers disk_texts].
  run. rewrite Hd. run.
  cbn [f_ensureDir f_writeFile f_yamlDump f_defaultConfigYaml f_configFile f_configDir
       x_serversFile x_prompt disk_fileops disk_externals on_disk world sessions ssh_var
       fst snd disk_files disk_answers disk_texts].
  destruct (disk_answers d) as [|[|] rest]; try discriminate Ha; run;
    (erewrite (@loadConfig_run Disk (disk_externals load) env _ _ text _ []);
     [ | cbn; rewrite disk_read_write_same; reflexivity
       | cbn; rewrite disk_read_write_same; reflexivity
       | exact Hl ]);
    cbn [result_of state_of fst snd world disk_files find Config.keys map];
    (split; [reflexivity|]);
    (split; [apply disk_read_write_same|]);
    (rewrite disk_read_write_other by discriminate);
    apply disk_read_write_same.
Qed.

Lemma init_forgets_servers_witness :
  let X := disk_externals (table_load known_documents) in
  let F := disk_fileops (const_dump "servers: {}") in
  let o := and_then (Manager.initConfig X F (throw (Error "not entered")))
             (Config.loadConfig X "staging") (on_disk (one_server [false])) in
  result_of o = Throw (Config.not_found "staging") /\
  disk_read disk_servers_file (disk_files (world (state_of o))) = Some "servers: {}" /\
  disk_read (f_configFile F) (disk_files (world (state_of o))) = Some "version: 1.0.0".
Proof.
  apply (@init_forgets_servers (table_load known_documents) (const_dump "servers: {}")
           (one_server [false]) "staging" "servers: {}" (throw (Error "not entered")));
    reflexivity.
Defined.

(** ** Consent before the host is touched *)

Section Consent.
Context {W : Type} (X : Externals W).

Lemma accepted_not_remote name e : accepted name e = true -> remote_event e = false.
Proof. destruct e; try discriminate. reflexivity. Qed.

Lemma confirmDeployment_passes env branch config :
  passes (accepted "confirmed") remote_event
         (Deploy.confirmDeployment X env branch config).
Proof.
  unfold Deploy.confirmDeployment.
  do 5 (apply passes_after; [only_tac|intros _]).
  intros st. run. destruct (x_prompt X "confirmed" (world st)) as [[|] w']; run.
  - split; reflexivity.
  - split; [reflexivity|discriminate].
Qed.

Lemma deploy_gated_consent options st :
  match Deploy.opt_force options with Some b => b | None => false end = false ->
  match Deploy.opt_dryRun options with Some b => b | None => false end = false ->
  gated (accepted "confirmed") remote_event
        (events_of (Deploy.deployProject X options st)) = true.
Proof.
  intros Hf Hd. unfold Deploy.deployProject. cbv zeta. rewrite Hf, Hd.
  cbn [negb andb when].
  do 3 (apply gated_after; [local_parts; only_tac|intros _ ?]).
  apply gated_after; [local_parts; only_tac|intros [config|] ?]; [|reflexivity].
  apply gated_after; [local_parts; only_tac|intros _ ?].
  apply gated_then. apply confirmDeployment_passes.
Qed.
End Consent.

(** Without [force] and outside a dry run, [deployProject] touches no
    remote session before the operator has answered yes to the
    confirmation of the deployment: every event of a remote session in a
    run comes after that answer. *)
Theorem unforced_deploy_waits_for_consent {W} (X : Externals W)
  (options : Deploy.Options) (st : State W) :
  match Deploy.opt_force options with Some b => b | None => false end = false ->
  match Deploy.opt_dryRun options with Some b => b | None => false end = false ->
  let evs := events_of (Deploy.deployProject X options st) in
  gated (accepted "confirmed") remote_event evs = true /\
  (forall pre e post,
      evs = (pre ++ e :: post)%list -> remote_event e = true ->
      In (EvPrompt "confirmed" true) pre).
Proof.
  intros Hf Hd evs. split; [apply deploy_gated_consent; assumption|].
  intros pre e post Hevs He.
  assert (Hex : existsb (accepted "confirmed") pre = true).
  { eapply gated_before with (l := evs);
      [apply accepted_not_remote | apply deploy_gated_consent; assumption
      | exact Hevs | exact He]. }
  apply existsb_exists in Hex as (x & Hin & Hx).
  destruct x; try discriminate Hx. destruct answer; [|discriminate Hx].
  cbn in Hx. apply String.eqb_eq in Hx. subst name. exact Hin.
Qed.

Lemma unforced_deploy_waits_for_consent_witness :
  let evs := events_of (Deploy.deployProject (world_of calm) asking_options start) in
  gated (accepted "confirmed") remote_event evs = true /\
  (forall pre e post,
      evs = (pre ++ e :: post)%list -> remote_event e = true ->
      In (EvPrompt "confirmed" true) pre).
Proof.
  apply (unforced_deploy_waits_for_consent (world_of calm) asking_options start);
    reflexivity.
Defined.

(** The questions of [deployProject] are 'shouldContinue' and 'confirmed'. *)
Lemma deploy_questions {W} (X : Externals W) options :
  only (fun e => match e with
                 | EvPrompt name _ =>
                     String.eqb name "shouldContinue" || String.eqb name "confirmed"
                 | _ => true
                 end)
       (Deploy.deployProject X options).
Proof.
  unfold Deploy.deployProject. cbv zeta. local_parts.
  repeat first
    [ apply executeDeployment_only; intros [] He; try discriminate He; reflexivity
    | only_step | reflexivity ].
Qed.

(** The quick command: when the operator declines its question, nothing
    happens but the question and the line '部署已取消'; otherwise the
    deployment runs with neither [force] nor [dryRun], so that no remote
    session is touched before both the question of the quick command and the
    confirmation of [deployProject] were answered yes.  A refusal at either
    leaves the run without any event of a remote session. *)
Theorem quick_deploy_asks_twice {W} (X : Externals W) (F : FileOps W) (st : State W) :
  let o := Quick.quick_action X F st in
  gated (accepted "confirm") remote_event (events_of o) = true /\
  gated (accepted "confirmed") remote_event (events_of o) = true /\
  (In (EvPrompt "confirm" false) (events_of o) ->
   result_of o = Ok tt /\
   events_of o = [EvPrompt "confirm" false; EvConsoleLog "部署已取消"]) /\
  (existsb declined (events_of o) = true ->
   forallb (fun e => negb (remote_event e)) (events_of o) = true).
Proof.
  intros o. subst o. unfold Quick.quick_action. run.
  destruct (f_promptText F "env" (world st)) as [env w1]. run.
  destruct (f_promptText F "branch" w1) as [branch w2]. run.
  destruct (x_prompt X "confirm" w2) as [[|] w3]; run.
  - set (options := {| Deploy.opt_env := env; Deploy.opt_branch := Some branch;
                       Deploy.opt_force := None; Deploy.opt_dryRun := None |}).
    set (st3 := {| world := w3; sessions := sessions st; ssh_var := ssh_var st |}).
    pose proof (deploy_gated_consent X options st3 eq_refl eq_refl) as Hg.
    pose proof (deploy_stops_declined X options st3) as (Hh & _).
    pose proof (deploy_asks_first X options st3) as Ha.
    pose proof (deploy_questions X options st3) as Hq.
    destruct (Deploy.deployProject X options st3) as [[r st4] evs].
    cbn [result_of events_of fst snd app] in *.
    split; [reflexivity|]. split; [exact Hg|]. split.
    + intros [Hin|Hin]; [discriminate Hin|]. exfalso.
      apply (forallb_In _ _ _ Hq) in Hin. discriminate Hin.
    + cbn [existsb declined negb orb forallb remote_event kind_of is_remote andb].
      intros Hd. apply declined_means_local; assumption.
  - split; [reflexivity|]. split; [reflexivity|]. split; [auto|].
    intros _. reflexivity.
Qed.

(** ** Formatting a duration *)


(** ** Defaults of a project type *)

(** [getProjectCommands] answers with the entry of its table for the five
    project types it knows, and with the Node.js entry for every other name,
    the wizard's 'Other' among them, unless the name is that of a member
    every object inherits (such as 'constructor' or 'toString'): then the
    lookup finds that member and the defaults are not used.  For each of the
    six choices of the wizard the answer is an entry of the table. *)
Theorem project_commands_fallback (projectType : string) :
  (forall c, In (projectType, c) Manager.commands ->
             Manager.getProjectCommands projectType = Commands c) /\
  (~ In projectType (map fst Manager.commands) ->
   Manager.getProjectCommands projectType =
     if inherited projectType then ObjectMember projectType
     else Commands Manager.node_commands) /\
  (In projectType ["Node.js"; "React/Vue SPA"; "Static HTML"; "PHP"; "Python"; "Other"] ->
   exists c, Manager.getProjectCommands projectType = Commands c /\
             (projectType = "Other" -> c = Manager.node_commands)).
Proof.
  repeat split.
  - intros c Hin. unfold Manager.commands in Hin. cbn in Hin.
    repeat destruct Hin as [Hin|Hin]; try contradiction;
      injection Hin as <- <-; reflexivity.
  - intros Hn. unfold Manager.getProjectCommands.
    destruct (find (fun kv => String.eqb (fst kv) projectType) Manager.commands)
      as [kv|] eqn:Hf; [|reflexivity].
    exfalso. apply find_some in Hf as [Hin Heq]. apply String.eqb_eq in Heq.
    apply Hn. rewrite <- Heq. apply in_map. exact Hin.
  - intros Hin. cbn in Hin.
    repeat destruct Hin as [Hin|Hin]; try contradiction; subst projectType;
      eexists; (split; [reflexivity|]); try discriminate. reflexivity.
Qed.

(** ** Reading the private key *)

(** [readPrivateKey] never throws: it returns the content of the key file
    when the file exists and can be read, and [undefined] otherwise, with a
    warning on the console; it reads nothing when the file does not
    exist. *)
Theorem readPrivateKey_never_throws {W} (X : Externals W)
  (keyPath : string) (st : State W) :
  let o := Manager.readPrivateKey X keyPath st in
  let ex := x_pathExists X keyPath (world st) in
  result_of o =
    Ok (if fst ex then
          match fst (x_readFile X keyPath (snd ex)) with
          | Ok content => Some content
          | Throw _ => None
          end
        else None) /\
  (fst ex = false -> ~ In (EvReadFile keyPath) (events_of o)) /\
  (result_of o = Ok None -> exists text, In (EvConsoleLog text) (events_of o)) /\
  sessions (state_of o) = sessions st.
Proof.
  intros o ex. subst o ex. unfold Manager.readPrivateKey. run.
  destruct (x_pathExists X keyPath (world st)) as [[|] w1]; run.
  - destruct (x_readFile X keyPath w1) as [[content|e] w2]; run.
    + repeat split; discriminate.
    + repeat split; try discriminate. intros _. eexists. right. right. left.
      reflexivity.
  - repeat split.
    + intros _ [Hin|[Hin|[]]]; discriminate Hin.
    + intros _. eexists. right. left. reflexivity.
Qed.

(** ** Failures before the session is open *)

(** When the local build fails, [executeDeployment] throws the error of the
    build and has done nothing else: no session object is created, and the
    run holds no event of a remote session, not even a [disconnect]. *)
Theorem failed_build_opens_no_session {W} (X : Externals W)
  (config : ServerConfig) (branch env : string) (st : State W) :
  let build := Deploy.buildProject X config (entering st) in
  let o := Deploy.executeDeployment X config branch env st in
  is_ok (result_of build) = false ->
  result_of o = result_of build /\
  events_of o = events_of build /\
  forallb (fun e => negb (remote_event e)) (events_of o) = true /\
  sessions (state_of o) = sessions st.
Proof.
  intros build o Hfail. subst build o.
  pose proof (@buildProject_keeps W X local_only ltac:(repeat split) config
                eq_refl eq_refl (entering st)) as (Hs & _ & Hev).
  destruct (Deploy.buildProject X config (entering st)) as [[[[]|e] stb] evb] eqn:Hb;
    [discriminate Hfail|].
  rewrite (execute_build_failed X config branch env st Hb).
  cbn [result_of state_of events_of fst snd] in *.
  repeat split; assumption.
Qed.

Lemma failed_build_opens_no_session_witness :
  let o := Deploy.executeDeployment (world_of build_breaks) app_config "main"
             "staging" start in
  result_of o = Throw (Error "Command failed: npm run build") /\
  forallb (fun e => negb (remote_event e)) (events_of o) = true /\
  sessions (state_of o) = [].
Proof.
  destruct (failed_build_opens_no_session (world_of build_breaks) app_config "main"
              "staging" start eq_refl) as (H1 & _ & H3 & H4).
  split; [exact H1|]. split; [exact H3|exact H4].
Defined.

(** When the host refuses the connection, [executeDeployment] throws
    'SSH连接失败: ' followed by the cause; no command is sent and no file is
    transferred; [disconnect] is still entered, once, from the [finally]
    block, and it closes nothing, the session never having been connected. *)
Theorem refused_connection_sends_nothing {W} (X : Externals W)
  (config : ServerConfig) (branch env : string) (st : State W) (sid : nat)
  (e : JsError) :
  let o := Deploy.executeDeployment X config branch env st in
  In (EvSshConnect sid (Throw e)) (events_of o) ->
  result_of o = Throw (Error ("SSH连接失败: " ++ message e)) /\
  execs (events_of o) = [] /\
  forallb (fun ev => negb (is_upload (kind_of ev))) (events_of o) = true /\
  count (is_disconnect sid) (events_of o) = 1 /\
  count (is_dispose sid) (events_of o) = 0 /\
  nth_error (sessions (state_of o)) sid = Some (fresh_session config).
Proof.
  intros o Hin. subst o.
  pose proof (@buildProject_keeps W X local_only ltac:(repeat split) config
                eq_refl eq_refl (entering st)) as (_ & _ & Hevb).
  assert (Hloc : forall l, forallb (fun ev => local_only (kind_of ev)) l = true ->
                   forallb (fun ev => no_lifecycle (kind_of ev)) l = true /\
                   execs l = [] /\
                   forallb (fun ev => negb (is_upload (kind_of ev))) l = true).
  { intros l Hl. split; [|split].
    - revert Hl. apply forallb_weaken. intros []; cbn; congruence.
    - apply execs_none. revert Hl. apply forallb_weaken. intros []; cbn; congruence.
    - revert Hl. apply forallb_weaken. intros []; cbn; congruence. }
  destruct (Deploy.buildProject X config (entering st)) as [[[[]|e0] stb] evb] eqn:Hb;
    cbn [events_of snd] in Hevb; destruct (Hloc _ Hevb) as (Hl & Hx & Hu).
  - destruct (x_sshConnect X (length (sessions st)) config (world stb))
      as [[u|e1] w'] eqn:Hc.
    + exfalso.
      destruct (stages X (length (sessions st)) config
                  {| world := w';
                     sessions := (sessions st ++ [open_session config])%list;
                     ssh_var := Some (length (sessions st)) |})
        as [[r st3] evr] eqn:Hr.
      pose proof (@stages_keeps W X config no_lifecycle (length (sessions st))
                    reports_no_lifecycle eq_refl eq_refl eq_refl eq_refl eq_refl
                    eq_refl eq_refl
                    {| world := w';
                       sessions := (sessions st ++ [open_session config])%list;
                       ssh_var := Some (length (sessions st)) |}) as (_ & _ & Hevr).
      rewrite Hr in Hevr. cbn in Hevr.
      rewrite (execute_connected X config branch env st Hb Hc Hr) in Hin.
      cbn [events_of snd] in Hin.
      rewrite !in_app_iff in Hin. destruct Hin as [Hin|[Hin|[Hin|Hin]]].
      * exact (lifecycle_free_connect _ _ _ Hl Hin).
      * cbn in Hin. destruct Hin as [Hin|[Hin|[Hin|[Hin|[]]]]]; discriminate Hin.
      * exact (lifecycle_free_connect _ _ _ Hevr Hin).
      * cbn in Hin. destruct Hin as [Hin|[Hin|[Hin|[]]]]; discriminate Hin.
    + rewrite (execute_connect_failed X config branch env st Hb Hc) in *.
      cbn [events_of state_of result_of snd fst sessions] in *.
      assert (Heq : sid = length (sessions st) /\ e = e1).
      { rewrite !in_app_iff in Hin. destruct Hin as [Hin|[Hin|Hin]].
        - exfalso. exact (lifecycle_free_connect _ _ _ Hl Hin).
        - cbn in Hin. destruct Hin as [Hin|[Hin|[Hin|[Hin|[]]]]];
            try discriminate Hin. injection Hin as <- <-. auto.
        - cbn in Hin. destruct Hin as [Hin|[]]. discriminate Hin. }
      destruct Heq as [-> ->].
      destruct (lifecycle_free_disconnect (length (sessions st)) _ Hl) as (B1 & B2).
      rewrite !execs_app, !forallb_app, !count_app, Hx, Hu, B1, B2.
      unfold count. cbn. rewrite Nat.eqb_refl. cbn.
      repeat split. apply nth_error_fresh.
  - exfalso. rewrite (execute_build_failed X config branch env st Hb) in Hin.
    exact (lifecycle_free_connect _ _ _ Hl Hin).
Qed.

Lemma refused_connection_sends_nothing_witness :
  let o := Deploy.executeDeployment (world_of refused) app_config "main" "staging"
             start in
  result_of o = Throw (Error "SSH连接失败: connect ECONNREFUSED 10.0.0.5:22") /\
  execs (events_of o) = [] /\
  count (is_disconnect 0) (events_of o) = 1 /\
  count (is_dispose 0) (events_of o) = 0.
Proof.
  assert (Hin : In (EvSshConnect 0 (Throw (Error "connect ECONNREFUSED 10.0.0.5:22")))
                   (events_of (Deploy.executeDeployment (world_of refused) app_config
                                 "main" "staging" start))).
  { vm_compute. do 5 right. left. reflexivity. }
  destruct (refused_connection_sends_nothing (world_of refused) app_config "main"
              "staging" start 0 _ Hin) as (H1 & H2 & _ & H4 & H5 & _).
  repeat split; assumption.
Defined.

(** ** The state of the working tree *)

Lemma trim_start_blank s :
  trim_start s = EmptyString <-> forallb is_space (list_ascii_of_string s) = true.
Proof.
  induction s as [|c s IH]; cbn; [tauto|].
  destruct (is_space c); cbn; [exact IH|]. split; discriminate.
Qed.

Lemma trim_start_head s c t : trim_start s = String c t -> is_space c = false.
Proof.
  induction s as [|c' s IH]; cbn; [discriminate|].
  destruct (is_space c') eqn:E; [exact IH|]. intros H. injection H as <- _. exact E.
Qed.

Lemma trim_end_head c s : is_space c = false -> trim_end (String c s) <> EmptyString.
Proof.
  intros Hc. cbn. destruct (trim_end s); [rewrite Hc|]; discriminate.
Qed.

(** A string trims to nothing exactly when it is white space throughout. *)
Lemma trim_blank s :
  trim s = EmptyString <-> forallb is_space (list_ascii_of_string s) = true.
Proof.
  unfold trim. rewrite <- trim_start_blank. split.
  - intros H. destruct (trim_start s) as [|c t] eqn:E; [reflexivity|].
    exfalso. apply (@trim_end_head c t (@trim_start_head s c t E)). exact H.
  - intros ->. reflexivity.
Qed.

Lemma newline_is_space c : Ascii.eqb c (ascii_of_nat 10) = true -> is_space c = true.
Proof. intros H. apply Ascii.eqb_eq in H. subst c. reflexivity. Qed.

(** Every line of a text is blank exactly when the text is. *)
Lemma blank_lines s :
  (forall l, In l (split_lines s) -> trim l = EmptyString) <->
  forallb is_space (list_ascii_of_string s) = true.
Proof.
  induction s as [|c s IH]; cbn [split_lines list_ascii_of_string forallb].
  - split; [reflexivity|]. intros _ l [<-|[]]. reflexivity.
  - destruct (Ascii.eqb c (ascii_of_nat 10)) eqn:Enl.
    + rewrite (newline_is_space _ Enl). cbn [andb]. rewrite <- IH. split.
      * intros H l Hl. apply H. right. exact Hl.
      * intros H l [<-|Hl]; [reflexivity|auto].
    + destruct (split_lines s) as [|l0 ls] eqn:Es.
      * assert (Hs : forallb is_space (list_ascii_of_string s) = true)
          by (apply IH; intros l []).
        rewrite Hs, Bool.andb_true_r. split.
        -- intros H. specialize (H _ (or_introl eq_refl)).
           apply trim_blank in H. cbn in H. rewrite Bool.andb_true_r in H. exact H.
        -- intros H l [<-|[]]. apply trim_blank. cbn. rewrite H. reflexivity.
      * split.
        -- intros H. pose proof (H _ (or_introl eq_refl)) as H0.
           apply trim_blank in H0. cbn in H0. apply andb_prop in H0 as [Hc H0].
           rewrite Hc. cbn. apply IH. intros l [<-|Hl].
           ++ apply trim_blank. exact H0.
           ++ apply H. right. exact Hl.
        -- intros H. apply andb_prop in H as [Hc Hs].
           assert (IH' := proj2 IH Hs).
           intros l [<-|Hl].
           ++ apply trim_blank. cbn. rewrite Hc. cbn. apply trim_blank.
              apply IH'. left. reflexivity.
           ++ apply IH'. right. exact Hl.
Qed.

(** The lines that are not blank, when the text is blank or not. *)
Lemma status_lines_agree s :
  negb (String.eqb (trim s) EmptyString) = true <->
  filter (fun line => negb (String.eqb (trim line) EmptyString)) (split_lines s) <> [].
Proof.
  split.
  - intros H Hnil. apply Bool.negb_true_iff in H. apply String.eqb_neq in H.
    apply H. apply trim_blank. apply blank_lines. intros l Hl.
    destruct (String.eqb_spec (trim l) EmptyString) as [E|E]; [exact E|].
    exfalso.
    assert (Hin : In l (filter (fun line => negb (String.eqb (trim line) EmptyString))
                          (split_lines s))).
    { apply filter_In. split; [exact Hl|].
      apply Bool.negb_true_iff. apply String.eqb_neq. exact E. }
    rewrite Hnil in Hin. exact Hin.
  - intros Hne. apply Bool.negb_true_iff. apply String.eqb_neq. intros Hb.
    apply Hne. apply trim_blank in Hb. rewrite <- blank_lines in Hb.
    destruct (filter _ (split_lines s)) as [|l ls] eqn:Ef; [reflexivity|].
    exfalso.
    assert (Hin : In l (filter (fun line => negb (String.eqb (trim line) EmptyString))
                          (split_lines s))) by (rewrite Ef; left; reflexivity).
    apply filter_In in Hin as [Hl Hnb]. rewrite (Hb l Hl) in Hnb. discriminate.
Qed.

(** The two readings [getGitStatus] makes of [git status --porcelain] agree:
    it reports uncommitted changes exactly when its list of status lines is
    not empty, and no line of the list is blank.  Whatever makes one of its
    three commands fail, the error it throws is '获取Git状态失败', and the
    commands after the failing one are not run. *)
Theorem git_status_fields_agree {W} (X : Externals W) (st : State W) :
  let o := Utils.getGitStatus X st in
  match result_of o with
  | Ok gs =>
      (hasUncommittedChanges gs = true <-> status gs <> []) /\
      (forall line, In line (status gs) -> trim line <> EmptyString) /\
      length (events_of o) = 3
  | Throw e =>
      e = Error "获取Git状态失败" /\
      length (events_of o) <= 3 /\
      exists pre cmd cause,
        events_of o = (pre ++ [EvExecSync cmd (Throw cause)])%list
  end.
Proof.
  intros o. subst o. unfold Utils.getGitStatus, Utils.execSync. run.
  destruct (x_execSync X "git status --porcelain" (world st)) as [[s|e] w1]; run.
  2:{ split; [reflexivity|]. split; [cbn; lia|]. exists []. do 2 eexists. reflexivity. }
  destruct (x_execSync X _ w1) as [[a|e] w2]; run.
  2:{ split; [reflexivity|]. split; [cbn; lia|]. eexists [_]. do 2 eexists. reflexivity. }
  destruct (x_execSync X _ w2) as [[b|e] w3]; run.
  2:{ split; [reflexivity|]. split; [cbn; lia|]. eexists [_; _]. do 2 eexists. reflexivity. }
  cbn [hasUncommittedChanges status].
  split; [apply status_lines_agree|]. split; [|reflexivity].
  intros line Hin. apply filter_In in Hin as [_ Hnb].
  apply Bool.negb_true_iff in Hnb. apply String.eqb_neq in Hnb. exact Hnb.
Qed.

(** ** What a deployment transfers *)



Section Transfers.
Context {W : Type} (X : Externals W).
Variable config : ServerConfig.


End Transfers.


(** A server saved under a new name does not replace the server already
    found for an environment: when the servers file has a server that is the
    first to match [env], and [name] is a new name that is not an array
    index, [loadConfig(env)] after [saveServerConfig(name, config)] still
    returns the old server, whether or not [config] matches [env] too. *)
Theorem earlier_server_shadows_saved (load : string -> JsResult (option ServersDoc))
  (dump : ServersDoc -> JsResult string) (d : Disk) (l l1 l2 : Servers)
  (name k0 : string) (config c0 : ServerConfig) (env text : string) :
  stored load d l ->
  NoDup (Config.keys l) ->
  l = (l1 ++ (k0, c0) :: l2)%list ->
  includes k0 env || Config.strict_eq (environment c0) env = true ->
  (forall k c, In (k, c) l1 ->
               includes k env || Config.strict_eq (environment c) env = false) ->
  k0 <> EmptyString ->
  has_key name l = false -> is_index name = false ->
  dump {| servers := Some (servers_set name config l) |} = Ok text ->
  load text = Ok (Some {| servers := Some (servers_set name config l) |}) ->
  result_of
    (and_then
       (Manager.saveServerConfig (disk_externals load) (disk_fileops dump) name config)
       (Config.loadConfig (disk_externals load) env) (on_disk d))
  = Ok (Some c0).
Proof.
  intros Hst Hnd Hl Hm Hbefore Hk0 Hnew Hidx Hd Hload.
  destruct (@save_run load dump d l name config text Hst Hd) as (evs & Hsave).
  unfold and_then. rewrite bind_run, Hsave.
  assert (Hr : disk_read disk_servers_file (disk_files (rewritten text d)) = Some text)
    by apply disk_read_write_same.
  pose proof (@load_run load (rewritten text d) text _ env Hr Hload) as Hres.
  destruct (Config.loadConfig (disk_externals load) env (on_disk (rewritten text d)))
    as [[r st2] ev2].
  cbn [result_of fst] in Hres |- *. rewrite Hres.
  assert (Hset : exists l2', servers_set name config l = (l1 ++ (k0, c0) :: l2')%list).
  { unfold servers_set. rewrite Hnew, Hidx.
    destruct (String.eqb name "__proto__").
    - exists l2. exact Hl.
    - exists (l2 ++ [(name, config)])%list. rewrite Hl, <- app_assoc. reflexivity. }
  destruct Hset as (l2' & Hset).
  destruct (@find_first_match env (servers_set name config l) l1 k0 c0 l2'
              (@servers_set_NoDup name config l Hnd) Hset Hm Hbefore) as (Hf & Hg).
  rewrite Hf. destruct (String.eqb_spec k0 EmptyString); [contradiction|].
  rewrite Hg. reflexivity.
Qed.

Lemma earlier_server_shadows_saved_witness :
  result_of
    (and_then
       (Manager.saveServerConfig
          (disk_externals (table_load known_documents))
          (disk_fileops (const_dump "servers: static-site, staging-server"))
          "staging-server" app_config)
       (Config.loadConfig (disk_externals (table_load known_documents)) "site")
       (on_disk (one_server [])))
  = Ok (Some static_config).
Proof.
  apply (@earlier_server_shadows_saved (table_load known_documents)
           (const_dump "servers: static-site, staging-server") (one_server [])
           [("static-site", static_config)] [] [] "staging-server" "static-site"
           app_config static_config "site" "servers: static-site, staging-server");
    try reflexivity.
  - repeat constructor. intros [].
  - intros k c [].
  - discriminate.
Defined.

(** ** Reading the state of a deployment *)

Section DeployInfo.
Context {W : Type} (X : Externals W).

Lemma fileExists_reads sid path : only reads_only (SSH.fileExists X sid path).
Proof.
  unfold SSH.fileExists.
  apply only_try_catch; [|intros; apply only_ret].
  apply only_bind; [apply only_exec; reflexivity|intros; apply only_ret].
Qed.

Lemma prefix_nil s : String.prefix EmptyString s = true.
Proof. destruct s; reflexivity. Qed.

Lemma getDeployInfo_reads ssh config :
  only reads_only (Utils.getDeployInfo X ssh config).
Proof.
  pose proof fileExists_reads as Hf.
  unfold Utils.getDeployInfo. cbv zeta.
  repeat first
    [ apply Hf
    | apply only_exec; [reflexivity|intros c r; cbn; rewrite ?prefix_nil; reflexivity]
    | only_step
    | reflexivity ].
Qed.

Lemma getDeployInfo_keeps allowed ssh config :
  allowed KConsole = true -> allowed KExec = true ->
  keeps allowed (Utils.getDeployInfo X ssh config).
Proof.
  intros Hc He.
  pose proof (fileExists_keeps X allowed) as Hf.
  pose proof (exec_keeps X allowed) as Hx.
  unfold Utils.getDeployInfo. cbv zeta. keeps_tac.
Qed.
End DeployInfo.

(** [getDeployInfo] only looks: it never throws, whatever the host answers
    and whether or not the session is connected; the only remote commands it
    sends are tests for a file, [cat] and [stat]; it transfers nothing and
    leaves the session objects as they are. *)
Theorem getDeployInfo_only_reads {W} (X : Externals W) (ssh : nat)
  (config : ServerConfig) (st : State W) :
  let o := Utils.getDeployInfo X ssh config st in
  is_ok (result_of o) = true /\
  forallb reads_only (events_of o) = true /\
  sessions (state_of o) = sessions st.
Proof.
  intros o. subst o. split; [|split].
  - unfold Utils.getDeployInfo. apply try_catch_total. reflexivity.
  - apply getDeployInfo_reads.
  - apply (@getDeployInfo_keeps W X (fun _ => true) ssh config eq_refl eq_refl st).
Qed.
